(** * ai-commit-reporter: batch commit report generator

    A shallow embedding of the three scripts of the repository:
    - [gpt.js]: the client made when the module is loaded and
      [generateMessage], the wrapper around the chat completion API;
    - the batch script, whose [main] validates a date window, lists the
      commits, groups them per UTC calendar day, summarises every commit and
      writes one Markdown report per day;
    - the script that shows and explains a single commit.

    JavaScript built-ins ([Date], [String.prototype.trim], [split],
    [substring], [Object.entries]) are embedded after ECMA-262.  A [string]
    holds the UTF-8 bytes of the JavaScript string, so that the non-ASCII
    literal text of the source is kept verbatim and the white space that
    [trim] strips outside ASCII is told from other text; lengths and
    indices are taken only of text that is ASCII (hashes, dates).  The
    collaborators (git, the completion service, the file system) are
    operations on an abstract world; the dialogue of the prompt is not
    modelled, the scripts start from the answers, whose validators are
    functions of their own. *)

From Stdlib Require Import ZArith Lia List Bool Ascii String DecimalString.
From stdpp Require Import base option list gmap strings.

Local Open Scope string_scope.
Local Open Scope Z_scope.

(** ** ECMA-262 time values *)

Module ES.

(** A time value is a number of milliseconds since the epoch, or NaN. *)
Definition TimeValue := option Z.

Definition msPerDay : Z := 86400000.
Definition msPerHour : Z := 3600000.
Definition msPerMinute : Z := 60000.
Definition msPerSecond : Z := 1000.

Definition Day (t : Z) : Z := t / msPerDay.
Definition TimeWithinDay (t : Z) : Z := t mod msPerDay.

Definition isLeapYear (y : Z) : bool :=
  if negb (y mod 4 =? 0) then false
  else if negb (y mod 100 =? 0) then true
  else if negb (y mod 400 =? 0) then false
  else true.

Definition DaysInYear (y : Z) : Z := if isLeapYear y then 366 else 365.

Definition DayFromYear (y : Z) : Z :=
  365 * (y - 1970) + (y - 1969) / 4 - (y - 1901) / 100 + (y - 1601) / 400.

Definition TimeFromYear (y : Z) : Z := msPerDay * DayFromYear y.

(** The largest [y] with [DayFromYear y <= d]: an estimate from the mean
    length of the Gregorian year, corrected by at most one. *)
Definition YearFromDay (d : Z) : Z :=
  let y := 1970 + (400 * d) / 146097 in
  if DayFromYear y >? d then y - 1
  else if DayFromYear (y + 1) <=? d then y + 1
  else y.

Definition YearFromTime (t : Z) : Z := YearFromDay (Day t).

Definition InLeapYear (t : Z) : bool := isLeapYear (YearFromTime t).

Definition DayWithinYear (t : Z) : Z := Day t - DayFromYear (YearFromTime t).

(** Number of days of the year that precede month [m] (0 = January). *)
Definition daysBeforeMonth (leap : bool) (m : Z) : Z :=
  let l := if leap then 1 else 0 in
  if m <=? 0 then 0
  else if m =? 1 then 31
  else if m =? 2 then 59 + l
  else if m =? 3 then 90 + l
  else if m =? 4 then 120 + l
  else if m =? 5 then 151 + l
  else if m =? 6 then 181 + l
  else if m =? 7 then 212 + l
  else if m =? 8 then 243 + l
  else if m =? 9 then 273 + l
  else if m =? 10 then 304 + l
  else if m =? 11 then 334 + l
  else 365 + l.

Definition monthOfYearDay (leap : bool) (d : Z) : Z :=
  let l := if leap then 1 else 0 in
  if d <? 31 then 0
  else if d <? 59 + l then 1
  else if d <? 90 + l then 2
  else if d <? 120 + l then 3
  else if d <? 151 + l then 4
  else if d <? 181 + l then 5
  else if d <? 212 + l then 6
  else if d <? 243 + l then 7
  else if d <? 273 + l then 8
  else if d <? 304 + l then 9
  else if d <? 334 + l then 10
  else 11.

Definition MonthFromTime (t : Z) : Z :=
  monthOfYearDay (InLeapYear t) (DayWithinYear t).

Definition DateFromTime (t : Z) : Z :=
  DayWithinYear t - daysBeforeMonth (InLeapYear t) (MonthFromTime t) + 1.

Definition HourFromTime (t : Z) : Z := (t / msPerHour) mod 24.
Definition MinFromTime (t : Z) : Z := (t / msPerMinute) mod 60.
Definition SecFromTime (t : Z) : Z := (t / msPerSecond) mod 60.
Definition msFromTime (t : Z) : Z := t mod msPerSecond.

(** [MakeDay(year, month, date)]: the day number of the first of the month
    [year + floor(month / 12)], [month mod 12], plus [date - 1]. *)
Definition MakeDay (year month date : Z) : Z :=
  let ym := year + month / 12 in
  let mn := month mod 12 in
  DayFromYear ym + daysBeforeMonth (isLeapYear ym) mn + date - 1.

Definition MakeDate (day time : Z) : Z := day * msPerDay + time.

Definition TimeClip (t : Z) : TimeValue :=
  if Z.abs t >? 8640000000000000 then None else Some t.

(** Local time.  [LocalTZA t isUTC] is the offset of the host's local time
    from UTC in milliseconds: at the instant [t] when [isUTC], and for the
    local time [t] otherwise; with daylight saving it depends on [t]. *)
Definition LocalTime (LocalTZA : Z -> bool -> Z) (t : Z) : Z := t + LocalTZA t true.
Definition UTC (LocalTZA : Z -> bool -> Z) (t : Z) : Z := t - LocalTZA t false.

(** [Date.prototype.getMonth] and [Date.prototype.setMonth(month)]. *)
Definition getMonth (LocalTZA : Z -> bool -> Z) (d : TimeValue) : option Z :=
  t ← d; Some (MonthFromTime (LocalTime LocalTZA t)).

Definition setMonth (LocalTZA : Z -> bool -> Z) (d : TimeValue) (month : option Z)
    : TimeValue :=
  t0 ← d;
  m ← month;
  let t := LocalTime LocalTZA t0 in
  let newDate := MakeDate (MakeDay (YearFromTime t) m (DateFromTime t)) (TimeWithinDay t) in
  TimeClip (UTC LocalTZA newDate).

(** Relational comparison [a > b] of two Dates: false when either is NaN. *)
Definition gt (a b : TimeValue) : bool :=
  match a, b with
  | Some x, Some y => x >? y
  | _, _ => false
  end.

End ES.

(** ** Strings *)

Definition LF : string := String (ascii_of_nat 10) "".

(** U+00A0 NO-BREAK SPACE, U+3000 IDEOGRAPHIC SPACE and U+FEFF, in UTF-8. *)
Definition NBSP : string := String (ascii_of_nat 194) (String (ascii_of_nat 160) "").
Definition IDSP : string :=
  String (ascii_of_nat 227) (String (ascii_of_nat 128) (String (ascii_of_nat 128) "")).
Definition BOM : string :=
  String (ascii_of_nat 239) (String (ascii_of_nat 187) (String (ascii_of_nat 191) "")).

Definition digitChar (d : Z) : ascii := ascii_of_nat (48 + Z.to_nat d).

(** The [k] low decimal digits of [n], most significant first: the
    fixed-width fields of the Date Time String Format. *)
Fixpoint digits (k : nat) (n : Z) : string :=
  match k with
  | O => ""
  | S k' => digits k' (n / 10) ++ String (digitChar (n mod 10)) ""
  end.

(** [String(n)] for a non-negative integer such as an array length. *)
Definition numberToString (n : nat) : string :=
  NilEmpty.string_of_uint (Nat.to_uint n).

(** The code points that [String.prototype.trim] strips are the
    [WhiteSpace] and [LineTerminator] of ECMA-262, here by their UTF-8
    bytes.  One byte: TAB, LF, VT, FF, CR and SP. *)
Definition isWhiteSpace (c : ascii) : bool :=
  let n := nat_of_ascii c in
  ((9 <=? n)%nat && (n <=? 13)%nat) || (n =? 32)%nat.

(** Two bytes: U+00A0, [C2 A0]. *)
Definition isWhiteSpace2 (a b : ascii) : bool :=
  (nat_of_ascii a =? 194)%nat && (nat_of_ascii b =? 160)%nat.

(** Three bytes: U+1680 [E1 9A 80]; U+2000 to U+200A [E2 80 80..8A];
    U+2028, U+2029 and U+202F [E2 80 A8], [E2 80 A9], [E2 80 AF];
    U+205F [E2 81 9F]; U+3000 [E3 80 80]; U+FEFF [EF BB BF]. *)
Definition isWhiteSpace3 (a b c : ascii) : bool :=
  let x := nat_of_ascii a in
  let y := nat_of_ascii b in
  let z := nat_of_ascii c in
  ((x =? 225) && (y =? 154) && (z =? 128))%nat
  || ((x =? 226) && (y =? 128)
      && (((128 <=? z) && (z <=? 138)) || (z =? 168) || (z =? 169) || (z =? 175)))%nat
  || ((x =? 226) && (y =? 129) && (z =? 159))%nat
  || ((x =? 227) && (y =? 128) && (z =? 128))%nat
  || ((x =? 239) && (y =? 187) && (z =? 191))%nat.

(** The bytes [80] to [BF], which start no code point in UTF-8. *)
Definition isContinuation (c : ascii) : bool :=
  let n := nat_of_ascii c in
  (128 <=? n)%nat && (n <=? 191)%nat.

(** A text that begins a code point, or is empty. *)
Definition freshStart (w : string) : Prop :=
  match w with
  | "" => True
  | String x _ => isContinuation x = false
  end.

(** The text after the white space code point at the front of [s], when
    there is one. *)
Definition skipWhite (s : string) : option string :=
  match s with
  | "" => None
  | String a s1 =>
      if isWhiteSpace a then Some s1
      else match s1 with
           | "" => None
           | String b s2 =>
               if isWhiteSpace2 a b then Some s2
               else match s2 with
                    | "" => None
                    | String c s3 => if isWhiteSpace3 a b c then Some s3 else None
                    end
           end
  end.

Fixpoint trimStart (s : string) : string :=
  match s with
  | "" => ""
  | String a s1 =>
      if isWhiteSpace a then trimStart s1
      else match s1 with
           | "" => s
           | String b s2 =>
               if isWhiteSpace2 a b then trimStart s2
               else match s2 with
                    | "" => s
                    | String c s3 => if isWhiteSpace3 a b c then trimStart s3 else s
                    end
           end
  end.

(** Only white space (or nothing). *)
Definition whiteOnly (s : string) : bool := String.eqb (trimStart s) "".

(** The text up to the white space that ends [s]: from the first position
    after which only white space follows, all is dropped. *)
Fixpoint trimEnd (s : string) : string :=
  match s with
  | "" => ""
  | String c s' => if whiteOnly s then "" else String c (trimEnd s')
  end.

Definition trim (s : string) : string := trimEnd (trimStart s).

(** No white space at the front. *)
Definition startsClean (s : string) : Prop := skipWhite s = None.

(** [s.split(sep)[0]] for a one-character separator: the text before the
    first [sep], all of [s] when there is none. *)
Fixpoint beforeFirst (sep : ascii) (s : string) : string :=
  match s with
  | "" => ""
  | String c s' => if Ascii.eqb c sep then "" else String c (beforeFirst sep s')
  end.

(** [hay.includes(needle)]. *)
Definition includes (needle hay : string) : bool :=
  match String.index 0 needle hay with
  | Some _ => true
  | None => false
  end.

(** ** Exceptions *)

Record JsError := { message : string }.

Inductive Result (A : Type) : Type :=
| Ok (a : A)
| Throw (e : JsError).
Arguments Ok {A} a.
Arguments Throw {A} e.

#[global] Instance JsError_eq_dec : EqDecision JsError.
Proof. solve_decision. Defined.

#[global] Instance Result_eq_dec {A} `{EqDecision A} : EqDecision (Result A).
Proof. solve_decision. Defined.

#[global] Instance Result_ret : MRet Result := fun A a => Ok a.
#[global] Instance Result_bind : MBind Result := fun A B f r =>
  match r with
  | Ok a => f a
  | Throw e => Throw e
  end.

(** ** [Date]: construction from a string, [toISOString] *)

Definition digitValue (c : ascii) : option Z :=
  let n := nat_of_ascii c in
  if (48 <=? n)%nat && (n <=? 57)%nat then Some (Z.of_nat n - 48) else None.

Definition number2 (a b : ascii) : option Z :=
  x ← digitValue a; y ← digitValue b; Some (10 * x + y).

(** The date-only form [YYYY-MM-DD] of the Date Time String Format. *)
Definition parseISODate (s : string) : option (Z * Z * Z) :=
  match s with
  | String y1 (String y2 (String y3 (String y4 (String sep1
      (String m1 (String m2 (String sep2 (String d1 (String d2 ""))))))))) =>
      if Ascii.eqb sep1 "-" && Ascii.eqb sep2 "-" then
        hi ← number2 y1 y2; lo ← number2 y3 y4;
        m ← number2 m1 m2; d ← number2 d1 d2;
        Some (100 * hi + lo, m, d)
      else None
  | _ => None
  end.

(** [new Date(s)].  A date-only string is UTC midnight of that day, NaN
    when a field is out of bounds (month 01-12, day 01-31); any other
    string is left to the host's parser [legacy]. *)
Definition Date_new (legacy : string -> ES.TimeValue) (s : string) : ES.TimeValue :=
  match parseISODate s with
  | Some (y, m, d) =>
      if (1 <=? m) && (m <=? 12) && (1 <=? d) && (d <=? 31)
      then ES.TimeClip (ES.MakeDate (ES.MakeDay y (m - 1) d) 0)
      else None
  | None => legacy s
  end.

Definition isoYear (y : Z) : string :=
  if (0 <=? y) && (y <=? 9999) then digits 4 y
  else (if y <? 0 then "-" else "+") ++ digits 6 (Z.abs y).

(** [Date.prototype.toISOString]: a RangeError on an invalid Date. *)
Definition toISOString (d : ES.TimeValue) : Result string :=
  match d with
  | None => Throw {| message := "Invalid time value" |}
  | Some t =>
      Ok (isoYear (ES.YearFromTime t) ++ "-" ++ digits 2 (ES.MonthFromTime t + 1)
          ++ "-" ++ digits 2 (ES.DateFromTime t)
          ++ "T" ++ digits 2 (ES.HourFromTime t) ++ ":" ++ digits 2 (ES.MinFromTime t)
          ++ ":" ++ digits 2 (ES.SecFromTime t) ++ "." ++ digits 3 (ES.msFromTime t) ++ "Z")
  end.

(** ** Data of the scripts *)

(** The JavaScript values a caller may pass as [prompt] or as a numeric
    option (numbers: the integers). *)
Inductive JsValue :=
| VUndefined
| VNull
| VBoolean (b : bool)
| VNumber (n : Z)
| VString (s : string)
| VObject.

(** [!v]. *)
Definition falsy (v : JsValue) : bool :=
  match v with
  | VUndefined | VNull => true
  | VBoolean b => negb b
  | VNumber n => n =? 0
  | VString s => String.eqb s ""
  | VObject => false
  end.

(** [typeof v === 'string'] and the string it then is. *)
Definition isString (v : JsValue) : bool :=
  match v with
  | VString _ => true
  | _ => false
  end.

Definition stringOf (v : JsValue) : string :=
  match v with
  | VString s => s
  | _ => ""
  end.

(** [process.env]: a variable is unset or holds a string. *)
Record Env := {
  OPENAI_API_KEY : option string;
  OPENAI_MODEL : option string
}.

(** [!process.env.X]: unset, or set to the empty string. *)
Definition absent (v : option string) : bool :=
  match v with
  | None => true
  | Some s => String.eqb s ""
  end.

(** [options] of [generateMessage]; [None] and [VUndefined] are an absent
    property. *)
Record Options := {
  system : option string;
  model : option string;
  temperature : JsValue;
  maxTokens : JsValue
}.

Definition noOptions : Options :=
  {| system := None; model := None; temperature := VUndefined; maxTokens := VUndefined |}.

(** The argument of [client.chat.completions.create]. *)
Record ChatRequest := {
  req_model : string;
  req_messages : list (string * string);
  req_temperature : option JsValue;
  req_max_tokens : option JsValue
}.

(** The part of a completion the code reads, every level optional as in
    [completion?.choices?.[0]?.message?.content]. *)
Record ChatMessage := { content : option string }.
Record Choice := { choice_message : option ChatMessage }.
Record Completion := { choices : option (list Choice) }.

(** A commit as [git.log] reports it with the format of the script;
    [subject] is its [message] property, the subject line [%s], and [date]
    the author date as [%ai] prints it. *)
Record Commit := {
  hash : string;
  date : string;
  subject : string;
  author_name : string;
  author_email : string
}.

Record LogOptions := {
  since : string;
  until : string;
  author : option string
}.

Record LogResult := { all : option (list Commit) }.

(** The answers of the prompt ([authorAnswer] is [answers.author]). *)
Record Answers := {
  gitPath : string;
  startDate : string;
  endDate : string;
  authorAnswer : string
}.

(** What the process does to the outside, in order. *)
Inductive Event :=
| ConsoleLog (line : string)
| ConsoleError (line : string) (err : option JsError)
| GitLog (repo : string) (o : LogOptions)
| GitShow (repo : string) (args : list string)
| ChatCreate (r : ChatRequest)
| FsWrite (path data : string).

(** ** The host: git, the completion service, the file system

    Each collaborator answers from the current state of the world [W] and
    moves it; a call either returns or throws.  [host_LocalTZA] is the
    offset of local time from UTC in milliseconds (see [ES.LocalTime]),
    [host_dateParse] what [new Date] makes of a string that is not in the
    date-only ISO form, and [fs_write_error] the error of a write, [None]
    when it succeeds.  The two constructors that the scripts call outside
    any [try] may throw as well: [OpenAI_error] is the error of
    [new OpenAI({ apiKey })] for the key it is given (the SDK refuses a
    missing key), [simpleGit_error] that of [simpleGit(path)] (the library
    refuses a directory that does not exist); [None] when they return. *)
Class Host (W : Type) := {
  host_env : Env;
  host_LocalTZA : Z -> bool -> Z;
  host_dateParse : string -> ES.TimeValue;
  OpenAI_error : option string -> option JsError;
  simpleGit_error : string -> W -> option JsError;
  path_join : string -> string -> string;
  git_log : string -> LogOptions -> W -> Result LogResult * W;
  git_show : string -> list string -> W -> Result string * W;
  chat_completions_create : ChatRequest -> W -> Result (option Completion) * W;
  fs_write_error : string -> string -> W -> option JsError * W
}.

(** State of a run: the world, the trace, and in [files] the content that
    the writes which returned have put at their paths. *)
Record St (W : Type) := {
  world : W;
  files : gmap string string;
  trace : list Event
}.
Arguments world {W} s.
Arguments files {W} s.
Arguments trace {W} s.

(** Computations that read and move the state and may throw; what was done
    before a throw stays done. *)
Definition M (W : Type) (A : Type) : Type := St W -> Result A * St W.

#[global] Instance M_ret {W} : MRet (M W) := fun A a s => (Ok a, s).
#[global] Instance M_bind {W} : MBind (M W) := fun A B f c s =>
  match c s with
  | (Ok a, s') => f a s'
  | (Throw e, s') => (Throw e, s')
  end.

Definition throw {W A} (e : JsError) : M W A := fun s => (Throw e, s).

(** [try { body } catch (e) { handler e }]. *)
Definition try_catch {W A} (body : M W A) (handler : JsError -> M W A) : M W A :=
  fun s =>
    match body s with
    | (Ok a, s') => (Ok a, s')
    | (Throw e, s') => handler e s'
    end.

Definition emit {W} (ev : Event) : M W unit := fun s =>
  (Ok tt, {| world := world s; files := files s; trace := (trace s ++ [ev])%list |}).

(** The state after the world moved to [w] and the events [evs] were added
    to the trace. *)
Definition advance {W} (st : St W) (w : W) (evs : list Event) : St W :=
  {| world := w; files := files st; trace := (trace st ++ evs)%list |}.

(** The state after the events [evs] were added to the trace. *)
Definition printed {W} (st : St W) (evs : list Event) : St W :=
  advance st (world st) evs.

Definition console_log {W} (line : string) : M W unit := emit (ConsoleLog line).
Definition console_error {W} (line : string) (err : option JsError) : M W unit :=
  emit (ConsoleError line err).

(** A call to a collaborator: recorded, then answered by the host. *)
Definition call {W A} (ev : Event) (op : W -> Result A * W) : M W A := fun s =>
  let '(r, w) := op (world s) in
  (r, {| world := w; files := files s; trace := (trace s ++ [ev])%list |}).

(** [fs.writeFileSync(path, data, 'utf8')]: when it returns, the file holds
    [data], whatever it held.  When it throws, nothing is recorded in
    [files]: what the path then holds on disk (the file is truncated when
    it is opened) is not followed. *)
Definition writeFileSync {W} `{Host W} (path data : string) : M W unit := fun s =>
  let '(r, w) := fs_write_error path data (world s) in
  let tr := (trace s ++ [FsWrite path data])%list in
  match r with
  | None => (Ok tt, {| world := w; files := <[path := data]> (files s); trace := tr |})
  | Some e => (Throw e, {| world := w; files := files s; trace := tr |})
  end.

(** ** gpt.js *)

Section Gpt.
Context {W : Type} `{Host W}.

(** [const client = new OpenAI({ apiKey: process.env.OPENAI_API_KEY })],
    which runs when the module is loaded, before any script calls
    [generateMessage]. *)
Definition newOpenAI : M W unit :=
  match OpenAI_error (OPENAI_API_KEY host_env) with
  | Some e => throw e
  | None => mret tt
  end.

(** [process.env.OPENAI_MODEL || 'gpt-4.1-mini']. *)
Definition DEFAULT_MODEL : string :=
  if absent (OPENAI_MODEL host_env) then "gpt-4.1-mini"
  else default "" (OPENAI_MODEL host_env).

Definition defaultSystem : string :=
  "당신은 간결하고 유용한 한국어 어시스턴트입니다. 불필요한 수식을 피하고 핵심만 답하세요.".

Definition defined (v : JsValue) : option JsValue :=
  match v with
  | VUndefined => None
  | _ => Some v
  end.

(** [completion?.choices?.[0]?.message?.content?.trim()]. *)
Definition completionText (completion : option Completion) : option string :=
  c ← completion;
  cs ← choices c;
  c0 ← head cs;
  m ← choice_message c0;
  t ← content m;
  Some (trim t).

(** The request sent for [prompt] under [options]. *)
Definition chatRequest (prompt : JsValue) (options : Options) : ChatRequest :=
  {| req_model := default DEFAULT_MODEL (model options);
     req_messages :=
       [("system", default defaultSystem (system options));
        ("user", stringOf prompt)];
     req_temperature := defined (temperature options);
     req_max_tokens := defined (maxTokens options) |}.

Definition generateMessage (prompt : JsValue) (options : Options) : M W string :=
  if falsy prompt || negb (isString prompt)
  then throw {| message := "prompt는 문자열이어야 합니다." |}
  else if absent (OPENAI_API_KEY host_env)
  then throw {| message := "환경변수 OPENAI_API_KEY가 설정되어 있지 않습니다." |}
  else
    let request := chatRequest prompt options in
    completion ← call (ChatCreate request) (chat_completions_create request);
    match completionText completion with
    | None => throw {| message := "모델이 유효한 응답을 반환하지 않았습니다." |}
    | Some text =>
        if String.eqb text ""
        then throw {| message := "모델이 유효한 응답을 반환하지 않았습니다." |}
        else mret text
    end.

End Gpt.

(** ** The batch report script *)

(** [commitsByDate]: an object keyed by date strings, its own keys kept in
    the order in which they were created, which is the order of
    [Object.entries] for keys that are not array indices (a date key always
    holds a [-], and is no property of [Object.prototype] either). *)
Abbreviation Buckets := (list (string * list Commit)).

Fixpoint obj_get (o : Buckets) (key : string) : option (list Commit) :=
  match o with
  | [] => None
  | (k, v) :: o' => if String.eqb k key then Some v else obj_get o' key
  end.

(** [o[key].push(commit)]. *)
Fixpoint obj_push (o : Buckets) (key : string) (commit : Commit) : Buckets :=
  match o with
  | [] => []
  | (k, v) :: o' =>
      if String.eqb k key then (k, (v ++ [commit])%list) :: o'
      else (k, v) :: obj_push o' key commit
  end.

Inductive RangeVerdict := InvalidRange | RangeTooLarge | RangeOk.

Section Batch.
Context {W : Type} `{Host W}.

Definition liftR {A} (r : Result A) : M W A := fun s => (r, s).

(** The two checks of the date window at the head of [main], under a name
    of their own. *)
Definition checkRange (startDate endDate : ES.TimeValue) : RangeVerdict :=
  if ES.gt startDate endDate then InvalidRange
  else
    let twoMonthsLater := startDate in
    let twoMonthsLater :=
      ES.setMonth host_LocalTZA twoMonthsLater
        ((fun m => m + 2) <$> ES.getMonth host_LocalTZA twoMonthsLater) in
    if ES.gt endDate twoMonthsLater then RangeTooLarge else RangeOk.

(** [new Date(commit.date).toISOString().split('T')[0]]. *)
Definition commitDateOf (commit : Commit) : Result string :=
  iso ← toISOString (Date_new host_dateParse (date commit));
  mret (beforeFirst "T" iso).

Fixpoint groupLoop (commits : list Commit) (commitsByDate : Buckets) : Result Buckets :=
  match commits with
  | [] => mret commitsByDate
  | commit :: rest =>
      commitDate ← commitDateOf commit;
      let commitsByDate :=
        match obj_get commitsByDate commitDate with
        | None => (commitsByDate ++ [(commitDate, [])])%list
        | Some _ => commitsByDate
        end in
      groupLoop rest (obj_push commitsByDate commitDate commit)
  end.

Definition groupByDate (commits : list Commit) : Result Buckets := groupLoop commits [].

Definition showArgs (commit : Commit) : list string :=
  ["--quiet"; "--pretty=format:%B"; "--patch"; "--stat"; hash commit].

Definition summaryPrompt (showResult : string) : string :=
  "아래 커밋 메시지와 변경사항을 분석해서 무엇을 했는지 간결하게 설명해줘:" ++ LF ++ LF
  ++ showResult.

(** The two awaited calls of the [try] block. *)
Definition summarize (repo : string) (commit : Commit) : M W string :=
  showResult ← call (GitShow repo (showArgs commit)) (git_show repo (showArgs commit));
  generateMessage (VString (summaryPrompt showResult)) noOptions.

Definition okEntry (i : nat) (commit : Commit) (aiSummary : string) : string :=
  "## 커밋 " ++ numberToString (i + 1) ++ ": " ++ substring 0 7 (hash commit) ++ LF
  ++ "**메시지**: " ++ subject commit ++ LF ++ LF
  ++ "### AI 요약" ++ LF ++ aiSummary ++ LF ++ LF
  ++ "---" ++ LF ++ LF.

Definition errorEntry (i : nat) (commit : Commit) (commitErr : JsError) : string :=
  "## 커밋 " ++ numberToString (i + 1) ++ ": " ++ substring 0 7 (hash commit)
  ++ " (오류 발생)" ++ LF
  ++ "**오류**: " ++ message commitErr ++ LF ++ LF.

(** [for (let i = 0; i < dateCommits.length; i++)], from index [i] on. *)
Fixpoint commitLoop (repo : string) (i : nat) (dateCommits : list Commit)
    (dailyReport : string) : M W string :=
  match dateCommits with
  | [] => mret dailyReport
  | commit :: rest =>
      console_log ("  처리 중: " ++ substring 0 7 (hash commit) ++ " - " ++ subject commit);;
      dailyReport ←
        try_catch
          (aiSummary ← summarize repo commit;
           mret (dailyReport ++ okEntry i commit aiSummary))
          (fun commitErr =>
             console_error ("커밋 " ++ hash commit ++ " 처리 중 오류:") (Some commitErr);;
             mret (dailyReport ++ errorEntry i commit commitErr));
      commitLoop repo (S i) rest dailyReport
  end.

Definition reportHeader (date : string) (n : nat) : string :=
  "# " ++ date ++ " 커밋 리포트" ++ LF ++ LF
  ++ "총 " ++ numberToString n ++ "개의 커밋" ++ LF ++ LF.

Definition reportFileName (date : string) : string := "commit-report-" ++ date ++ ".md".

(** The body of the loop over [Object.entries(commitsByDate)]. *)
Definition processDate (repo : string) (entry : string * list Commit) : M W unit :=
  let '(date, dateCommits) := entry in
  console_log (LF ++ "==== " ++ date ++ " 커밋 처리 중 ("
               ++ numberToString (length dateCommits) ++ "개) ====");;
  dailyReport ← commitLoop repo 0 dateCommits (reportHeader date (length dateCommits));
  let fileName := reportFileName date in
  let outPath := path_join repo fileName in
  try_catch
    (writeFileSync outPath dailyReport;;
     console_log ("[저장 완료] " ++ date ++ " 리포트: " ++ outPath))
    (fun fileErr => console_error (date ++ " 리포트 저장 중 오류:") (Some fileErr)).

Fixpoint forEachDate (repo : string) (entries : Buckets) : M W unit :=
  match entries with
  | [] => mret tt
  | entry :: rest => processDate repo entry;; forEachDate repo rest
  end.

Definition logOptions (answers : Answers) : LogOptions :=
  {| since := startDate answers;
     until := endDate answers;
     author := if String.eqb (authorAnswer answers) "" then None
               else Some (authorAnswer answers) |}.

Definition echoAnswers (answers : Answers) : M W unit :=
  console_log (LF ++ "==== 입력한 정보 ====");;
  console_log ("경로: " ++ gitPath answers);;
  console_log ("시작 날짜: " ++ startDate answers);;
  console_log ("종료 날짜: " ++ endDate answers);;
  if String.eqb (authorAnswer answers) "" then mret tt
  else console_log ("작성자: " ++ authorAnswer answers).

(** [const git = simpleGit(path)], which both scripts run between the
    prompt and their [try] statement. *)
Definition simpleGit (path : string) : M W unit := fun s =>
  match simpleGit_error path (world s) with
  | Some e => (Throw e, s)
  | None => (Ok tt, s)
  end.

(** The [try] statement of [main], which is all that [main] does once the
    answers are in and [simpleGit] has returned the git object. *)
Definition main (answers : Answers) : M W unit :=
  try_catch
    (echoAnswers answers;;
     let startDate := Date_new host_dateParse (startDate answers) in
     let endDate := Date_new host_dateParse (endDate answers) in
     match checkRange startDate endDate with
     | InvalidRange => console_error "시작 날짜가 종료 날짜보다 늦습니다." None
     | RangeTooLarge =>
         console_error
           "조회 기간은 최대 두 달을 넘을 수 없습니다. 토큰 사용량이 너무 많아질 수 있습니다."
           None
     | RangeOk =>
         console_log (LF ++ "==== 기간 내 커밋 조회 중... ====");;
         commits ← call (GitLog (gitPath answers) (logOptions answers))
                        (git_log (gitPath answers) (logOptions answers));
         match all commits with
         | None | Some [] => console_log "지정된 기간에 커밋이 없습니다."
         | Some found =>
             console_log ("총 " ++ numberToString (length found) ++ "개의 커밋을 찾았습니다.");;
             commitsByDate ← liftR (groupByDate found);
             forEachDate (gitPath answers) commitsByDate;;
             console_log (LF ++ "==== 모든 처리 완료 ====");;
             console_log "각 날짜별로 마크다운 파일이 생성되었습니다."
         end
     end)
    (fun err => console_error "Git 로그를 불러오는 중 오류가 발생했습니다:" (Some err)).

(** The script from its first line: loading [gpt.js] makes the client;
    [main()] then asks for the answers, makes the git object and enters its
    [try] statement.  Neither constructor is inside a [try]. *)
Definition batchScript (answers : Answers) : M W unit :=
  newOpenAI;;
  simpleGit (gitPath answers);;
  main answers.

End Batch.

(** ** Calendar dates, as the specification speaks of them *)

Record CalDate := { year : Z; month : Z; day : Z }.

Definition daysInMonth (y m : Z) : Z :=
  if m =? 2 then (if ES.isLeapYear y then 29 else 28)
  else if (m =? 4) || (m =? 6) || (m =? 9) || (m =? 11) then 30
  else 31.

(** A date of the Gregorian calendar. *)
Definition calendarDate (c : CalDate) : Prop :=
  1 <= month c <= 12 /\ 1 <= day c <= daysInMonth (year c) (month c).

(** A calendar date with a four-digit year, which is what the prompt's
    [YYYY-MM-DD] pattern lets through. *)
Definition validDate (c : CalDate) : Prop :=
  0 <= year c <= 9999 /\ calendarDate c.

(** The day number of the date, counted from 1 January 1970. *)
Definition dayNumber (c : CalDate) : Z := ES.MakeDay (year c) (month c - 1) (day c).

(** The [YYYY-MM-DD] text of a date. *)
Definition isoDate (c : CalDate) : string :=
  digits 4 (year c) ++ "-" ++ digits 2 (month c) ++ "-" ++ digits 2 (day c).

(** Calendar order. *)
Definition cal_lt (a b : CalDate) : Prop :=
  year a < year b \/
  (year a = year b /\ (month a < month b \/ (month a = month b /\ day a < day b))).

(** UTC midnight that starts the date, in milliseconds since the epoch. *)
Definition midnightUTC (c : CalDate) : Z := ES.MakeDate (dayNumber c) 0.

(** Month [k] months after the month of [c], as (year, month). *)
Definition monthAfter (c : CalDate) (k : Z) : Z * Z :=
  let m0 := month c - 1 + k in
  (year c + m0 / 12, m0 mod 12 + 1).

(** [c] plus [k] months, a day that the target month does not have running
    over into the month that follows (31 December plus two months is
    3 March, or 2 March in a leap year). *)
Definition plusMonthsRollover (c : CalDate) (k : Z) : CalDate :=
  let '(y, m) := monthAfter c k in
  let n := daysInMonth y m in
  if day c <=? n then {| year := y; month := m; day := day c |}
  else if m =? 12 then {| year := y + 1; month := 1; day := day c - n |}
  else {| year := y; month := m + 1; day := day c - n |}.


(** ** The report as a function of a bucket and its summary results *)

(** A summary result: the text, or the error that was caught. *)
Abbreviation SummaryResult := (Result string).

Definition entryOf (i : nat) (commit : Commit) (r : SummaryResult) : string :=
  match r with
  | Ok text => okEntry i commit text
  | Throw e => errorEntry i commit e
  end.

(** The entries of the commits numbered from [i + 1], paired by position. *)
Fixpoint entriesFrom (i : nat) (commits : list Commit) (results : list SummaryResult)
    : list string :=
  match commits, results with
  | commit :: commits', r :: results' => entryOf i commit r :: entriesFrom (S i) commits' results'
  | _, _ => []
  end.

(** The strings of a list, one after the other. *)
Fixpoint joinAll (l : list string) : string :=
  match l with
  | [] => ""
  | x :: l' => x ++ joinAll l'
  end.

Definition assemble (date : string) (commits : list Commit) (results : list SummaryResult)
    : string :=
  reportHeader date (length commits) ++ joinAll (entriesFrom 0 commits results).

Definition isThrow {A} (r : Result A) : bool :=
  match r with
  | Ok _ => false
  | Throw _ => true
  end.

(** The files the run tried to write, oldest first. *)
Fixpoint writesOf (tr : list Event) : list (string * string) :=
  match tr with
  | [] => []
  | FsWrite path data :: tr' => (path, data) :: writesOf tr'
  | _ :: tr' => writesOf tr'
  end.

(** What the run printed on the error stream, oldest first. *)
Fixpoint consoleErrors (tr : list Event) : list (string * option JsError) :=
  match tr with
  | [] => []
  | ConsoleError line err :: tr' => (line, err) :: consoleErrors tr'
  | _ :: tr' => consoleErrors tr'
  end.

(** The requests the run sent to the completion service, oldest first. *)
Fixpoint chatCalls (tr : list Event) : list ChatRequest :=
  match tr with
  | [] => []
  | ChatCreate r :: tr' => r :: chatCalls tr'
  | _ :: tr' => chatCalls tr'
  end.

(** The errors caught while summarising [commits], as [console.error] gets
    them. *)
Fixpoint commitErrors (commits : list Commit) (results : list SummaryResult)
    : list (string * option JsError) :=
  match commits, results with
  | commit :: commits', r :: results' =>
      match r with
      | Ok _ => commitErrors commits' results'
      | Throw e =>
          ("커밋 " ++ hash commit ++ " 처리 중 오류:", Some e) :: commitErrors commits' results'
      end
  | _, _ => []
  end.

(** The keys of a list in the order in which each first occurs. *)
Fixpoint firstOccurrences (l : list string) : list string :=
  match l with
  | [] => []
  | k :: l' => k :: filter (fun k' => k' <> k) (firstOccurrences l')
  end.

(** Number of commits held by the buckets. *)
Definition totalCommits (o : Buckets) : nat := length (concat (o.*2)).

(** ** What the collaborators answer during a run *)

Section Outcomes.
Context {W : Type} `{Host W}.

(** The commits of [commits] whose date key is [key], in their order. *)
Definition commitsOn (key : string) (commits : list Commit) : list Commit :=
  filter (fun commit => commitDateOf commit = Ok key) commits.

Definition startOf (w : W) : St W := {| world := w; files := ∅; trace := [] |}.

(** The result of summarising one commit in world [w], and the world after. *)
Definition outcome (repo : string) (commit : Commit) (w : W) : SummaryResult * W :=
  let '(r, s) := summarize repo commit (startOf w) in (r, world s).

Fixpoint outcomes (repo : string) (commits : list Commit) (w : W)
    : list SummaryResult * W :=
  match commits with
  | [] => ([], w)
  | commit :: rest =>
      let '(r, w1) := outcome repo commit w in
      let '(rs, w2) := outcomes repo rest w1 in
      (r :: rs, w2)
  end.

(** One day of a run: the bucket, the results of its commits and the error
    of the write, when it failed. *)
Record DayOutcome := {
  day_date : string;
  day_commits : list Commit;
  day_results : list SummaryResult;
  day_writeError : option JsError
}.

Definition day_path (repo : string) (d : DayOutcome) : string :=
  path_join repo (reportFileName (day_date d)).

Definition day_entries (d : DayOutcome) : list string :=
  entriesFrom 0 (day_commits d) (day_results d).

Definition day_report (d : DayOutcome) : string :=
  assemble (day_date d) (day_commits d) (day_results d).

Fixpoint batchOutcomes (repo : string) (entries : Buckets) (w : W)
    : list DayOutcome * W :=
  match entries with
  | [] => ([], w)
  | (date, commits) :: rest =>
      let '(rs, w1) := outcomes repo commits w in
      let '(err, w2) :=
        fs_write_error (path_join repo (reportFileName date)) (assemble date commits rs) w1 in
      let '(ds, w3) := batchOutcomes repo rest w2 in
      ({| day_date := date; day_commits := commits; day_results := rs;
          day_writeError := err |} :: ds, w3)
  end.

(** What a day prints on the error stream: the commits that failed, then
    the write when it failed. *)
Definition dayErrors (d : DayOutcome) : list (string * option JsError) :=
  (commitErrors (day_commits d) (day_results d)
   ++ match day_writeError d with
      | None => []
      | Some e => [((day_date d ++ " 리포트 저장 중 오류:")%string, Some e)]
      end)%list.

(** The files after the writes of the days, in order: a write that
    succeeds replaces whatever the path held. *)
Definition filesAfter (repo : string) (days : list DayOutcome) (fs : gmap string string)
    : gmap string string :=
  foldl (fun fs d =>
           match day_writeError d with
           | None => <[day_path repo d := day_report d]> fs
           | Some _ => fs
           end) fs days.

End Outcomes.

(** ** A sample host, for running the scripts on concrete input *)

Module Sample.

Fixpoint parseDecimal (s : string) (acc : Z) : option Z :=
  match s with
  | "" => Some acc
  | String c s' => d ← digitValue c; parseDecimal s' (10 * acc + d)
  end.

Fixpoint dropString (n : nat) (s : string) : string :=
  match n, s with
  | S n', String _ s' => dropString n' s'
  | _, _ => s
  end.

(** Reads git's [%ai] form, [Y-MM-DD HH:MM:SS +HHMM] with a year of any
    number of digits, the way lenient parsers do. *)
Definition dateParse (s : string) : ES.TimeValue :=
  let ys := beforeFirst "-" s in
  y ← parseDecimal ys 0;
  match dropString (S (String.length ys)) s with
  | String m1 (String m2 (String _ (String d1 (String d2 (String _
      (String h1 (String h2 (String _ (String n1 (String n2 (String _
        (String s1 (String s2 (String _ (String sign
          (String z1 (String z2 (String z3 (String z4 ""))))))))))))))))))) =>
      m ← number2 m1 m2; d ← number2 d1 d2;
      h ← number2 h1 h2; n ← number2 n1 n2; sec ← number2 s1 s2;
      zh ← number2 z1 z2; zm ← number2 z3 z4;
      let offset := (zh * 60 + zm) * ES.msPerMinute in
      let offset := if Ascii.eqb sign "-" then - offset else offset in
      ES.TimeClip
        (ES.MakeDate (ES.MakeDay y (m - 1) d)
           (h * ES.msPerHour + n * ES.msPerMinute + sec * ES.msPerSecond) - offset)
  | _ => None
  end.

Definition commit1 : Commit :=
  {| hash := "1a2b3c4d5e6f708192a3b4c5d6e7f8091a2b3c4d";
     date := "2024-01-02 08:30:00 +0900";
     subject := "Add login form";
     author_name := "Kim"; author_email := "kim@example.com" |}.

Definition commit2 : Commit :=
  {| hash := "badc0ffee0ddf00dbadc0ffee0ddf00dbadc0ffe";
     date := "2024-01-01 23:10:00 +0900";
     subject := "Fix typo";
     author_name := "Kim"; author_email := "kim@example.com" |}.

Definition commit3 : Commit :=
  {| hash := "0f1e2d3c4b5a69788796a5b4c3d2e1f00f1e2d3c";
     date := "2024-01-01 05:00:00 +0900";
     subject := "Initial commit";
     author_name := "Lee"; author_email := "lee@example.com" |}.

Definition commit4 : Commit :=
  {| hash := "c0de";
     date := "2024-01-01 12:00:00 +0900";
     subject := "Rebased work";
     author_name := "Lee"; author_email := "lee@example.com" |}.

Definition commit5 : Commit :=
  {| hash := "5ca1ab1e5ca1ab1e5ca1ab1e5ca1ab1e5ca1ab1e";
     date := "2024-01-05 10:00:00 +0900";
     subject := "Tune prompt";
     author_name := "Kim"; author_email := "kim@example.com" |}.

Definition commits : list Commit := [commit1; commit2; commit3; commit4; commit5].

(** The client constructor of the SDK: it refuses a key that is missing. *)
Definition clientError (apiKey : option string) : option JsError :=
  match apiKey with
  | None => Some {| message := "The OPENAI_API_KEY environment variable is missing or empty" |}
  | Some _ => None
  end.

(** A time zone with daylight saving: [std] milliseconds from UTC, one hour
    more from the instant [from] up to the instant [till].  A local time is
    read with the offset in force before the transition where the clocks
    skip it or show it twice. *)
Definition seasonal (std from till : Z) (t : Z) (isUTC : bool) : Z :=
  let u := if isUTC then t else t - std - ES.msPerHour in
  if (from <=? u) && (u <? till) then std + ES.msPerHour else std.

Definition newYork : Z -> bool -> Z := seasonal (-18000000) 1710054000000 1730613600000.

(** The world is the number of collaborator calls made so far.  [git show]
    fails on hashes that start with [bad]; the service answers every prompt
    with padded text; the write of the report of 2023-12-31 fails. *)
#[export] Instance hostAt (zone : Z -> bool -> Z) (found : list Commit) : Host nat := {|
  host_env := {| OPENAI_API_KEY := Some "sk-test"; OPENAI_MODEL := None |};
  host_LocalTZA := zone;
  host_dateParse := dateParse;
  OpenAI_error := clientError;
  simpleGit_error := fun _ _ => None;
  path_join := fun dir file => dir ++ "/" ++ file;
  git_log := fun _ _ w => (Ok {| all := Some found |}, S w);
  git_show := fun _ args w =>
    match last args with
    | Some h =>
        if String.prefix "bad" h
        then (Throw {| message := "fatal: bad object " ++ h |}, S w)
        else (Ok ("diff of " ++ h), S w)
    | None => (Throw {| message := "usage" |}, S w)
    end;
  chat_completions_create := fun r w =>
    (Ok (Some {| choices := Some [ {| choice_message :=
        Some {| content := Some ("  summary #" ++ numberToString w ++ LF) |} |} ] |}), S w);
  fs_write_error := fun path _ w =>
    if includes "2023-12-31" path
    then (Some {| message := "EACCES: permission denied" |}, S w)
    else (None, S w)
|}.

(** The sample host at the constant offset [tza] from UTC. *)
#[export] Instance host (tza : Z) (found : list Commit) : Host nat :=
  hostAt (fun _ _ => tza) found.

Definition answers : Answers :=
  {| gitPath := "/repo"; startDate := "2023-12-25"; endDate := "2024-01-05";
     authorAnswer := "" |}.

Definition start : St nat := {| world := 0%nat; files := ∅; trace := [] |}.

End Sample.

(** ** The answers' validators of the prompts *)

(** What a [validate] callback returns: [true], or the message to show. *)
Inductive Validation :=
| Valid
| Invalid (hint : string).

(** [[0-9a-f]] under the [i] flag. *)
Definition isHexDigit (c : ascii) : bool :=
  let n := nat_of_ascii c in
  ((48 <=? n)%nat && (n <=? 57)%nat)
  || ((97 <=? n)%nat && (n <=? 102)%nat)
  || ((65 <=? n)%nat && (n <=? 70)%nat).

(** [\d]. *)
Definition isDigit (c : ascii) : bool :=
  let n := nat_of_ascii c in
  (48 <=? n)%nat && (n <=? 57)%nat.

Fixpoint allChars (p : ascii -> bool) (s : string) : bool :=
  match s with
  | "" => true
  | String c s' => p c && allChars p s'
  end.

(** [/^[0-9a-f]{7,40}$/i.test(s)]. *)
Definition hashPattern (s : string) : bool :=
  (7 <=? String.length s)%nat && (String.length s <=? 40)%nat && allChars isHexDigit s.

(** [/^\d{4}-\d{2}-\d{2}$/.test(s)]. *)
Definition datePattern (s : string) : bool :=
  match s with
  | String y1 (String y2 (String y3 (String y4 (String sep1
      (String m1 (String m2 (String sep2 (String d1 (String d2 ""))))))))) =>
      isDigit y1 && isDigit y2 && isDigit y3 && isDigit y4 && Ascii.eqb sep1 "-"
      && isDigit m1 && isDigit m2 && Ascii.eqb sep2 "-" && isDigit d1 && isDigit d2
  | _ => false
  end.

(** [validate] of the [commitHash] question. *)
Definition validateCommitHash (input : string) : Validation :=
  if negb (hashPattern (trim input)) then Invalid "유효한 커밋 해시를 입력하세요."
  else Valid.

(** [validate] of the [startDate] and [endDate] questions, which differ in
    the example of their hint. *)
Definition validateDate (legacy : string -> ES.TimeValue) (example : string)
    (input : string) : Validation :=
  if negb (datePattern (trim input))
  then Invalid ("YYYY-MM-DD 형식으로 입력하세요 (예: " ++ example ++ ").")
  else
    match Date_new legacy (trim input) with
    | None => Invalid "유효한 날짜를 입력하세요."
    | Some _ => Valid
    end.

(** Only white space. *)
Definition blank (s : string) : Prop := allChars isWhiteSpace s = true.

(** The day before a calendar date. *)
Definition previousDay (c : CalDate) : CalDate :=
  if 1 <? day c then {| year := year c; month := month c; day := day c - 1 |}
  else if month c =? 1 then {| year := year c - 1; month := 12; day := 31 |}
  else {| year := year c; month := month c - 1;
          day := daysInMonth (year c) (month c - 1) |}.

(** ** The single-commit script *)

Record ShowAnswers := {
  show_gitPath : string;
  commitHash : string
}.

Section ShowScript.
Context {W : Type} `{Host W}.

Definition showOneArgs (answers : ShowAnswers) : list string :=
  ["--quiet"; "--pretty=fuller"; "--patch"; "--stat"; commitHash answers].

Definition explainPrompt (showResult : string) : string :=
  "아래 커밋 메시지와 변경사항을 분석해서 무엇을 했는지 설명해줘:" ++ LF ++ LF ++ showResult.

Definition showFileName (answers : ShowAnswers) : string :=
  let sanitizedHash := trim (commitHash answers) in
  "commit-show-" ++ sanitizedHash ++ ".txt".

(** The [try] statement of [main] of the script that shows and explains one
    commit: all that this [main] does once the answers are in and
    [simpleGit] has returned the git object. *)
Definition showMain (answers : ShowAnswers) : M W unit :=
  try_catch
    (console_log (LF ++ "==== 입력한 정보 ====");;
     console_log ("경로: " ++ show_gitPath answers);;
     console_log ("커밋 해시: " ++ commitHash answers);;
     console_log (LF ++ "==== 커밋 상세 ====");;
     showResult ← call (GitShow (show_gitPath answers) (showOneArgs answers))
                       (git_show (show_gitPath answers) (showOneArgs answers));
     console_log showResult;;
     result ← generateMessage (VString (explainPrompt showResult)) noOptions;
     console_log result;;
     let fileName := showFileName answers in
     let outPath := path_join (show_gitPath answers) fileName in
     try_catch
       (writeFileSync outPath (showResult ++ LF ++ LF ++ result);;
        console_log (LF ++ "[저장 완료] git show 결과가 파일로 저장되었습니다: " ++ outPath))
       (fun fileErr =>
          console_error "git show 결과 파일 저장 중 오류가 발생했습니다:" (Some fileErr)))
    (fun err => console_error "Git 로그를 불러오는 중 오류가 발생했습니다:" (Some err)).


End ShowScript.

(** ** Hosts that fail, for running the scripts on concrete input *)

Module Faulty.

(** A host on which [git log] throws. *)
#[export] Instance noRepository : Host nat := {|
  host_env := {| OPENAI_API_KEY := Some "sk-test"; OPENAI_MODEL := None |};
  host_LocalTZA := fun _ _ => 0;
  host_dateParse := Sample.dateParse;
  OpenAI_error := Sample.clientError;
  simpleGit_error := fun _ _ => None;
  path_join := fun dir file => dir ++ "/" ++ file;
  git_log := fun _ _ w => (Throw {| message := "fatal: not a git repository" |}, S w);
  git_show := fun _ _ w => (Throw {| message := "fatal: not a git repository" |}, S w);
  chat_completions_create := fun _ w => (Ok None, S w);
  fs_write_error := fun _ _ w => (None, S w)
|}.

(** The sample host with the API key as [key], on which every write
    succeeds and the directory [/gone] does not exist. *)
#[export] Instance withKey (key : option string) (found : list Commit) : Host nat := {|
  host_env := {| OPENAI_API_KEY := key; OPENAI_MODEL := None |};
  host_LocalTZA := fun _ _ => 0;
  host_dateParse := Sample.dateParse;
  OpenAI_error := Sample.clientError;
  simpleGit_error := fun path _ =>
    if String.eqb path "/gone"
    then Some {| message := "Cannot use simple-git on a directory that does not exist" |}
    else None;
  path_join := fun dir file => dir ++ "/" ++ file;
  git_log := fun _ _ w => (Ok {| all := Some found |}, S w);
  git_show := fun _ args w => (Ok ("diff of " ++ default "" (last args)), S w);
  chat_completions_create := fun _ w => (Ok None, S w);
  fs_write_error := fun _ _ w => (None, S w)
|}.

#[export] Instance emptyKey (found : list Commit) : Host nat := withKey (Some "") found.

(** A host whose completion service answers every prompt with [answer]. *)
#[export] Instance answering (answer : string) : Host nat := {|
  host_env := {| OPENAI_API_KEY := Some "sk-test"; OPENAI_MODEL := None |};
  host_LocalTZA := fun _ _ => 0;
  host_dateParse := Sample.dateParse;
  OpenAI_error := Sample.clientError;
  simpleGit_error := fun _ _ => None;
  path_join := fun dir file => dir ++ "/" ++ file;
  git_log := fun _ _ w => (Ok {| all := Some [] |}, S w);
  git_show := fun _ args w => (Ok ("diff of " ++ default "" (last args)), S w);
  chat_completions_create := fun _ w =>
    (Ok (Some {| choices := Some [ {| choice_message :=
        Some {| content := Some answer |} |} ] |}), S w);
  fs_write_error := fun _ _ w => (None, S w)
|}.

(** Two commits whose author dates lie in the year 10000, as git prints
    them with [%ai]. *)
Definition later1 : Commit :=
  {| hash := "c0ffee0c0ffee0c0ffee0c0ffee0c0ffee0c0ffe";
     date := "10000-01-01 00:00:00 +0000"; subject := "Later";
     author_name := "Kim"; author_email := "kim@example.com" |}.

Definition later2 : Commit :=
  {| hash := "decade0decade0decade0decade0decade0decad";
     date := "10000-01-31 09:00:00 +0000"; subject := "Later still";
     author_name := "Kim"; author_email := "kim@example.com" |}.

(** A commit dated after the last instant a [Date] can hold
    (13 September 275760). *)
Definition tooLate : Commit :=
  {| hash := "7001a7e7001a7e7001a7e7001a7e7001a7e7001a";
     date := "300000-01-01 00:00:00 +0000"; subject := "From the future";
     author_name := "Lee"; author_email := "lee@example.com" |}.

Definition undated : Commit :=
  {| hash := "feedface"; date := "yesterday"; subject := "Imported";
     author_name := "Lee"; author_email := "lee@example.com" |}.

End Faulty.

(** * Properties *)

(** ** Day numbers and years *)

Section TimeFacts.
Import ES.

Lemma DayFromYear_succ y : DayFromYear (y + 1) = DayFromYear y + DaysInYear y.
Proof.
  unfold DayFromYear, DaysInYear, isLeapYear.
  repeat match goal with
         | |- context [ (?a =? ?b) ] => destruct (Z.eqb_spec a b)
         end; simpl negb; cbv iota; Z.div_mod_to_equations; lia.
Qed.

Lemma DaysInYear_bounds y : 365 <= DaysInYear y <= 366.
Proof. unfold DaysInYear. destruct (isLeapYear y); lia. Qed.

Lemma DayFromYear_mono a b : a <= b -> DayFromYear a <= DayFromYear b.
Proof. unfold DayFromYear. intros. Z.div_mod_to_equations. lia. Qed.

Lemma YearFromDay_spec d :
  DayFromYear (YearFromDay d) <= d < DayFromYear (YearFromDay d + 1).
Proof.
  unfold YearFromDay.
  set (y := 1970 + 400 * d / 146097).
  assert (Hy : 146097 * (y - 1970) <= 400 * d < 146097 * (y - 1970) + 146097).
  { unfold y. Z.div_mod_to_equations. lia. }
  clearbody y.
  destruct (Z.gtb_spec (DayFromYear y) d) as [H1|H1].
  - replace (y - 1 + 1) with y by lia. split; [|lia].
    unfold DayFromYear in *. Z.div_mod_to_equations. lia.
  - destruct (Z.leb_spec (DayFromYear (y + 1)) d) as [H2|H2].
    + split; [lia|]. unfold DayFromYear in *. Z.div_mod_to_equations. lia.
    + lia.
Qed.

(** [YearFromDay d] is the only year whose days include [d]. *)
Lemma YearFromDay_unique d y :
  DayFromYear y <= d < DayFromYear (y + 1) -> YearFromDay d = y.
Proof.
  intros Hy. pose proof (YearFromDay_spec d) as Hs.
  destruct (Z.lt_trichotomy (YearFromDay d) y) as [Hlt|[Heq|Hgt]]; [|exact Heq|].
  - pose proof (DayFromYear_mono (YearFromDay d + 1) y ltac:(lia)). lia.
  - pose proof (DayFromYear_mono (y + 1) (YearFromDay d) ltac:(lia)). lia.
Qed.

Lemma Day_MakeDate D tw : 0 <= tw < msPerDay -> Day (MakeDate D tw) = D.
Proof.
  intros Htw. unfold Day, MakeDate, msPerDay in *. Z.div_mod_to_equations. lia.
Qed.

Lemma TimeWithinDay_MakeDate D tw :
  0 <= tw < msPerDay -> TimeWithinDay (MakeDate D tw) = tw.
Proof.
  intros Htw. unfold TimeWithinDay, MakeDate, msPerDay in *. Z.div_mod_to_equations. lia.
Qed.

Lemma daysBeforeMonth_next y m :
  1 <= m <= 12 ->
  daysBeforeMonth (isLeapYear y) m = daysBeforeMonth (isLeapYear y) (m - 1) + daysInMonth y m.
Proof.
  intros Hm. unfold daysInMonth.
  assert (Hc : m = 1 \/ m = 2 \/ m = 3 \/ m = 4 \/ m = 5 \/ m = 6 \/ m = 7 \/ m = 8
               \/ m = 9 \/ m = 10 \/ m = 11 \/ m = 12) by lia.
  destruct (isLeapYear y);
    repeat (destruct Hc as [->|Hc]; [reflexivity|]); subst; reflexivity.
Qed.

Lemma daysBeforeMonth_12 y : daysBeforeMonth (isLeapYear y) 12 = DaysInYear y.
Proof. unfold DaysInYear. destruct (isLeapYear y); reflexivity. Qed.

Lemma daysBeforeMonth_mono l a b : a <= b -> daysBeforeMonth l a <= daysBeforeMonth l b.
Proof.
  intros Hab. unfold daysBeforeMonth.
  repeat match goal with
         | |- context [ (?x <=? ?y) ] => destruct (Z.leb_spec x y)
         | |- context [ (?x =? ?y) ] => destruct (Z.eqb_spec x y)
         end; destruct l; lia.
Qed.

Lemma daysBeforeMonth_nonneg l m : 0 <= daysBeforeMonth l m.
Proof.
  unfold daysBeforeMonth.
  repeat match goal with
         | |- context [ (?x <=? ?y) ] => destruct (Z.leb_spec x y)
         | |- context [ (?x =? ?y) ] => destruct (Z.eqb_spec x y)
         end; destruct l; lia.
Qed.

Ltac eval_daysBefore H :=
  repeat match type of H with
         | context [daysBeforeMonth ?l ?m] =>
             let v := eval vm_compute in (daysBeforeMonth l m) in
             change (daysBeforeMonth l m) with v in H
         end.

Lemma monthOfYearDay_spec l m0 d :
  0 <= m0 <= 11 ->
  daysBeforeMonth l m0 <= d < daysBeforeMonth l (m0 + 1) ->
  monthOfYearDay l d = m0.
Proof.
  intros Hm Hd.
  assert (Hc : m0 = 0 \/ m0 = 1 \/ m0 = 2 \/ m0 = 3 \/ m0 = 4 \/ m0 = 5 \/ m0 = 6 \/ m0 = 7
               \/ m0 = 8 \/ m0 = 9 \/ m0 = 10 \/ m0 = 11) by lia.
  unfold monthOfYearDay.
  destruct l;
    repeat (destruct Hc as [->|Hc]; [eval_daysBefore Hd;
      repeat match goal with
             | |- context [ (?x <? ?y) ] => destruct (Z.ltb_spec x y)
             end; lia|]);
    subst; eval_daysBefore Hd;
    repeat match goal with
           | |- context [ (?x <? ?y) ] => destruct (Z.ltb_spec x y)
           end; lia.
Qed.

(** A valid date in fields: month [m0] counted from 0, as [MakeDay] takes it. *)
Lemma MakeDay_in_year y m0 d :
  0 <= m0 <= 11 -> 1 <= d <= daysInMonth y (m0 + 1) ->
  MakeDay y m0 d = DayFromYear y + daysBeforeMonth (isLeapYear y) m0 + d - 1 /\
  daysBeforeMonth (isLeapYear y) m0 <= daysBeforeMonth (isLeapYear y) m0 + d - 1
    < daysBeforeMonth (isLeapYear y) (m0 + 1).
Proof.
  intros Hm Hd. split.
  - unfold MakeDay. replace (m0 / 12) with 0 by (Z.div_mod_to_equations; lia).
    replace (m0 mod 12) with m0 by (Z.div_mod_to_equations; lia).
    replace (y + 0) with y by lia. reflexivity.
  - pose proof (daysBeforeMonth_next y (m0 + 1) ltac:(lia)) as Hn.
    replace (m0 + 1 - 1) with m0 in Hn by lia. lia.
Qed.

Lemma fields_of_MakeDate y m0 d tw :
  0 <= m0 <= 11 -> 1 <= d <= daysInMonth y (m0 + 1) -> 0 <= tw < msPerDay ->
  let t := MakeDate (MakeDay y m0 d) tw in
  YearFromTime t = y /\ MonthFromTime t = m0 /\ DateFromTime t = d /\ TimeWithinDay t = tw.
Proof.
  intros Hm Hd Htw t.
  destruct (MakeDay_in_year y m0 d Hm Hd) as [HD Hin].
  assert (Hday : Day t = MakeDay y m0 d) by (apply Day_MakeDate; exact Htw).
  assert (Hyear : YearFromTime t = y).
  { unfold YearFromTime. rewrite Hday. apply YearFromDay_unique.
    rewrite DayFromYear_succ, <- daysBeforeMonth_12.
    pose proof (daysBeforeMonth_mono (isLeapYear y) (m0 + 1) 12 ltac:(lia)).
    pose proof (daysBeforeMonth_nonneg (isLeapYear y) m0). lia. }
  assert (Hdwy : DayWithinYear t = daysBeforeMonth (isLeapYear y) m0 + d - 1).
  { unfold DayWithinYear. rewrite Hday, Hyear. lia. }
  assert (Hmonth : MonthFromTime t = m0).
  { unfold MonthFromTime, InLeapYear. rewrite Hyear, Hdwy.
    apply monthOfYearDay_spec; assumption. }
  repeat split; try assumption.
  - unfold DateFromTime, InLeapYear. rewrite Hmonth, Hyear, Hdwy. lia.
  - apply TimeWithinDay_MakeDate. exact Htw.
Qed.

End TimeFacts.

(** ** Calendar dates and their day numbers *)

Section CalendarFacts.
Import ES.

Lemma daysInMonth_bounds y m : 28 <= daysInMonth y m <= 31.
Proof.
  unfold daysInMonth.
  destruct (m =? 2); [destruct (isLeapYear y); lia|].
  destruct ((m =? 4) || (m =? 6) || (m =? 9) || (m =? 11)); lia.
Qed.

Lemma dayNumber_eq c :
  calendarDate c ->
  dayNumber c
  = DayFromYear (year c) + daysBeforeMonth (isLeapYear (year c)) (month c - 1) + day c - 1.
Proof.
  intros [Hm Hd]. unfold dayNumber.
  apply MakeDay_in_year; [lia|]. replace (month c - 1 + 1) with (month c) by lia. exact Hd.
Qed.

Lemma dayNumber_in_year c :
  calendarDate c ->
  DayFromYear (year c) <= dayNumber c < DayFromYear (year c + 1).
Proof.
  intros Hc. rewrite (dayNumber_eq c Hc). destruct Hc as [Hm Hd].
  rewrite DayFromYear_succ, <- daysBeforeMonth_12.
  pose proof (daysBeforeMonth_next (year c) (month c) Hm).
  pose proof (daysBeforeMonth_mono (isLeapYear (year c)) (month c) 12 ltac:(lia)).
  pose proof (daysBeforeMonth_nonneg (isLeapYear (year c)) (month c - 1)). lia.
Qed.

(** Calendar order is the order of day numbers. *)
Lemma dayNumber_lt a b :
  calendarDate a -> calendarDate b -> cal_lt a b -> dayNumber a < dayNumber b.
Proof.
  intros Ha Hb Hlt.
  destruct Hlt as [Hy|[Hy Hlt]].
  - pose proof (dayNumber_in_year a Ha). pose proof (dayNumber_in_year b Hb).
    pose proof (DayFromYear_mono (year a + 1) (year b) ltac:(lia)). lia.
  - rewrite (dayNumber_eq a Ha), (dayNumber_eq b Hb), Hy.
    destruct Ha as [Hma Hda], Hb as [Hmb Hdb].
    destruct Hlt as [Hm|[Hm Hd]]; [|rewrite Hm; lia].
    pose proof (daysBeforeMonth_next (year a) (month a) Hma) as Hn. rewrite Hy in Hn.
    pose proof (daysBeforeMonth_mono (isLeapYear (year b)) (month a) (month b - 1) ltac:(lia)).
    rewrite Hy in Hda. lia.
Qed.

Lemma cal_trichotomy a b : cal_lt a b \/ a = b \/ cal_lt b a.
Proof.
  destruct a as [ya ma da], b as [yb mb db]. unfold cal_lt. simpl.
  destruct (Z.lt_trichotomy ya yb) as [?|[->|?]]; [lia| |lia].
  destruct (Z.lt_trichotomy ma mb) as [?|[->|?]]; [lia| |lia].
  destruct (Z.lt_trichotomy da db) as [?|[->|?]]; [lia| |lia].
  right. left. reflexivity.
Qed.

Lemma cal_lt_irrefl a : ~ cal_lt a a.
Proof. unfold cal_lt. lia. Qed.

Lemma dayNumber_lt_iff a b :
  calendarDate a -> calendarDate b -> (cal_lt a b <-> dayNumber a < dayNumber b).
Proof.
  intros Ha Hb. split; [apply dayNumber_lt; assumption|].
  intros Hlt. destruct (cal_trichotomy a b) as [H|[->|H]]; [exact H|lia|].
  pose proof (dayNumber_lt b a Hb Ha H). lia.
Qed.

Lemma monthAfter_range c k :
  let '(y, m) := monthAfter c k in 1 <= m <= 12.
Proof. unfold monthAfter. Z.div_mod_to_equations. lia. Qed.

(** [MakeDay] with a month index shifted by [k] lands on the rolled-over date. *)
Lemma plusMonthsRollover_dayNumber c k :
  calendarDate c ->
  calendarDate (plusMonthsRollover c k) /\
  MakeDay (year c) (month c - 1 + k) (day c) = dayNumber (plusMonthsRollover c k).
Proof.
  intros [Hm Hd].
  pose proof (monthAfter_range c k) as Hr.
  unfold plusMonthsRollover. unfold monthAfter in *.
  set (y := year c + (month c - 1 + k) / 12) in *.
  set (m := (month c - 1 + k) mod 12 + 1) in *.
  assert (HM : MakeDay (year c) (month c - 1 + k) (day c)
               = DayFromYear y + daysBeforeMonth (isLeapYear y) (m - 1) + day c - 1).
  { unfold MakeDay. fold y. replace ((month c - 1 + k) mod 12) with (m - 1) by (unfold m; lia).
    reflexivity. }
  pose proof (daysInMonth_bounds y m) as Hb.
  pose proof (daysInMonth_bounds (year c) (month c)) as Hb0.
  destruct (Z.leb_spec (day c) (daysInMonth y m)) as [Hle|Hgt].
  - assert (Hc : calendarDate {| year := y; month := m; day := day c |}).
    { split; simpl; lia. }
    split; [exact Hc|]. rewrite HM, (dayNumber_eq _ Hc). reflexivity.
  - destruct (Z.eqb_spec m 12) as [H12|H12].
    + exfalso. rewrite H12 in Hgt. change (daysInMonth y 12) with 31 in Hgt. lia.
    + pose proof (daysInMonth_bounds y (m + 1)) as Hb1.
      assert (Hc : calendarDate {| year := y; month := m + 1; day := day c - daysInMonth y m |}).
      { split; simpl; lia. }
      split; [exact Hc|]. rewrite HM, (dayNumber_eq _ Hc). simpl.
      replace (m + 1 - 1) with m by lia.
      rewrite (daysBeforeMonth_next y m Hr). lia.
Qed.

Lemma DayFromYear_range y : 0 <= y <= 10000 -> -719528 <= DayFromYear y <= 2932897.
Proof. intros Hy. unfold DayFromYear. Z.div_mod_to_equations. lia. Qed.

Lemma dayNumber_range c :
  calendarDate c -> 0 <= year c <= 10000 -> -719528 <= dayNumber c < 2932897 + 366.
Proof.
  intros Hc Hy. pose proof (dayNumber_in_year c Hc) as Hin.
  rewrite DayFromYear_succ in Hin.
  pose proof (DayFromYear_range (year c) Hy). pose proof (DaysInYear_bounds (year c)). lia.
Qed.

End CalendarFacts.

(** ** Decimal fields and the date-only string *)

Section IsoFacts.
Import ES.

Lemma digitValue_digitChar d : 0 <= d <= 9 -> digitValue (digitChar d) = Some d.
Proof.
  intros Hd.
  assert (Hc : d = 0 \/ d = 1 \/ d = 2 \/ d = 3 \/ d = 4 \/ d = 5 \/ d = 6 \/ d = 7
               \/ d = 8 \/ d = 9) by lia.
  repeat (destruct Hc as [->|Hc]; [reflexivity|]). subst. reflexivity.
Qed.

Lemma number2_digitChar a b :
  0 <= a <= 9 -> 0 <= b <= 9 -> number2 (digitChar a) (digitChar b) = Some (10 * a + b).
Proof.
  intros Ha Hb. unfold number2.
  rewrite (digitValue_digitChar a Ha), (digitValue_digitChar b Hb). reflexivity.
Qed.

Lemma length_append_string (a b : string) :
  String.length (a ++ b) = (String.length a + String.length b)%nat.
Proof. induction a as [|c a IH]; simpl; [reflexivity|]. rewrite IH. reflexivity. Qed.

Lemma length_digits k n : String.length (digits k n) = k.
Proof.
  revert n. induction k as [|k IH]; intros n; simpl; [reflexivity|].
  rewrite length_append_string, IH. simpl. lia.
Qed.

Lemma parseISODate_isoDate c :
  0 <= year c <= 9999 -> 0 <= month c <= 99 -> 0 <= day c <= 99 ->
  parseISODate (isoDate c) = Some (year c, month c, day c).
Proof.
  intros Hy Hm Hd. unfold isoDate. cbv [digits String.append]. cbn [parseISODate].
  change (Ascii.eqb "-" "-") with true. cbn [andb].
  rewrite !number2_digitChar by (Z.div_mod_to_equations; lia).
  cbn [mbind option_bind]. f_equal. f_equal; [f_equal|]; Z.div_mod_to_equations; lia.
Qed.

Lemma TimeClip_midnight c :
  calendarDate c -> 0 <= year c <= 10000 ->
  TimeClip (MakeDate (dayNumber c) 0) = Some (midnightUTC c).
Proof.
  intros Hc Hy. pose proof (dayNumber_range c Hc Hy) as Hr.
  unfold TimeClip, midnightUTC, MakeDate, msPerDay.
  destruct (Z.gtb_spec (Z.abs (dayNumber c * 86400000 + 0)) 8640000000000000); [lia|reflexivity].
Qed.

(** [new Date("YYYY-MM-DD")] is UTC midnight of that date. *)
Lemma Date_new_isoDate legacy c :
  validDate c -> Date_new legacy (isoDate c) = Some (midnightUTC c).
Proof.
  intros [Hy Hc]. pose proof Hc as [Hm Hd].
  pose proof (daysInMonth_bounds (year c) (month c)) as Hb.
  unfold Date_new. rewrite parseISODate_isoDate by lia.
  replace (1 <=? month c) with true by (symmetry; apply Z.leb_le; lia).
  replace (month c <=? 12) with true by (symmetry; apply Z.leb_le; lia).
  replace (1 <=? day c) with true by (symmetry; apply Z.leb_le; lia).
  replace (day c <=? 31) with true by (symmetry; apply Z.leb_le; lia).
  cbn [andb]. apply TimeClip_midnight; [exact Hc|lia].
Qed.

End IsoFacts.

(** ** The date window *)

Section RangeFacts.
Import ES.
Context {W : Type} `{Host W}.

Lemma gt_midnights a b :
  ES.gt (Some (midnightUTC a)) (Some (midnightUTC b)) = (dayNumber a >? dayNumber b).
Proof.
  unfold ES.gt, midnightUTC, MakeDate, msPerDay.
  destruct (Z.gtb_spec (dayNumber a) (dayNumber b));
    destruct (Z.gtb_spec (dayNumber a * 86400000 + 0) (dayNumber b * 86400000 + 0));
    try reflexivity; lia.
Qed.

Lemma plusMonthsRollover_year c k :
  0 <= k <= 12 -> calendarDate c ->
  year c <= year (plusMonthsRollover c k) <= year c + 1.
Proof.
  intros Hk [Hm Hd]. pose proof (daysInMonth_bounds (year c) (month c)) as Hb.
  unfold plusMonthsRollover, monthAfter.
  destruct (Z.leb_spec (day c)
              (daysInMonth (year c + (month c - 1 + k) / 12) ((month c - 1 + k) mod 12 + 1)))
    as [Hle|Hgt].
  - simpl. Z.div_mod_to_equations. lia.
  - destruct (Z.eqb_spec ((month c - 1 + k) mod 12 + 1) 12) as [E|E].
    + exfalso. rewrite E in Hgt.
      change (daysInMonth (year c + (month c - 1 + k) / 12) 12) with 31 in Hgt. lia.
    + simpl. Z.div_mod_to_equations. lia.
Qed.

Lemma plusMonthsRollover_later c k :
  1 <= k <= 12 -> calendarDate c -> cal_lt c (plusMonthsRollover c k).
Proof.
  intros Hk [Hm Hd]. pose proof (daysInMonth_bounds (year c) (month c)) as Hb.
  unfold cal_lt, plusMonthsRollover, monthAfter.
  destruct (Z.leb_spec (day c)
              (daysInMonth (year c + (month c - 1 + k) / 12) ((month c - 1 + k) mod 12 + 1)))
    as [Hle|Hgt].
  - simpl. Z.div_mod_to_equations. lia.
  - destruct (Z.eqb_spec ((month c - 1 + k) mod 12 + 1) 12) as [E|E].
    + exfalso. rewrite E in Hgt.
      change (daysInMonth (year c + (month c - 1 + k) / 12) 12) with 31 in Hgt. lia.
    + simpl. Z.div_mod_to_equations. lia.
Qed.

Lemma TimeClip_small t : Z.abs t <= 8640000000000000 -> TimeClip t = Some t.
Proof.
  intros Ht. unfold TimeClip.
  destruct (Z.gtb_spec (Z.abs t) 8640000000000000); [lia|reflexivity].
Qed.

(** [setMonth(getMonth() + 2)] on UTC midnight of a date, on a host whose
    local time at that instant is UTC or ahead of it ([off1] in [0h, 24h)):
    the local date is the date itself, the new local time is the rolled-over
    date at the same time of day, and it is read with the offset [off2]
    that is in force then. *)
Lemma twoMonthsLater_midnight s :
  let off1 := host_LocalTZA (midnightUTC s) true in
  let off2 := host_LocalTZA (MakeDate (dayNumber (plusMonthsRollover s 2)) off1) false in
  0 <= off1 < msPerDay -> - msPerDay <= off2 <= msPerDay -> validDate s ->
  setMonth host_LocalTZA (Some (midnightUTC s))
    ((fun m => m + 2) <$> getMonth host_LocalTZA (Some (midnightUTC s)))
  = Some (midnightUTC (plusMonthsRollover s 2) + off1 - off2).
Proof.
  intros off1 off2 H1 H2 [Hy Hc]. pose proof Hc as [Hm Hd].
  assert (Hloc : LocalTime host_LocalTZA (midnightUTC s)
                 = MakeDate (MakeDay (year s) (month s - 1) (day s)) off1).
  { unfold LocalTime. fold off1. unfold midnightUTC, MakeDate, dayNumber. lia. }
  destruct (fields_of_MakeDate (year s) (month s - 1) (day s) off1) as (HY & HM & HD & HT);
    [lia|replace (month s - 1 + 1) with (month s) by lia; exact Hd|exact H1|].
  destruct (plusMonthsRollover_dayNumber s 2 Hc) as [Hc' Hday].
  pose proof (plusMonthsRollover_year s 2 ltac:(lia) Hc) as Hy'.
  pose proof (dayNumber_range _ Hc' ltac:(lia)) as Hr.
  unfold getMonth, setMonth. cbn [mbind option_bind fmap option_fmap option_map].
  rewrite Hloc, HY, HM, HD, HT, Hday. fold off2.
  replace (UTC host_LocalTZA (MakeDate (dayNumber (plusMonthsRollover s 2)) off1))
    with (midnightUTC (plusMonthsRollover s 2) + off1 - off2)
    by (unfold UTC; fold off2; unfold midnightUTC, MakeDate; lia).
  apply TimeClip_small. unfold midnightUTC, MakeDate, msPerDay in *. lia.
Qed.

Lemma checkRange_midnights s e :
  let off1 := host_LocalTZA (midnightUTC s) true in
  let off2 := host_LocalTZA (MakeDate (dayNumber (plusMonthsRollover s 2)) off1) false in
  0 <= off1 < msPerDay -> - msPerDay <= off2 <= msPerDay -> validDate s ->
  checkRange (Some (midnightUTC s)) (Some (midnightUTC e))
  = if dayNumber s >? dayNumber e then InvalidRange
    else if midnightUTC e >? midnightUTC (plusMonthsRollover s 2) + off1 - off2
         then RangeTooLarge
         else RangeOk.
Proof.
  intros off1 off2 H1 H2 Hs. unfold checkRange.
  rewrite (twoMonthsLater_midnight s H1 H2 Hs), gt_midnights. reflexivity.
Qed.

Lemma checkRange_InvalidRange (startDate endDate : Z) :
  startDate > endDate -> checkRange (Some startDate) (Some endDate) = InvalidRange.
Proof.
  intros Hgt. unfold checkRange, ES.gt.
  destruct (Z.gtb_spec startDate endDate); [reflexivity|lia].
Qed.

End RangeFacts.

(** ** Validation of the window (C3, C4) *)

Section RunFacts.
Context {W : Type} `{Host W}.

Lemma advance_advance (st : St W) w1 e1 w2 e2 :
  advance (advance st w1 e1) w2 e2 = advance st w2 (e1 ++ e2)%list.
Proof. unfold advance. simpl. rewrite app_assoc. reflexivity. Qed.

Lemma advance_nil (st : St W) : advance st (world st) [] = st.
Proof. destruct st. unfold advance. simpl. rewrite app_nil_r. reflexivity. Qed.

Lemma printed_nil (st : St W) : printed st [] = st.
Proof. apply advance_nil. Qed.

Lemma printed_app (st : St W) a b : printed (printed st a) b = printed st (a ++ b)%list.
Proof. unfold printed. apply advance_advance. Qed.

Lemma emit_run ev (st : St W) : emit ev st = (Ok tt, printed st [ev]).
Proof. reflexivity. Qed.

Lemma echoAnswers_run answers (st : St W) :
  exists lines, echoAnswers answers st = (Ok tt, printed st (map ConsoleLog lines)).
Proof.
  unfold echoAnswers, console_log, mbind, M_bind. rewrite !emit_run.
  destruct (String.eqb (authorAnswer answers) "").
  - eexists [_; _; _; _]. unfold mret, M_ret. rewrite !printed_app. reflexivity.
  - eexists [_; _; _; _; _]. rewrite emit_run, !printed_app. reflexivity.
Qed.


(** The cap is not a number of days: two months from 1 January 2023 are 59
    days, from 1 January 2024 60 days, from 1 July 2024 62 days. *)
Example cap_is_not_a_day_count :
  dayNumber (plusMonthsRollover {| year := 2023; month := 1; day := 1 |} 2)
  - dayNumber {| year := 2023; month := 1; day := 1 |} = 59 /\
  dayNumber (plusMonthsRollover {| year := 2024; month := 1; day := 1 |} 2)
  - dayNumber {| year := 2024; month := 1; day := 1 |} = 60 /\
  dayNumber (plusMonthsRollover {| year := 2024; month := 7; day := 1 |} 2)
  - dayNumber {| year := 2024; month := 7; day := 1 |} = 62.
Proof. repeat split; reflexivity. Qed.

End RunFacts.

Ltac solve_validDate :=
  unfold validDate, calendarDate, daysInMonth; simpl; lia.





(** C4.  For calendar dates with start after end, the check answers
    InvalidRange, and the run prints its echo of the answers and the error
    and ends: the world and the files are untouched, nothing is fetched,
    summarised or written. *)
Theorem start_after_end_aborts {W : Type} `{Host W} (s e : CalDate)
    (answers : Answers) (st : St W) :
  validDate s -> validDate e -> cal_lt e s ->
  startDate answers = isoDate s -> endDate answers = isoDate e ->
  checkRange (Date_new host_dateParse (startDate answers))
             (Date_new host_dateParse (endDate answers)) = InvalidRange /\
  exists lines,
    main answers st
    = (Ok tt,
       {| world := world st; files := files st;
          trace := (trace st ++ map ConsoleLog lines
                    ++ [ConsoleError "시작 날짜가 종료 날짜보다 늦습니다." None])%list |}).
Proof.
  intros Hs He Hlt Hsa Hea. rewrite Hsa, Hea.
  pose proof Hs as [_ Hcs]. pose proof He as [_ Hce].
  assert (Hv : checkRange (Date_new host_dateParse (isoDate s))
                 (Date_new host_dateParse (isoDate e)) = InvalidRange).
  { rewrite !Date_new_isoDate by assumption. apply checkRange_InvalidRange.
    pose proof (dayNumber_lt e s Hce Hcs Hlt).
    unfold midnightUTC, ES.MakeDate, ES.msPerDay. lia. }
  split; [exact Hv|].
  destruct (echoAnswers_run answers st) as [lines Hecho].
  exists lines. unfold main, try_catch, mbind, M_bind.
  rewrite Hecho, Hsa, Hea, Hv. unfold console_error. rewrite emit_run.
  unfold printed, advance. simpl. rewrite <- app_assoc. reflexivity.
Qed.

(** Witness of C4: the window 2024-02-10 to 2024-02-01. *)
Lemma start_after_end_aborts_witness :
  @checkRange nat (Sample.host 0 Sample.commits)
    (Date_new Sample.dateParse "2024-02-10") (Date_new Sample.dateParse "2024-02-01")
  = InvalidRange.
Proof.
  apply (proj1 (@start_after_end_aborts nat (Sample.host 0 Sample.commits)
                  {| year := 2024; month := 2; day := 10 |}
                  {| year := 2024; month := 2; day := 1 |}
                  {| gitPath := "/repo"; startDate := "2024-02-10"; endDate := "2024-02-01";
                     authorAnswer := "" |}
                  Sample.start
                  ltac:(solve_validDate) ltac:(solve_validDate)
                  ltac:(unfold cal_lt; simpl; lia) eq_refl eq_refl)).
Defined.

(** ** The buckets object *)

Section BucketFacts.

Lemma obj_get_map (f : string -> list Commit) (keys : list string) (k : string) :
  obj_get (map (fun k0 => (k0, f k0)) keys) k
  = if decide (k ∈ keys) then Some (f k) else None.
Proof.
  induction keys as [|k0 keys IH]; simpl.
  - destruct (decide (k ∈ [])) as [Hin|_]; [inversion Hin|reflexivity].
  - destruct (String.eqb_spec k0 k) as [->|Hne].
    + rewrite decide_True by (left; reflexivity). reflexivity.
    + rewrite IH. destruct (decide (k ∈ keys)) as [Hin|Hnin].
      * rewrite decide_True by (right; exact Hin). reflexivity.
      * rewrite decide_False; [reflexivity|].
        intros Hin. apply elem_of_cons in Hin as [->|Hin]; [congruence|contradiction].
Qed.

Lemma obj_push_map (f : string -> list Commit) (keys : list string) (k : string) c :
  NoDup keys ->
  obj_push (map (fun k0 => (k0, f k0)) keys) k c
  = map (fun k0 => (k0, if decide (k0 = k) then (f k0 ++ [c])%list else f k0)) keys.
Proof.
  induction keys as [|k0 keys IH]; intros Hnd; simpl; [reflexivity|].
  apply NoDup_cons in Hnd as [Hnin Hnd].
  destruct (String.eqb_spec k0 k) as [->|Hne].
  - rewrite decide_True by reflexivity. f_equal.
    apply map_ext_in. intros k1 Hin. apply list_elem_of_In in Hin.
    rewrite decide_False; [reflexivity|]. intros ->. contradiction.
  - rewrite decide_False by exact Hne. f_equal. apply IH. exact Hnd.
Qed.

Lemma obj_push_fresh (o : Buckets) (k : string) (v : list Commit) c :
  k ∉ o.*1 -> obj_push (o ++ [(k, v)]) k c = (o ++ [(k, (v ++ [c])%list)])%list.
Proof.
  induction o as [|[k0 v0] o IH]; intros Hnin; simpl.
  - rewrite String.eqb_refl. reflexivity.
  - simpl in Hnin. apply not_elem_of_cons in Hnin as [Hne Hnin].
    destruct (String.eqb_spec k0 k) as [->|_]; [congruence|].
    rewrite IH by exact Hnin. reflexivity.
Qed.

Lemma obj_get_None (o : Buckets) (k : string) : obj_get o k = None -> k ∉ o.*1.
Proof.
  induction o as [|[k0 v0] o IH]; simpl; intros Hget.
  - apply not_elem_of_nil.
  - destruct (String.eqb_spec k0 k) as [->|Hne]; [discriminate|].
    apply not_elem_of_cons. split; [congruence|apply IH; exact Hget].
Qed.

(** One pass of the grouping loop's body, the bucket being created when the
    key is new, leaves no bucket empty. *)
Lemma push_step_nonempty (o : Buckets) (k : string) c :
  Forall (fun b => b.2 <> []) o ->
  Forall (fun b => b.2 <> [])
    (obj_push (match obj_get o k with
               | None => (o ++ [(k, [])])%list
               | Some _ => o
               end) k c).
Proof.
  intros Hne. destruct (obj_get o k) eqn:Hget.
  - clear Hget. induction Hne as [|[k0 v0] o Hv Ho IH]; simpl; [constructor|].
    destruct (String.eqb_spec k0 k) as [->|Hk].
    + constructor; [|exact Ho]. simpl. intros Habs. apply app_eq_nil in Habs as [_ Habs].
      discriminate.
    + constructor; [exact Hv|exact IH].
  - rewrite obj_push_fresh by (apply obj_get_None; exact Hget).
    apply Forall_app. split; [exact Hne|]. constructor; [|constructor]. simpl. discriminate.
Qed.

Lemma firstOccurrences_elem (l : list string) k : k ∈ firstOccurrences l <-> k ∈ l.
Proof.
  induction l as [|a l IH]; simpl; [reflexivity|].
  rewrite !elem_of_cons, list_elem_of_filter, IH.
  destruct (decide (k = a)); intuition.
Qed.

Lemma firstOccurrences_NoDup (l : list string) : NoDup (firstOccurrences l).
Proof.
  induction l as [|a l IH]; simpl; [constructor|].
  apply NoDup_cons. split.
  - rewrite list_elem_of_filter. intros [Hne _]. apply Hne. reflexivity.
  - apply NoDup_filter. exact IH.
Qed.

Lemma firstOccurrences_snoc (l : list string) k :
  firstOccurrences (l ++ [k])
  = if decide (k ∈ l) then firstOccurrences l else (firstOccurrences l ++ [k])%list.
Proof.
  induction l as [|a l IH]; cbn [firstOccurrences app].
  - case_decide as Hin; [inversion Hin|reflexivity].
  - rewrite IH. destruct (decide (k ∈ l)) as [Hin|Hnin].
    + rewrite decide_True by (right; exact Hin). reflexivity.
    + rewrite filter_app. destruct (decide (k = a)) as [->|Hne].
      * rewrite decide_True by (left; reflexivity).
        rewrite filter_cons_False by (intros Hn; apply Hn; reflexivity).
        rewrite filter_nil, app_nil_r. reflexivity.
      * rewrite decide_False
          by (intros Hin; apply elem_of_cons in Hin as [?|?]; [congruence|contradiction]).
        rewrite filter_cons_True by exact Hne. rewrite filter_nil. reflexivity.
Qed.

End BucketFacts.

(** ** Grouping by date *)

Section GroupFacts.
Context {W : Type} `{Host W}.

Lemma push_step_perm (o : Buckets) (k : string) c :
  concat (obj_push (match obj_get o k with
                    | None => (o ++ [(k, [])])%list
                    | Some _ => o
                    end) k c).*2
  ≡ₚ c :: concat (o.*2).
Proof.
  destruct (obj_get o k) eqn:Hget.
  - induction o as [|[k0 v0] o IH]; simpl in *; [discriminate|].
    destruct (String.eqb_spec k0 k) as [->|Hne]; simpl.
    + rewrite <- app_assoc. simpl. symmetry. apply Permutation_middle.
    + rewrite IH by exact Hget. symmetry. apply Permutation_middle.
  - rewrite obj_push_fresh by (apply obj_get_None; exact Hget).
    rewrite fmap_app, concat_app. simpl. rewrite ?app_nil_r.
    symmetry. apply Permutation_cons_append.
Qed.

Lemma commitDateOf_valid commit t :
  Date_new host_dateParse (date commit) = Some t ->
  exists iso, toISOString (Some t) = Ok iso /\ commitDateOf commit = Ok (beforeFirst "T" iso).
Proof.
  intros Ht. unfold commitDateOf. rewrite Ht. eexists. split; reflexivity.
Qed.

Lemma commitDateOf_invalid commit :
  Date_new host_dateParse (date commit) = None ->
  commitDateOf commit = Throw {| message := "Invalid time value" |}.
Proof. intros Ht. unfold commitDateOf. rewrite Ht. reflexivity. Qed.

(** An invalid date aborts the grouping with the RangeError of
    [toISOString]. *)
Lemma groupLoop_invalid (commits : list Commit) (acc : Buckets) :
  Exists (fun commit => Date_new host_dateParse (date commit) = None) commits ->
  groupLoop commits acc = Throw {| message := "Invalid time value" |}.
Proof.
  intros Hex. revert acc. induction commits as [|c cs IH]; intros acc; [inversion Hex|].
  simpl. destruct (Date_new host_dateParse (date c)) as [t|] eqn:Ht.
  - destruct (commitDateOf_valid c t Ht) as (iso & _ & ->). simpl. apply IH.
    inversion Hex as [? ? Hc|]; subst; [congruence|assumption].
  - rewrite (commitDateOf_invalid c Ht). reflexivity.
Qed.

(** Commits whose date is a time value all have a key. *)
Lemma keys_exist (commits : list Commit) :
  Forall (fun commit => is_Some (Date_new host_dateParse (date commit))) commits ->
  exists keys, Forall2 (fun commit key => commitDateOf commit = Ok key) commits keys.
Proof.
  induction 1 as [|c cs [t Ht] _ [ks IH]].
  - exists []. constructor.
  - destruct (commitDateOf_valid c t Ht) as (iso & _ & Hk).
    eexists (_ :: ks). constructor; [exact Hk|exact IH].
Qed.

Lemma groupLoop_app (cs1 cs2 : list Commit) (acc : Buckets) :
  groupLoop (cs1 ++ cs2) acc = groupLoop cs1 acc ≫= groupLoop cs2.
Proof.
  revert acc. induction cs1 as [|c cs1 IH]; intros acc; simpl; [reflexivity|].
  destruct (commitDateOf c) as [k|e]; simpl; [|reflexivity]. apply IH.
Qed.

(** The loop neither drops nor repeats a commit, and leaves no bucket empty. *)
Lemma groupLoop_partition (commits : list Commit) keys (acc : Buckets) :
  Forall2 (fun commit key => commitDateOf commit = Ok key) commits keys ->
  exists buckets,
    groupLoop commits acc = Ok buckets /\
    concat (buckets.*2) ≡ₚ (concat (acc.*2) ++ commits)%list /\
    (Forall (fun b => b.2 <> []) acc -> Forall (fun b => b.2 <> []) buckets).
Proof.
  intros Hk. revert acc. induction Hk as [|c k cs ks Hc _ IH]; intros acc.
  - exists acc. simpl. rewrite app_nil_r. repeat split; auto.
  - simpl. rewrite Hc. simpl.
    destruct (IH (obj_push (match obj_get acc k with
                            | None => (acc ++ [(k, [])])%list
                            | Some _ => acc
                            end) k c)) as (bs & Hrun & Hperm & Hne).
    exists bs. split; [exact Hrun|]. split.
    + rewrite Hperm, push_step_perm. simpl. apply Permutation_middle.
    + intros Hacc. apply Hne. apply push_step_nonempty. exact Hacc.
Qed.

Lemma commitsOn_app k (cs1 cs2 : list Commit) :
  commitsOn k (cs1 ++ cs2) = (commitsOn k cs1 ++ commitsOn k cs2)%list.
Proof. apply filter_app. Qed.

Lemma commitsOn_absent k (commits : list Commit) keys :
  Forall2 (fun commit key => commitDateOf commit = Ok key) commits keys ->
  k ∉ keys -> commitsOn k commits = [].
Proof.
  induction 1 as [|c k0 cs ks Hc _ IH]; intros Hnin; [reflexivity|].
  apply not_elem_of_cons in Hnin as [Hne Hnin]. unfold commitsOn.
  rewrite filter_cons_False by (rewrite Hc; congruence). apply IH. exact Hnin.
Qed.

(** The buckets in closed form: one per key, in the order in which the keys
    first occur, holding the commits of that key in the order of the list. *)
Lemma groupByDate_closed (commits : list Commit) keys :
  Forall2 (fun commit key => commitDateOf commit = Ok key) commits keys ->
  groupByDate commits
  = Ok (map (fun k => (k, commitsOn k commits)) (firstOccurrences keys)).
Proof.
  unfold groupByDate. revert keys.
  induction commits as [|c cs IH] using rev_ind; intros keys Hk.
  - apply Forall2_nil_inv_l in Hk as ->. reflexivity.
  - apply Forall2_app_inv_l in Hk as (ks & k1 & Hks & Hk1 & ->).
    apply Forall2_cons_inv_l in Hk1 as (k & k2 & Hc & Hnil & ->).
    apply Forall2_nil_inv_l in Hnil as ->.
    rewrite groupLoop_app, (IH ks Hks). simpl. rewrite Hc. simpl. f_equal.
    rewrite obj_get_map, firstOccurrences_snoc.
    pose proof (firstOccurrences_NoDup ks) as Hnd.
    destruct (decide (k ∈ ks)) as [Hin|Hnin].
    + rewrite decide_True by (apply firstOccurrences_elem; exact Hin).
      rewrite obj_push_map by exact Hnd.
      apply map_ext. intros k0. f_equal. rewrite commitsOn_app. unfold commitsOn.
      destruct (decide (k0 = k)) as [->|Hne].
      * rewrite filter_cons_True by exact Hc. reflexivity.
      * rewrite filter_cons_False by (rewrite Hc; congruence).
        rewrite filter_nil, app_nil_r. reflexivity.
    + rewrite decide_False by (rewrite firstOccurrences_elem; exact Hnin).
      rewrite obj_push_fresh.
      2:{ rewrite <- list_fmap_compose. simpl. rewrite list_fmap_id.
          rewrite firstOccurrences_elem. exact Hnin. }
      rewrite map_app. simpl. f_equal.
      * apply map_ext_in. intros k0 Hin. apply list_elem_of_In in Hin. rewrite firstOccurrences_elem in Hin.
        f_equal. rewrite commitsOn_app. unfold commitsOn.
        rewrite filter_cons_False by (rewrite Hc; intros [= ->]; contradiction).
        rewrite filter_nil, app_nil_r. reflexivity.
      * f_equal. f_equal. rewrite commitsOn_app, (commitsOn_absent k cs ks Hks Hnin).
        unfold commitsOn. rewrite filter_cons_True by exact Hc. reflexivity.
Qed.

End GroupFacts.

(** ** The date key of a commit *)

Section KeyFacts.
Import ES.

Lemma append_cons_string x (a b : string) : String x a ++ b = String x (a ++ b).
Proof. reflexivity. Qed.

Lemma append_assoc_string (a b c : string) : (a ++ b) ++ c = a ++ (b ++ c).
Proof.
  induction a as [|x a IH]; [reflexivity|].
  rewrite !append_cons_string, IH. reflexivity.
Qed.

Lemma append_nil_r_string (a : string) : a ++ "" = a.
Proof.
  induction a as [|x a IH]; [reflexivity|].
  rewrite append_cons_string, IH. reflexivity.
Qed.

Lemma beforeFirst_app sep (a b : string) :
  beforeFirst sep a = a -> beforeFirst sep (a ++ b) = a ++ beforeFirst sep b.
Proof.
  induction a as [|x a IH]; [reflexivity|].
  rewrite append_cons_string. cbn [beforeFirst].
  destruct (Ascii.eqb x sep); [discriminate|].
  intros [= Ha]. rewrite IH by exact Ha. reflexivity.
Qed.

Lemma digitChar_not_T n : Ascii.eqb (digitChar (n mod 10)) "T" = false.
Proof.
  assert (Hr : 0 <= n mod 10 <= 9) by (Z.div_mod_to_equations; lia).
  assert (Hc : n mod 10 = 0 \/ n mod 10 = 1 \/ n mod 10 = 2 \/ n mod 10 = 3 \/ n mod 10 = 4
               \/ n mod 10 = 5 \/ n mod 10 = 6 \/ n mod 10 = 7 \/ n mod 10 = 8
               \/ n mod 10 = 9) by lia.
  repeat (destruct Hc as [->|Hc]; [reflexivity|]). rewrite Hc. reflexivity.
Qed.

Lemma beforeFirst_digits k n : beforeFirst "T" (digits k n) = digits k n.
Proof.
  revert n. induction k as [|k IH]; intros n; [reflexivity|].
  cbn [digits]. rewrite beforeFirst_app by apply IH.
  cbn [beforeFirst]. rewrite digitChar_not_T. reflexivity.
Qed.

Lemma substring_prefix (a b : string) : substring 0 (String.length a) (a ++ b) = a.
Proof.
  induction a as [|x a IH]; [destruct b; reflexivity|].
  rewrite append_cons_string. cbn [String.length substring]. rewrite IH. reflexivity.
Qed.

(** The calendar part of the ISO string of [t]. *)
Lemma toISOString_parts t :
  0 <= YearFromTime t <= 9999 ->
  exists time,
    toISOString (Some t)
    = Ok ((digits 4 (YearFromTime t) ++ "-" ++ digits 2 (MonthFromTime t + 1) ++ "-"
           ++ digits 2 (DateFromTime t)) ++ "T" ++ time).
Proof.
  intros Hy. eexists. unfold toISOString, isoYear.
  replace ((0 <=? YearFromTime t) && (YearFromTime t <=? 9999)) with true
    by (symmetry; apply andb_true_iff; split; apply Z.leb_le; lia).
  rewrite !append_assoc_string. reflexivity.
Qed.

Lemma beforeFirst_date (y m d time : string) :
  beforeFirst "T" y = y -> beforeFirst "T" m = m -> beforeFirst "T" d = d ->
  beforeFirst "T" ((y ++ "-" ++ m ++ "-" ++ d) ++ "T" ++ time) = y ++ "-" ++ m ++ "-" ++ d.
Proof.
  intros Hy Hm Hd.
  assert (Hfree : beforeFirst "T" (y ++ "-" ++ m ++ "-" ++ d) = y ++ "-" ++ m ++ "-" ++ d).
  { rewrite (beforeFirst_app _ y) by exact Hy. f_equal.
    rewrite (beforeFirst_app _ "-") by reflexivity. f_equal.
    rewrite (beforeFirst_app _ m) by exact Hm. f_equal.
    rewrite (beforeFirst_app _ "-") by reflexivity. f_equal. exact Hd. }
  rewrite beforeFirst_app by exact Hfree.
  rewrite (append_cons_string "T" "" time). cbn [beforeFirst].
  change (Ascii.eqb "T" "T") with true. cbv iota. apply append_nil_r_string.
Qed.

Lemma length_date_key y m d :
  String.length (digits 4 y ++ "-" ++ digits 2 m ++ "-" ++ digits 2 d) = 10%nat.
Proof. rewrite !length_append_string, !length_digits. reflexivity. Qed.

End KeyFacts.

(** ** Grouping: keys, order and partition (C5, C6) *)

Section GroupingClaims.
Context {W : Type} `{Host W}.

Lemma keys_cover (commits : list Commit) keys c :
  Forall2 (fun commit key => commitDateOf commit = Ok key) commits keys ->
  c ∈ commits -> exists k, commitDateOf c = Ok k /\ k ∈ keys.
Proof.
  induction 1 as [|c0 k0 cs ks Hc _ IH]; intros Hin; [inversion Hin|].
  apply elem_of_cons in Hin as [->|Hin].
  - exists k0. split; [exact Hc|left].
  - destruct (IH Hin) as (k & Hk & Hks). exists k. split; [exact Hk|right; exact Hks].
Qed.

(** With a four-digit UTC year, the key is the first ten characters of the
    ISO string. *)
Lemma commitDateOf_first10 commit t :
  Date_new host_dateParse (date commit) = Some t ->
  0 <= ES.YearFromTime t <= 9999 ->
  exists iso,
    toISOString (Date_new host_dateParse (date commit)) = Ok iso /\
    commitDateOf commit = Ok (substring 0 10 iso).
Proof.
  intros Ht Hy. destruct (toISOString_parts t Hy) as [time Hiso].
  eexists. rewrite Ht. split; [exact Hiso|].
  unfold commitDateOf. rewrite Ht, Hiso. cbn [mbind Result_bind mret Result_ret]. f_equal.
  rewrite beforeFirst_date by apply beforeFirst_digits.
  rewrite <- (length_date_key (ES.YearFromTime t) (ES.MonthFromTime t + 1) (ES.DateFromTime t))
    at 1.
  symmetry. apply substring_prefix.
Qed.

(** The key is the UTC calendar date of the instant. *)
Lemma commitDateOf_calendar commit cal tw :
  validDate cal -> 0 <= tw < ES.msPerDay ->
  Date_new host_dateParse (date commit) = Some (ES.MakeDate (dayNumber cal) tw) ->
  commitDateOf commit = Ok (isoDate cal).
Proof.
  intros [Hy [Hm Hd]] Htw Ht.
  destruct (fields_of_MakeDate (year cal) (month cal - 1) (day cal) tw) as (HY & HM & HD & _);
    [lia|replace (month cal - 1 + 1) with (month cal) by lia; exact Hd|exact Htw|].
  fold (dayNumber cal) in HY, HM, HD.
  destruct (toISOString_parts (ES.MakeDate (dayNumber cal) tw)) as [time Hiso];
    [rewrite HY; exact Hy|].
  unfold commitDateOf. rewrite Ht, Hiso. cbn [mbind Result_bind mret Result_ret]. f_equal.
  rewrite beforeFirst_date by apply beforeFirst_digits.
  rewrite HY, HM, HD. replace (month cal - 1 + 1) with (month cal) by lia. reflexivity.
Qed.

End GroupingClaims.

(** C5.  The key of a commit whose author date lies in the year 10000.
    The ISO text of such an instant has a signed year of six digits,
    [+010000-01-01T00:00:00.000Z]; the key of the code is the text before
    the [T], thirteen characters that are not of the form [YYYY-MM-DD]
    which the comment of that line promises, and not the first ten
    characters of the ISO text, which the claim takes for the key.  Two
    commits of different days of that month get a bucket each. *)
Theorem bucket_key_beyond_9999 :
  toISOString (Date_new Sample.dateParse (date Faulty.later1))
  = Ok "+010000-01-01T00:00:00.000Z" /\
  @commitDateOf nat (Sample.host 0 []) Faulty.later1 = Ok "+010000-01-01" /\
  substring 0 10 "+010000-01-01T00:00:00.000Z" = "+010000-01" /\
  @commitDateOf nat (Sample.host 0 []) Faulty.later1
  <> Ok (substring 0 10 "+010000-01-01T00:00:00.000Z") /\
  datePattern "+010000-01-01" = false /\
  @groupByDate nat (Sample.host 0 []) [Faulty.later1; Faulty.later2]
  = Ok [("+010000-01-01", [Faulty.later1]); ("+010000-01-31", [Faulty.later2])].
Proof. vm_compute. repeat split. discriminate. Qed.

(** C6.  Grouping a fetched list (every commit carrying a timestamp) never
    fails; the buckets together hold exactly the commits of the list, none
    dropped and none repeated, so the counts agree; there is one bucket per
    key and no bucket is empty. *)
Theorem grouping_is_partition {W : Type} `{Host W} (commits : list Commit) :
  Forall (fun c => is_Some (Date_new host_dateParse (date c))) commits ->
  exists buckets,
    groupByDate commits = Ok buckets /\
    concat (buckets.*2) ≡ₚ commits /\
    totalCommits buckets = length commits /\
    NoDup (buckets.*1) /\
    Forall (fun b => b.2 <> []) buckets.
Proof.
  intros Hsome. destruct (keys_exist commits Hsome) as [keys Hkeys].
  destruct (groupLoop_partition commits keys [] Hkeys) as (bs & Hrun & Hperm & Hne).
  exists bs. split; [exact Hrun|]. simpl in Hperm.
  split; [exact Hperm|]. split; [|split].
  - unfold totalCommits. rewrite Hperm. reflexivity.
  - pose proof (groupByDate_closed commits keys Hkeys) as Hclosed.
    unfold groupByDate in Hclosed. rewrite Hrun in Hclosed. injection Hclosed as ->.
    rewrite <- list_fmap_compose. simpl. rewrite list_fmap_id.
    apply firstOccurrences_NoDup.
  - apply Hne. constructor.
Qed.

(** Witness of C6: the five sample commits. *)
Lemma grouping_is_partition_witness :
  exists buckets,
    @groupByDate nat (Sample.host 0 []) Sample.commits = Ok buckets /\
    totalCommits buckets = 5%nat.
Proof.
  destruct (@grouping_is_partition nat (Sample.host 0 []) Sample.commits)
    as (b & Hb & _ & Hn & _).
  - repeat constructor; (eexists; vm_compute; reflexivity).
  - exists b. split; [exact Hb|exact Hn].
Defined.

(** ** [trim] *)

Section TrimFacts.

Lemma trimStart_eq s :
  trimStart s = match skipWhite s with Some r => trimStart r | None => s end.
Proof.
  destruct s as [|a [|b [|c s]]]; cbn [trimStart skipWhite]; try reflexivity.
  - destruct (isWhiteSpace a); reflexivity.
  - destruct (isWhiteSpace a); [reflexivity|]. destruct (isWhiteSpace2 a b); reflexivity.
  - destruct (isWhiteSpace a); [reflexivity|]. destruct (isWhiteSpace2 a b); [reflexivity|].
    destruct (isWhiteSpace3 a b c); reflexivity.
Qed.

Lemma skipWhite_length s r :
  skipWhite s = Some r -> (String.length r < String.length s)%nat.
Proof.
  destruct s as [|a [|b [|c s]]]; cbn [skipWhite]; intros Hs;
    repeat match type of Hs with
           | context [if ?b then _ else _] => destruct b
           end;
    try discriminate; injection Hs as <-; simpl; lia.
Qed.

(** Induction along the white space at the front. *)
Lemma skipWhite_ind (P : string -> Prop) :
  (forall s, (forall r, skipWhite s = Some r -> P r) -> P s) -> forall s, P s.
Proof.
  intros Hstep s. remember (String.length s) as n eqn:Hn. revert s Hn.
  induction n as [n IH] using (well_founded_induction Wf_nat.lt_wf). intros s ->.
  apply Hstep. intros r Hr.
  apply (IH (String.length r)); [apply skipWhite_length; exact Hr|reflexivity].
Qed.

Lemma skipWhite_app s r t : skipWhite s = Some r -> skipWhite (s ++ t) = Some (r ++ t).
Proof.
  destruct s as [|a [|b [|c s]]]; cbn [skipWhite]; intros Hs;
    rewrite ?append_cons_string; cbn [skipWhite];
    repeat match type of Hs with
           | context [if ?b then _ else _] => destruct b
           end;
    try discriminate; injection Hs as <-; reflexivity.
Qed.

Lemma isWhiteSpace2_bytes a b :
  isWhiteSpace2 a b = true -> isContinuation a = false /\ isContinuation b = true.
Proof.
  unfold isWhiteSpace2, isContinuation. cbv zeta. intros Hw.
  apply andb_true_iff in Hw as [Ha Hb]. apply Nat.eqb_eq in Ha, Hb. rewrite Ha, Hb.
  split; reflexivity.
Qed.

Lemma isWhiteSpace3_bytes a b c :
  isWhiteSpace3 a b c = true ->
  isContinuation a = false /\ isContinuation b = true /\ isContinuation c = true.
Proof.
  unfold isWhiteSpace3, isContinuation. cbv zeta. intros Hw.
  repeat (apply orb_true_iff in Hw as [Hw|Hw]);
    repeat match type of Hw with
           | (_ && _) = true => let H1 := fresh in apply andb_true_iff in Hw as [Hw H1]
           end;
    repeat match goal with
           | H : (_ =? _)%nat = true |- _ => apply Nat.eqb_eq in H
           | H : (_ && _) = true |- _ => let H1 := fresh in apply andb_true_iff in H as [H H1]
           | H : (_ || _) = true |- _ => apply orb_true_iff in H as [H|H]
           | H : (_ <=? _)%nat = true |- _ => apply Nat.leb_le in H
           end;
    repeat split; apply andb_true_iff || apply andb_false_iff;
    rewrite ?Nat.leb_le, ?Nat.leb_gt; lia.
Qed.

Lemma isWhiteSpace_byte a : isWhiteSpace a = true -> isContinuation a = false.
Proof.
  unfold isWhiteSpace, isContinuation. cbv zeta. intros Hw.
  apply andb_false_iff. left. apply Nat.leb_gt.
  apply orb_true_iff in Hw as [Hw|Hw].
  - apply andb_true_iff in Hw as [_ Hw]. apply Nat.leb_le in Hw. lia.
  - apply Nat.eqb_eq in Hw. lia.
Qed.

(** White space starts with no continuation byte. *)
Lemma skipWhite_lead a s r : skipWhite (String a s) = Some r -> isContinuation a = false.
Proof.
  cbn [skipWhite]. destruct (isWhiteSpace a) eqn:E1; [intros _; apply isWhiteSpace_byte, E1|].
  destruct s as [|b s]; [discriminate|].
  destruct (isWhiteSpace2 a b) eqn:E2; [intros _; apply (isWhiteSpace2_bytes a b E2)|].
  destruct s as [|c s]; [discriminate|].
  destruct (isWhiteSpace3 a b c) eqn:E3; [intros _; apply (isWhiteSpace3_bytes a b c E3)|].
  discriminate.
Qed.

(** Text that starts with no white space does not start with any when
    more text follows, unless that text completes a code point. *)
Lemma skipWhite_app_None s w :
  skipWhite s = None -> s <> "" -> freshStart w -> skipWhite (s ++ w) = None.
Proof.
  intros Hs Hne Hw. destruct s as [|a [|b [|c s]]]; [congruence| | |].
  - cbn [skipWhite] in Hs. destruct (isWhiteSpace a) eqn:E1; [discriminate|].
    rewrite append_cons_string. change ("" ++ w) with w. cbn [skipWhite]. rewrite E1.
    destruct w as [|x w]; [reflexivity|]. simpl in Hw.
    destruct (isWhiteSpace2 a x) eqn:E2;
      [destruct (isWhiteSpace2_bytes a x E2); congruence|].
    destruct w as [|y w]; [reflexivity|].
    destruct (isWhiteSpace3 a x y) eqn:E3;
      [destruct (isWhiteSpace3_bytes a x y E3) as (_ & ? & _); congruence|reflexivity].
  - cbn [skipWhite] in Hs. destruct (isWhiteSpace a) eqn:E1; [discriminate|].
    destruct (isWhiteSpace2 a b) eqn:E2; [discriminate|].
    rewrite !append_cons_string. change ("" ++ w) with w. cbn [skipWhite].
    rewrite E1, E2.
    destruct w as [|x w]; [reflexivity|]. simpl in Hw.
    destruct (isWhiteSpace3 a b x) eqn:E3;
      [destruct (isWhiteSpace3_bytes a b x E3) as (_ & _ & ?); congruence|reflexivity].
  - cbn [skipWhite] in Hs. rewrite !append_cons_string. cbn [skipWhite].
    destruct (isWhiteSpace a); [discriminate|].
    destruct (isWhiteSpace2 a b); [discriminate|].
    destruct (isWhiteSpace3 a b c); [discriminate|reflexivity].
Qed.

Lemma trimStart_clean s : startsClean (trimStart s).
Proof.
  induction s as [s IH] using skipWhite_ind. rewrite trimStart_eq.
  destruct (skipWhite s) as [r|] eqn:E; [apply IH; reflexivity|exact E].
Qed.

Lemma trimStart_of_clean s : startsClean s -> trimStart s = s.
Proof. unfold startsClean. intros Hs. rewrite trimStart_eq, Hs. reflexivity. Qed.

Lemma whiteOnly_true s : whiteOnly s = true <-> trimStart s = "".
Proof. apply String.eqb_eq. Qed.

Lemma whiteOnly_freshStart w : trimStart w = "" -> freshStart w.
Proof.
  destruct w as [|x w]; [intros _; exact I|]. rewrite trimStart_eq.
  destruct (skipWhite (String x w)) as [r|] eqn:E; [|discriminate].
  intros _. apply (skipWhite_lead x w r E).
Qed.

(** White space at the front goes, whatever follows. *)
Lemma trimStart_app_white_l a s : trimStart a = "" -> trimStart (a ++ s) = trimStart s.
Proof.
  induction a as [a IH] using skipWhite_ind. intros Ha. rewrite trimStart_eq in Ha.
  destruct (skipWhite a) as [r|] eqn:E.
  - rewrite (trimStart_eq (a ++ s)), (skipWhite_app a r s E). apply IH; [reflexivity|exact Ha].
  - subst a. reflexivity.
Qed.

(** White space at the end stays when other text comes before it. *)
Lemma trimStart_app_white_r s w :
  trimStart w = "" ->
  exists w', trimStart w' = "" /\ trimStart (s ++ w) = trimStart s ++ w'.
Proof.
  intros Hw. induction s as [s IH] using skipWhite_ind. rewrite (trimStart_eq s).
  destruct (skipWhite s) as [r|] eqn:E.
  - destruct (IH r eq_refl) as (w' & Hw' & Heq). exists w'. split; [exact Hw'|].
    rewrite trimStart_eq, (skipWhite_app s r w E). exact Heq.
  - destruct s as [|a s].
    + exists "". split; [reflexivity|]. exact Hw.
    + exists w. split; [exact Hw|]. apply trimStart_of_clean.
      apply skipWhite_app_None; [exact E|discriminate|apply whiteOnly_freshStart, Hw].
Qed.

Lemma whiteOnly_app s w : trimStart w = "" -> whiteOnly (s ++ w) = whiteOnly s.
Proof.
  intros Hw. unfold whiteOnly. destruct (trimStart s) as [|c r] eqn:Es.
  - rewrite (trimStart_app_white_l s w Es), Hw. reflexivity.
  - destruct (trimStart_app_white_r s w Hw) as (w' & _ & ->). rewrite Es. reflexivity.
Qed.

Lemma trimEnd_cons c s :
  trimEnd (String c s) = if whiteOnly (String c s) then "" else String c (trimEnd s).
Proof. reflexivity. Qed.

Lemma trimEnd_white w : trimStart w = "" -> trimEnd w = "".
Proof.
  destruct w as [|c w]; [reflexivity|]. intros Hw.
  rewrite trimEnd_cons. unfold whiteOnly. rewrite Hw. reflexivity.
Qed.

(** White space at the end goes. *)
Lemma trimEnd_app_white s w : trimStart w = "" -> trimEnd (s ++ w) = trimEnd s.
Proof.
  intros Hw. induction s as [|c s IH]; [apply trimEnd_white, Hw|].
  rewrite append_cons_string, !trimEnd_cons, <- append_cons_string.
  rewrite (whiteOnly_app (String c s) w Hw), IH. reflexivity.
Qed.

(** What [trimEnd] drops is white space. *)
Lemma trimEnd_split s : exists w, s = trimEnd s ++ w /\ trimStart w = "".
Proof.
  induction s as [|c s (w & Hs & Hw)]; [exists ""; split; reflexivity|].
  rewrite trimEnd_cons. destruct (whiteOnly (String c s)) eqn:E.
  - exists (String c s). split; [reflexivity|apply whiteOnly_true, E].
  - exists w. split; [rewrite append_cons_string; f_equal; exact Hs|exact Hw].
Qed.

Lemma trimEnd_idem s : trimEnd (trimEnd s) = trimEnd s.
Proof.
  destruct (trimEnd_split s) as (w & Hs & Hw).
  transitivity (trimEnd (trimEnd s ++ w)); [symmetry; apply trimEnd_app_white, Hw|].
  rewrite <- Hs. reflexivity.
Qed.

Lemma trimEnd_clean s : startsClean s -> startsClean (trimEnd s).
Proof.
  unfold startsClean. intros Hs. destruct (trimEnd_split s) as (w & Hsplit & _).
  destruct (skipWhite (trimEnd s)) as [r|] eqn:E; [|reflexivity].
  apply (skipWhite_app _ _ w) in E. rewrite <- Hsplit in E. congruence.
Qed.

Lemma trim_idem s : trim (trim s) = trim s.
Proof.
  unfold trim. rewrite (trimStart_of_clean (trimEnd (trimStart s))).
  - apply trimEnd_idem.
  - apply trimEnd_clean, trimStart_clean.
Qed.

Lemma trim_fixed s :
  trimStart (trim s) = trim s /\ trimEnd (trim s) = trim s.
Proof.
  unfold trim. split.
  - apply trimStart_of_clean, trimEnd_clean, trimStart_clean.
  - apply trimEnd_idem.
Qed.

(** Text that [trimEnd] leaves alone ends with no white space. *)
Lemma trimEnd_fixed_end s front w :
  trimEnd s = s -> s = front ++ w -> trimStart w = "" -> w = "".
Proof.
  intros Hfix Hs Hw. destruct (trimEnd_split front) as (w0 & Hfront & _).
  assert (Hlen : String.length s = String.length (trimEnd front)).
  { rewrite <- Hfix at 1. rewrite Hs, (trimEnd_app_white front w Hw). reflexivity. }
  apply (f_equal String.length) in Hfront.
  rewrite Hs in Hlen. rewrite length_append_string in Hlen, Hfront.
  destruct w; [reflexivity|simpl in Hlen; lia].
Qed.

(** White space around a text does not change what [trim] gives. *)
Lemma trim_padding a s b :
  trimStart a = "" -> trimStart b = "" -> trim (a ++ s ++ b) = trim s.
Proof.
  intros Ha Hb. unfold trim. rewrite (trimStart_app_white_l a _ Ha).
  destruct (trimStart_app_white_r s b Hb) as (b' & Hb' & ->).
  apply trimEnd_app_white, Hb'.
Qed.

Lemma trim_white s : whiteOnly s = true -> trim s = "".
Proof. intros Hs. apply whiteOnly_true in Hs. unfold trim. rewrite Hs. reflexivity. Qed.

(** A byte of ASCII that is no white space is at no end of any. *)
Lemma skipWhite_ascii a s :
  isWhiteSpace a = false -> (nat_of_ascii a < 128)%nat -> skipWhite (String a s) = None.
Proof.
  intros Hw Ha. destruct (skipWhite (String a s)) as [r|] eqn:E; [|reflexivity].
  exfalso. revert E. cbn [skipWhite]. rewrite Hw.
  destruct s as [|b s]; [discriminate|].
  destruct (isWhiteSpace2 a b) eqn:E2.
  { unfold isWhiteSpace2 in E2. apply andb_true_iff in E2 as [E2 _].
    apply Nat.eqb_eq in E2. lia. }
  destruct s as [|c s]; [discriminate|].
  destruct (isWhiteSpace3 a b c) eqn:E3; [|discriminate].
  unfold isWhiteSpace3 in E3. cbv zeta in E3.
  repeat (apply orb_true_iff in E3 as [E3|E3]);
    repeat match type of E3 with
           | (_ && _) = true => apply andb_true_iff in E3 as [E3 _]
           end;
    apply Nat.eqb_eq in E3; lia.
Qed.

Lemma trimStart_snoc_ascii s c :
  isWhiteSpace c = false -> (nat_of_ascii c < 128)%nat -> trimStart (s ++ String c "") <> "".
Proof.
  intros Hw Hc. induction s as [s IH] using skipWhite_ind. rewrite trimStart_eq.
  destruct (skipWhite s) as [r|] eqn:E.
  - rewrite (skipWhite_app s r _ E). apply IH. reflexivity.
  - destruct s as [|a s].
    + change ("" ++ String c "") with (String c "").
      rewrite (skipWhite_ascii c "" Hw Hc). discriminate.
    + rewrite skipWhite_app_None; [discriminate|exact E|discriminate|].
      simpl. unfold isContinuation. cbv zeta. apply andb_false_iff. left.
      apply Nat.leb_gt. exact Hc.
Qed.

Lemma trimEnd_app_clean s c :
  isWhiteSpace c = false -> (nat_of_ascii c < 128)%nat ->
  trimEnd (s ++ String c "") = s ++ String c "".
Proof.
  intros Hw Hc. induction s as [|x s IH].
  - change ("" ++ String c "") with (String c ""). rewrite trimEnd_cons.
    destruct (whiteOnly (String c "")) eqn:E; [|reflexivity].
    apply whiteOnly_true in E. exfalso. apply (trimStart_snoc_ascii "" c Hw Hc E).
  - rewrite append_cons_string, trimEnd_cons, IH.
    destruct (whiteOnly (String x (s ++ String c ""))) eqn:E; [|reflexivity].
    apply whiteOnly_true in E. exfalso.
    apply (trimStart_snoc_ascii (String x s) c Hw Hc E).
Qed.

(** One-byte white space only is white space only. *)
Lemma allChars_white a : allChars isWhiteSpace a = true -> trimStart a = "".
Proof.
  induction a as [|c a IH]; [reflexivity|]. cbn [allChars trimStart].
  intros Ha. apply andb_true_iff in Ha as [-> Ha]. exact (IH Ha).
Qed.

End TrimFacts.

(** ** gpt.js: [generateMessage] (C9) *)

Section GptFacts.
Context {W : Type} `{Host W}.

Lemma completionText_trimmed completion text :
  completionText completion = Some text -> exists raw, text = trim raw.
Proof.
  unfold completionText. intros Ht.
  destruct completion as [c|]; [|discriminate]. simpl in Ht.
  destruct (choices c) as [cs|]; [|discriminate]. simpl in Ht.
  destruct (head cs) as [c0|]; [|discriminate]. simpl in Ht.
  destruct (choice_message c0) as [m|]; [|discriminate]. simpl in Ht.
  destruct (content m) as [raw|]; [|discriminate]. simpl in Ht.
  exists raw. congruence.
Qed.

(** The state after the request was sent and answered with world [w]. *)
Lemma generateMessage_sent prompt options (st : St W) :
  falsy prompt = false -> isString prompt = true ->
  absent (OPENAI_API_KEY host_env) = false ->
  generateMessage prompt options st
  = let '(r, w) := chat_completions_create (chatRequest prompt options) (world st) in
    let st' := {| world := w; files := files st;
                  trace := (trace st ++ [ChatCreate (chatRequest prompt options)])%list |} in
    match r with
    | Throw e => (Throw e, st')
    | Ok completion =>
        match completionText completion with
        | None => (Throw {| message := "모델이 유효한 응답을 반환하지 않았습니다." |}, st')
        | Some text =>
            if String.eqb text ""
            then (Throw {| message := "모델이 유효한 응답을 반환하지 않았습니다." |}, st')
            else (Ok text, st')
        end
    end.
Proof.
  intros Hf Hs Hk. unfold generateMessage. rewrite Hf, Hs, Hk. simpl.
  unfold mbind, M_bind, call.
  destruct (chat_completions_create (chatRequest prompt options) (world st)) as [[c|e] w];
    [|reflexivity].
  destruct (completionText c) as [text|]; [|reflexivity].
  destruct (String.eqb text ""); reflexivity.
Qed.

Lemma generateMessage_bad_prompt prompt options (st : St W) :
  falsy prompt = true \/ isString prompt = false ->
  generateMessage prompt options st
  = (Throw {| message := "prompt는 문자열이어야 합니다." |}, st).
Proof.
  intros Hbad. unfold generateMessage.
  replace (falsy prompt || negb (isString prompt)) with true; [reflexivity|].
  symmetry. apply orb_true_iff. destruct Hbad as [->| ->]; [left|right]; reflexivity.
Qed.

Lemma generateMessage_no_key prompt options (st : St W) :
  falsy prompt = false -> isString prompt = true ->
  absent (OPENAI_API_KEY host_env) = true ->
  generateMessage prompt options st
  = (Throw {| message := "환경변수 OPENAI_API_KEY가 설정되어 있지 않습니다." |}, st).
Proof.
  intros Hf Hs Hk. unfold generateMessage. rewrite Hf, Hs, Hk. reflexivity.
Qed.

Lemma generateMessage_ok_inv prompt options (st : St W) text st' :
  generateMessage prompt options st = (Ok text, st') ->
  exists completion raw,
    chat_completions_create (chatRequest prompt options) (world st)
    = (Ok completion, world st') /\
    completionText completion = Some text /\ text <> "" /\ text = trim raw.
Proof.
  intros Hrun.
  destruct (falsy prompt) eqn:Hf;
    [rewrite generateMessage_bad_prompt in Hrun by (left; exact Hf); discriminate|].
  destruct (isString prompt) eqn:Hs;
    [|rewrite generateMessage_bad_prompt in Hrun by (right; exact Hs); discriminate].
  destruct (absent (OPENAI_API_KEY host_env)) eqn:Hk;
    [rewrite generateMessage_no_key in Hrun by assumption; discriminate|].
  rewrite generateMessage_sent in Hrun by assumption.
  destruct (chat_completions_create (chatRequest prompt options) (world st))
    as [[c|e] w] eqn:Hcall; [|discriminate].
  destruct (completionText c) as [t|] eqn:Htext; [|discriminate].
  destruct (String.eqb_spec t "") as [|Hne]; [discriminate|].
  injection Hrun as <- <-.
  destruct (completionText_trimmed c t Htext) as [raw Hraw].
  exists c, raw. simpl. repeat split; assumption.
Qed.

End GptFacts.

(** C9.  [generateMessage] resolves only to a text that is not empty, is
    not made of white space only, and has no white space at its front nor
    at its end, white space being all that [trim] strips, in ASCII and
    beyond: it is the trimmed content of the first choice of the
    completion.  It throws when the prompt is missing, empty or not a
    string (before anything is sent), when OPENAI_API_KEY is unset or
    empty, and when the completion holds no content or content of white
    space only. *)
Theorem generateMessage_never_blank {W : Type} `{Host W}
    (prompt : JsValue) (options : Options) (st : St W) :
  (forall text st',
     generateMessage prompt options st = (Ok text, st') ->
     text <> "" /\ whiteOnly text = false /\
     skipWhite text = None /\
     (forall front w, text = front ++ w -> whiteOnly w = true -> w = "") /\
     trimStart text = text /\ trimEnd text = text /\
     exists completion raw,
       chat_completions_create (chatRequest prompt options) (world st)
       = (Ok completion, world st') /\
       completionText completion = Some text /\ text = trim raw) /\
  (falsy prompt = true \/ isString prompt = false ->
   generateMessage prompt options st
   = (Throw {| message := "prompt는 문자열이어야 합니다." |}, st)) /\
  (absent (OPENAI_API_KEY host_env) = true ->
   exists e, generateMessage prompt options st = (Throw e, st)) /\
  (forall completion w,
     falsy prompt = false -> isString prompt = true ->
     absent (OPENAI_API_KEY host_env) = false ->
     chat_completions_create (chatRequest prompt options) (world st) = (Ok completion, w) ->
     completionText completion = None \/
     (exists raw, completionText completion = Some (trim raw) /\ whiteOnly raw = true) ->
     (generateMessage prompt options st).1
     = Throw {| message := "모델이 유효한 응답을 반환하지 않았습니다." |}).
Proof.
  split; [|split; [|split]].
  - intros text st' Hrun.
    destruct (generateMessage_ok_inv prompt options st text st' Hrun)
      as (c & raw & Hcall & Htext & Hne & ->).
    destruct (trim_fixed raw) as [Hstart Hend].
    split; [exact Hne|].
    split; [unfold whiteOnly; rewrite Hstart; destruct (String.eqb_spec (trim raw) "");
            [contradiction|reflexivity]|].
    split; [apply trimEnd_clean, trimStart_clean|].
    split; [intros front w Hsplit Hw;
            apply (trimEnd_fixed_end (trim raw) front w Hend Hsplit), whiteOnly_true, Hw|].
    split; [exact Hstart|]. split; [exact Hend|].
    exists c, raw. repeat split; assumption.
  - apply generateMessage_bad_prompt.
  - intros Hk. destruct (falsy prompt) eqn:Hf;
      [eexists; apply generateMessage_bad_prompt; left; exact Hf|].
    destruct (isString prompt) eqn:Hs;
      [|eexists; apply generateMessage_bad_prompt; right; exact Hs].
    eexists. apply generateMessage_no_key; assumption.
  - intros completion w Hf Hs Hk Hcall Hnone.
    rewrite generateMessage_sent by assumption. rewrite Hcall.
    destruct Hnone as [-> | (raw & -> & Hraw)]; [reflexivity|].
    rewrite (trim_white raw Hraw). reflexivity.
Qed.

(** Two runs of [generateMessage]: an answer padded with a no-break space
    in front and an ideographic space and a line feed behind comes back
    without them; an answer of a no-break space and U+FEFF only is refused. *)
Lemma generateMessage_never_blank_witness :
  (@generateMessage nat (Faulty.answering (NBSP ++ "summary" ++ IDSP ++ LF))
     (VString "hello") noOptions Sample.start).1
  = Ok "summary" /\
  whiteOnly "summary" = false /\
  (@generateMessage nat (Faulty.answering (NBSP ++ BOM))
     (VString "hello") noOptions Sample.start).1
  = Throw {| message := "모델이 유효한 응답을 반환하지 않았습니다." |}.
Proof.
  split; [reflexivity|].
  destruct (@generateMessage_never_blank nat
              (Faulty.answering (NBSP ++ "summary" ++ IDSP ++ LF))
              (VString "hello") noOptions Sample.start) as [Hok _].
  destruct (Hok "summary" _ eq_refl) as (_ & Hwhite & _).
  split; [exact Hwhite|].
  destruct (@generateMessage_never_blank nat (Faulty.answering (NBSP ++ BOM))
              (VString "hello") noOptions Sample.start) as (_ & _ & _ & Hblank).
  apply (Hblank _ 1%nat eq_refl eq_refl eq_refl eq_refl).
  right. exists (NBSP ++ BOM). split; reflexivity.
Defined.

(** ** The loops over commits and over dates *)

Section LoopFacts.
Context {W : Type} `{Host W}.

Lemma writesOf_app a b : writesOf (a ++ b) = (writesOf a ++ writesOf b)%list.
Proof.
  induction a as [|ev a IH]; [reflexivity|].
  destruct ev; simpl; rewrite IH; reflexivity.
Qed.

Lemma consoleErrors_app a b :
  consoleErrors (a ++ b) = (consoleErrors a ++ consoleErrors b)%list.
Proof.
  induction a as [|ev a IH]; [reflexivity|].
  destruct ev; simpl; rewrite IH; reflexivity.
Qed.

Lemma chatCalls_app a b : chatCalls (a ++ b) = (chatCalls a ++ chatCalls b)%list.
Proof.
  induction a as [|ev a IH]; [reflexivity|].
  destruct ev; simpl; rewrite IH; reflexivity.
Qed.

(** [generateMessage] answers from the world alone and only adds to the trace. *)
Lemma generateMessage_frame prompt options (st : St W) :
  exists evs,
    generateMessage prompt options st
    = ((generateMessage prompt options (startOf (world st))).1,
       advance st (world (generateMessage prompt options (startOf (world st))).2) evs) /\
    writesOf evs = [] /\ consoleErrors evs = [].
Proof.
  destruct (falsy prompt) eqn:Hf.
  { exists []. rewrite !generateMessage_bad_prompt by (left; exact Hf).
    simpl. rewrite advance_nil. auto. }
  destruct (isString prompt) eqn:Hs.
  2:{ exists []. rewrite !generateMessage_bad_prompt by (right; exact Hs).
      simpl. rewrite advance_nil. auto. }
  destruct (absent (OPENAI_API_KEY host_env)) eqn:Hk.
  { exists []. rewrite !generateMessage_no_key by assumption.
    simpl. rewrite advance_nil. auto. }
  exists [ChatCreate (chatRequest prompt options)].
  rewrite !generateMessage_sent by assumption. simpl.
  destruct (chat_completions_create (chatRequest prompt options) (world st)) as [[c|e] w];
    [|auto].
  destruct (completionText c) as [t|]; [|auto].
  destruct (String.eqb t ""); auto.
Qed.

Lemma summarize_run repo commit (st : St W) :
  exists evs,
    summarize repo commit st
    = ((outcome repo commit (world st)).1,
       advance st (outcome repo commit (world st)).2 evs) /\
    writesOf evs = [] /\ consoleErrors evs = [].
Proof.
  unfold outcome, summarize, mbind, M_bind, call. simpl.
  destruct (git_show repo (showArgs commit) (world st)) as [[showResult|e] w1].
  - set (st1 := {| world := w1; files := files st;
                   trace := (trace st ++ [GitShow repo (showArgs commit)])%list |}).
    set (st0 := {| world := w1; files := ∅; trace := [GitShow repo (showArgs commit)] |}).
    destruct (generateMessage_frame (VString (summaryPrompt showResult)) noOptions st1)
      as (evs1 & Hrun1 & Hw1 & He1).
    destruct (generateMessage_frame (VString (summaryPrompt showResult)) noOptions st0)
      as (evs0 & Hrun0 & _ & _).
    change (world st1) with w1 in Hrun1. change (world st0) with w1 in Hrun0.
    exists (GitShow repo (showArgs commit) :: evs1).
    rewrite Hrun1, Hrun0.
    destruct (generateMessage (VString (summaryPrompt showResult)) noOptions (startOf w1))
      as [r s]. simpl.
    split; [|split; assumption].
    unfold advance, st1. simpl. rewrite <- app_assoc. reflexivity.
  - exists [GitShow repo (showArgs commit)]. simpl. auto.
Qed.

Lemma outcomes_length repo commits (w : W) :
  length (outcomes repo commits w).1 = length commits.
Proof.
  revert w. induction commits as [|c cs IH]; intros w; simpl; [reflexivity|].
  destruct (outcome repo c w) as [r w1]. specialize (IH w1).
  destruct (outcomes repo cs w1) as [rs w2]. simpl in *. rewrite IH. reflexivity.
Qed.

(** The loop over the commits of a day never throws: it returns the report
    extended by one entry per commit, by the results of the summaries. *)
Lemma commitLoop_run repo commits i report (st : St W) :
  exists evs,
    commitLoop repo i commits report st
    = (Ok (report ++ joinAll (entriesFrom i commits (outcomes repo commits (world st)).1)),
       advance st (outcomes repo commits (world st)).2 evs) /\
    writesOf evs = [] /\
    consoleErrors evs = commitErrors commits (outcomes repo commits (world st)).1.
Proof.
  revert i report st. induction commits as [|c cs IH]; intros i report st.
  - exists []. simpl. rewrite advance_nil, append_nil_r_string. auto.
  - cbn [commitLoop outcomes]. unfold mbind, M_bind, try_catch, console_log.
    rewrite emit_run.
    destruct (summarize_run repo c (printed st
                [ConsoleLog ("  처리 중: " ++ substring 0 7 (hash c) ++ " - " ++ subject c)]))
      as (evs1 & Hsum & Hw1 & He1).
    change (world (printed st _)) with (world st) in Hsum. rewrite Hsum.
    destruct (outcome repo c (world st)) as [[text|e] w1]; simpl.
    + match goal with
      | |- context [commitLoop repo (S i) cs ?r ?s] =>
          destruct (IH (S i) r s) as (evs2 & Hloop & Hw2 & He2)
      end.
      simpl in Hloop, He2. rewrite Hloop.
      destruct (outcomes repo cs w1) as [rs w2]. simpl in *.
      eexists. split; [|split].
      * unfold printed. rewrite !advance_advance, append_assoc_string. reflexivity.
      * rewrite writesOf_app, writesOf_app, Hw1, Hw2. reflexivity.
      * rewrite !consoleErrors_app, He1, He2. reflexivity.
    + match goal with
      | |- context [commitLoop repo (S i) cs ?r ?s] =>
          destruct (IH (S i) r s) as (evs2 & Hloop & Hw2 & He2)
      end.
      simpl in Hloop, He2. rewrite Hloop.
      destruct (outcomes repo cs w1) as [rs w2]. simpl in *.
      exists (ConsoleLog ("  처리 중: " ++ substring 0 7 (hash c) ++ " - " ++ subject c)
              :: evs1
              ++ ConsoleError ("커밋 " ++ hash c ++ " 처리 중 오류:") (Some e) :: evs2)%list.
      split; [|split].
      * f_equal; [rewrite append_assoc_string; reflexivity|].
        unfold advance. simpl. f_equal. rewrite <- !app_assoc. reflexivity.
      * simpl. rewrite writesOf_app, Hw1. simpl. exact Hw2.
      * simpl. rewrite consoleErrors_app, He1. simpl. rewrite He2. reflexivity.
Qed.

End LoopFacts.

Section DateLoopFacts.
Context {W : Type} `{Host W}.

(** One day: the commits are summarised, the report is assembled and one
    write is tried; a failed write is printed and swallowed. *)
Lemma processDate_run repo date commits (st : St W) :
  let rs := (outcomes repo commits (world st)).1 in
  let w1 := (outcomes repo commits (world st)).2 in
  let report := assemble date commits rs in
  let path := path_join repo (reportFileName date) in
  let err := (fs_write_error path report w1).1 in
  let w2 := (fs_write_error path report w1).2 in
  exists evs,
    processDate repo (date, commits) st
    = (Ok tt,
       {| world := w2;
          files := match err with
                   | None => <[path := report]> (files st)
                   | Some _ => files st
                   end;
          trace := (trace st ++ evs)%list |}) /\
    writesOf evs = [(path, report)] /\
    consoleErrors evs
    = (commitErrors commits rs
       ++ match err with
          | None => []
          | Some e => [((date ++ " 리포트 저장 중 오류:")%string, Some e)]
          end)%list.
Proof.
  intros rs w1 report path err w2.
  unfold processDate, mbind, M_bind, console_log. rewrite emit_run.
  destruct (commitLoop_run repo commits 0 (reportHeader date (length commits))
              (printed st [ConsoleLog (LF ++ "==== " ++ date ++ " 커밋 처리 중 ("
                                       ++ numberToString (length commits) ++ "개) ====")]))
    as (evs1 & Hloop & Hw1 & He1).
  change (world (printed st _)) with (world st) in Hloop, He1.
  rewrite Hloop. fold rs w1 in He1 |- *. fold (assemble date commits rs). fold report path.
  unfold try_catch, mbind, M_bind, writeFileSync. simpl.
  unfold err, w2. destruct (fs_write_error path report w1) as [[e|] w]; simpl.
  - eexists. split; [|split].
    + unfold advance, printed, console_error, emit. simpl.
      rewrite <- !app_assoc. simpl. reflexivity.
    + simpl. rewrite !writesOf_app, Hw1. reflexivity.
    + simpl. rewrite !consoleErrors_app, He1. reflexivity.
  - eexists. split; [|split].
    + unfold advance, printed, console_log, emit. simpl.
      rewrite <- !app_assoc. simpl. reflexivity.
    + simpl. rewrite !writesOf_app, Hw1. reflexivity.
    + simpl. rewrite !consoleErrors_app, He1. simpl. rewrite ?app_nil_r. reflexivity.
Qed.

(** The loop over the dates never throws, whatever the collaborators
    answer: every day is summarised and its write is tried, in order. *)
Lemma forEachDate_run repo (entries : Buckets) (st : St W) :
  let days := (batchOutcomes repo entries (world st)).1 in
  exists evs,
    forEachDate repo entries st
    = (Ok tt,
       {| world := (batchOutcomes repo entries (world st)).2;
          files := filesAfter repo days (files st);
          trace := (trace st ++ evs)%list |}) /\
    writesOf evs = map (fun d => (day_path repo d, day_report d)) days /\
    consoleErrors evs = concat (map dayErrors days).
Proof.
  revert st. induction entries as [|[date commits] entries IH]; intros st days.
  - exists []. simpl. rewrite app_nil_r. destruct st. auto.
  - cbn [forEachDate]. unfold mbind, M_bind.
    destruct (processDate_run repo date commits st) as (evs1 & Hday & Hw1 & He1).
    rewrite Hday. clear Hday.
    unfold days. cbn [batchOutcomes].
    destruct (outcomes repo commits (world st)) as [rs w1]. simpl in *.
    destruct (fs_write_error (path_join repo (reportFileName date)) (assemble date commits rs) w1)
      as [err w2]. simpl in *.
    match goal with
    | |- context [forEachDate repo entries ?s] =>
        destruct (IH s) as (evs2 & Hrest & Hw2 & He2)
    end.
    simpl in Hrest, Hw2, He2. rewrite Hrest.
    destruct (batchOutcomes repo entries w2) as [ds w3]. simpl in *.
    exists (evs1 ++ evs2)%list. split; [|split].
    + rewrite <- app_assoc. unfold filesAfter, day_path, day_report. simpl.
      destruct err; reflexivity.
    + rewrite writesOf_app, Hw1, Hw2. reflexivity.
    + rewrite consoleErrors_app, He1, He2. unfold dayErrors at 2. simpl. reflexivity.
Qed.

(** The days of a batch are the buckets, each with one result per commit. *)
Lemma batchOutcomes_days repo (entries : Buckets) (w : W) :
  let days := (batchOutcomes repo entries w).1 in
  map day_date days = entries.*1 /\
  map day_commits days = entries.*2 /\
  Forall (fun d => length (day_results d) = length (day_commits d)) days.
Proof.
  revert w. induction entries as [|[date commits] entries IH]; intros w days.
  - simpl. auto.
  - unfold days. cbn [batchOutcomes].
    pose proof (outcomes_length repo commits w) as Hlen.
    destruct (outcomes repo commits w) as [rs w1].
    destruct (fs_write_error (path_join repo (reportFileName date)) (assemble date commits rs) w1)
      as [err w2].
    destruct (IH w2) as (Hd & Hc & Hl).
    destruct (batchOutcomes repo entries w2) as [ds w3]. simpl in *.
    rewrite Hd, Hc. repeat split. constructor; [exact Hlen|exact Hl].
Qed.

(** The path of each day is named from the date of its bucket. *)
Lemma batchOutcomes_paths repo (entries : Buckets) (w : W) :
  map (day_path repo) (batchOutcomes repo entries w).1
  = map (fun b => path_join repo ("commit-report-" ++ b.1 ++ ".md")) entries.
Proof.
  revert w. induction entries as [|[date commits] entries IH]; intros w; [reflexivity|].
  cbn [batchOutcomes].
  destruct (outcomes repo commits w) as [rs w1].
  destruct (fs_write_error (path_join repo (reportFileName date)) (assemble date commits rs) w1)
    as [err w2].
  specialize (IH w2). destruct (batchOutcomes repo entries w2) as [ds w3].
  simpl in *. rewrite IH. reflexivity.
Qed.

End DateLoopFacts.

(** ** The whole run *)

Section MainFacts.
Context {W : Type} `{Host W}.

Lemma writesOf_logs lines : writesOf (map ConsoleLog lines) = [].
Proof. induction lines as [|l lines IH]; [reflexivity|exact IH]. Qed.

Lemma consoleErrors_logs lines : consoleErrors (map ConsoleLog lines) = [].
Proof. induction lines as [|l lines IH]; [reflexivity|exact IH]. Qed.

Lemma chatCalls_logs lines : chatCalls (map ConsoleLog lines) = [].
Proof. induction lines as [|l lines IH]; [reflexivity|exact IH]. Qed.

(** A run whose window is accepted and whose listing returns commits that
    group into [buckets]: the run ends normally after the loop over the
    dates. *)
Lemma main_fetched answers (st : St W) found w1 (buckets : Buckets) :
  checkRange (Date_new host_dateParse (startDate answers))
             (Date_new host_dateParse (endDate answers)) = RangeOk ->
  git_log (gitPath answers) (logOptions answers) (world st)
  = (Ok {| all := Some found |}, w1) ->
  found <> [] ->
  groupByDate found = Ok buckets ->
  let days := (batchOutcomes (gitPath answers) buckets w1).1 in
  exists evs,
    main answers st
    = (Ok tt,
       {| world := (batchOutcomes (gitPath answers) buckets w1).2;
          files := filesAfter (gitPath answers) days (files st);
          trace := (trace st ++ evs)%list |}) /\
    writesOf evs = map (fun d => (day_path (gitPath answers) d, day_report d)) days /\
    consoleErrors evs = concat (map dayErrors days).
Proof.
  intros Hrange Hlog Hne Hgroup days.
  destruct (echoAnswers_run answers st) as [lines Hecho].
  unfold main, try_catch, mbind, M_bind. rewrite Hecho, Hrange.
  unfold console_log, call. rewrite emit_run.
  change (world (printed (printed st _) _)) with (world st). rewrite Hlog.
  destruct found as [|c found]; [congruence|]. cbn [all].
  rewrite emit_run. unfold liftR. rewrite Hgroup.
  match goal with
  | |- context [forEachDate (gitPath answers) buckets ?s] =>
      destruct (forEachDate_run (gitPath answers) buckets s) as (evs & Hloop & Hw & He)
  end.
  rewrite Hloop. simpl in Hw, He. rewrite !emit_run.
  fold days in Hw, He.
  exists (map ConsoleLog lines
          ++ [ConsoleLog (LF ++ "==== 기간 내 커밋 조회 중... ====");
              GitLog (gitPath answers) (logOptions answers);
              ConsoleLog ("총 " ++ numberToString (length (c :: found))
                          ++ "개의 커밋을 찾았습니다.")]
          ++ evs
          ++ [ConsoleLog (LF ++ "==== 모든 처리 완료 ====");
              ConsoleLog "각 날짜별로 마크다운 파일이 생성되었습니다."])%list.
  split; [|split].
  - unfold printed, advance. simpl. rewrite <- !app_assoc. simpl. reflexivity.
  - rewrite !writesOf_app, writesOf_logs, Hw. simpl. rewrite app_nil_r. reflexivity.
  - rewrite !consoleErrors_app, consoleErrors_logs, He. simpl. rewrite app_nil_r. reflexivity.
Qed.

(** A run whose window is accepted and whose listing returns no commit. *)
Lemma main_nothing answers (st : St W) res w1 :
  checkRange (Date_new host_dateParse (startDate answers))
             (Date_new host_dateParse (endDate answers)) = RangeOk ->
  git_log (gitPath answers) (logOptions answers) (world st) = (Ok res, w1) ->
  all res = None \/ all res = Some [] ->
  exists lines,
    main answers st
    = (Ok tt,
       {| world := w1; files := files st;
          trace := (trace st ++ map ConsoleLog lines
                    ++ [GitLog (gitPath answers) (logOptions answers);
                        ConsoleLog "지정된 기간에 커밋이 없습니다."])%list |}).
Proof.
  intros Hrange Hlog Hnone.
  destruct (echoAnswers_run answers st) as [lines Hecho].
  exists (lines ++ [(LF ++ "==== 기간 내 커밋 조회 중... ====")%string])%list.
  unfold main, try_catch, mbind, M_bind. rewrite Hecho, Hrange.
  unfold console_log, call. rewrite emit_run.
  change (world (printed (printed st _) _)) with (world st). rewrite Hlog.
  assert (Hbranch : match all res with
                    | Some (_ :: _) => False
                    | _ => True
                    end) by (destruct Hnone as [-> | ->]; exact I).
  destruct (all res) as [[|c found]|]; try contradiction;
    rewrite emit_run; unfold printed, advance; simpl;
    rewrite map_app, <- !app_assoc; reflexivity.
Qed.

End MainFacts.

(** ** Runs that fetch nothing, and the order of the reports (C8, C10) *)

(** C8.  When the window is accepted and the listing returns no commit, the
    run ends normally after printing that no commit was found: no file is
    written, the completion service is not called and nothing goes to the
    error stream. *)
Theorem no_commits_found {W : Type} `{Host W} (answers : Answers) (st : St W) res w1 :
  checkRange (Date_new host_dateParse (startDate answers))
             (Date_new host_dateParse (endDate answers)) = RangeOk ->
  git_log (gitPath answers) (logOptions answers) (world st) = (Ok res, w1) ->
  all res = None \/ all res = Some [] ->
  exists st',
    main answers st = (Ok tt, st') /\
    last (trace st') = Some (ConsoleLog "지정된 기간에 커밋이 없습니다.") /\
    files st' = files st /\
    writesOf (trace st') = writesOf (trace st) /\
    chatCalls (trace st') = chatCalls (trace st) /\
    consoleErrors (trace st') = consoleErrors (trace st).
Proof.
  intros Hrange Hlog Hnone.
  destruct (main_nothing answers st res w1 Hrange Hlog Hnone) as [lines Hrun].
  eexists. split; [exact Hrun|]. simpl. repeat split.
  - change [GitLog (gitPath answers) (logOptions answers);
            ConsoleLog "지정된 기간에 커밋이 없습니다."]
      with ([GitLog (gitPath answers) (logOptions answers)]
            ++ [ConsoleLog "지정된 기간에 커밋이 없습니다."])%list.
    rewrite !app_assoc. apply last_snoc.
  - rewrite !writesOf_app, writesOf_logs. simpl. rewrite app_nil_r. reflexivity.
  - rewrite !chatCalls_app, chatCalls_logs. simpl. rewrite app_nil_r. reflexivity.
  - rewrite !consoleErrors_app, consoleErrors_logs. simpl. rewrite app_nil_r. reflexivity.
Qed.

(** Witness of C8: the sample host with an empty repository. *)
Lemma no_commits_found_witness :
  exists st',
    @main nat (Sample.host 0 []) Sample.answers Sample.start = (Ok tt, st') /\
    files st' = ∅ /\ writesOf (trace st') = [].
Proof.
  destruct (@no_commits_found nat (Sample.host 0 []) Sample.answers Sample.start
              {| all := Some [] |} 1%nat eq_refl eq_refl (or_intror eq_refl))
    as (st' & Hrun & _ & Hfiles & Hwrites & _).
  exists st'. repeat split; assumption.
Defined.

(** C10.  The buckets, and so the reports, follow the order in which each
    date key first occurs in the fetched list: the run tries the writes of
    the reports in that order, one per key.  The order is a function of the
    list; nothing sorts it by date. *)
Theorem reports_follow_first_occurrence {W : Type} `{Host W}
    (answers : Answers) (st : St W) found w1 keys :
  checkRange (Date_new host_dateParse (startDate answers))
             (Date_new host_dateParse (endDate answers)) = RangeOk ->
  git_log (gitPath answers) (logOptions answers) (world st)
  = (Ok {| all := Some found |}, w1) ->
  found <> [] ->
  Forall2 (fun commit key => commitDateOf commit = Ok key) found keys ->
  exists buckets st',
    groupByDate found = Ok buckets /\
    buckets.*1 = firstOccurrences keys /\
    main answers st = (Ok tt, st') /\
    (writesOf (trace st')).*1
    = ((writesOf (trace st)).*1
       ++ map (fun key => path_join (gitPath answers) (reportFileName key))
              (firstOccurrences keys))%list.
Proof.
  intros Hrange Hlog Hne Hkeys.
  pose proof (groupByDate_closed found keys Hkeys) as Hgroup.
  destruct (main_fetched answers st found w1 _ Hrange Hlog Hne Hgroup)
    as (evs & Hrun & Hw & _).
  destruct (batchOutcomes_days (gitPath answers)
              (map (fun k => (k, commitsOn k found)) (firstOccurrences keys)) w1)
    as (Hdates & _ & _).
  assert (Hfst : (map (fun k => (k, commitsOn k found)) (firstOccurrences keys)).*1
                 = firstOccurrences keys).
  { rewrite <- list_fmap_compose. simpl. apply list_fmap_id. }
  eexists _, _. split; [exact Hgroup|]. split; [exact Hfst|]. split; [exact Hrun|].
  simpl. rewrite writesOf_app, fmap_app, Hw. f_equal.
  rewrite <- list_fmap_compose. unfold day_path.
  change (map (fun key => path_join (gitPath answers) (reportFileName key)) (firstOccurrences keys))
    with ((fun key => path_join (gitPath answers) (reportFileName key)) <$> firstOccurrences keys).
  rewrite <- Hfst at 2. rewrite <- Hdates.
  change (map day_date ?l) with (day_date <$> l).
  rewrite <- list_fmap_compose. reflexivity.
Qed.

(** Witness of C10: the five sample commits carry the keys 2024-01-01,
    2024-01-01, 2023-12-31, 2024-01-01, 2024-01-05, and the writes are tried
    for 2024-01-01, 2023-12-31, 2024-01-05 in turn. *)
Lemma reports_follow_first_occurrence_witness :
  exists st',
    @main nat (Sample.host 0 Sample.commits) Sample.answers Sample.start = (Ok tt, st') /\
    (writesOf (trace st')).*1
    = ["/repo/commit-report-2024-01-01.md"; "/repo/commit-report-2023-12-31.md";
       "/repo/commit-report-2024-01-05.md"].
Proof.
  destruct (@reports_follow_first_occurrence nat (Sample.host 0 Sample.commits)
              Sample.answers Sample.start Sample.commits 1%nat
              ["2024-01-01"; "2024-01-01"; "2023-12-31"; "2024-01-01"; "2024-01-05"]
              eq_refl eq_refl ltac:(discriminate)
              ltac:(repeat constructor))
    as (buckets & st' & _ & _ & Hrun & Hw).
  exists st'. split; [exact Hrun|exact Hw].
Defined.

(** ** Reports and their entries (C1, C2, C7) *)

Section ReportFacts.
Context {W : Type} `{Host W}.

Lemma entriesFrom_length i (commits : list Commit) (results : list SummaryResult) :
  length results = length commits ->
  length (entriesFrom i commits results) = length commits.
Proof.
  revert i results. induction commits as [|c cs IH]; intros i [|r rs] Hlen;
    simpl in *; try reflexivity; try discriminate.
  rewrite IH by lia. reflexivity.
Qed.

(** Entry [j] of the list is the entry of commit [j], numbered from [i]. *)
Lemma entriesFrom_lookup i (commits : list Commit) (results : list SummaryResult) j c r :
  commits !! j = Some c -> results !! j = Some r ->
  entriesFrom i commits results !! j = Some (entryOf (i + j) c r).
Proof.
  revert i results j. induction commits as [|c0 cs IH]; intros i [|r0 rs] [|j] Hc Hr;
    simpl in *; try discriminate.
  - injection Hc as ->. injection Hr as ->. rewrite Nat.add_0_r. reflexivity.
  - rewrite (IH (S i) rs j Hc Hr). f_equal. f_equal. lia.
Qed.

(** Every result has its entry, of the form its case calls for. *)
Lemma entriesFrom_forms i (commits : list Commit) (results : list SummaryResult) :
  length results = length commits ->
  Forall2 (fun r entry =>
             match r with
             | Ok text => exists j c, entry = okEntry j c text
             | Throw e => exists j c, entry = errorEntry j c e
             end) results (entriesFrom i commits results).
Proof.
  revert i results. induction commits as [|c cs IH]; intros i [|r rs] Hlen;
    simpl in *; try discriminate; constructor.
  - destruct r; exists i, c; reflexivity.
  - apply IH. lia.
Qed.

Lemma filesAfter_snoc repo (days : list DayOutcome) d (fs : gmap string string) :
  filesAfter repo (days ++ [d]) fs
  = match day_writeError d with
    | None => <[day_path repo d := day_report d]> (filesAfter repo days fs)
    | Some _ => filesAfter repo days fs
    end.
Proof. unfold filesAfter. rewrite foldl_app. reflexivity. Qed.

(** A write that succeeds leaves its report at its path, whatever the path
    held, as long as no other day writes there. *)
Lemma filesAfter_written repo (days : list DayOutcome) (fs : gmap string string) d :
  d ∈ days -> day_writeError d = None ->
  (forall d', d' ∈ days -> day_path repo d' = day_path repo d -> d' = d) ->
  filesAfter repo days fs !! day_path repo d = Some (day_report d).
Proof.
  induction days as [|x days IH] using rev_ind; intros Hin Hok Huniq; [inversion Hin|].
  rewrite filesAfter_snoc.
  destruct (decide (day_path repo x = day_path repo d)) as [Hpath|Hpath].
  - assert (x = d) as -> by (apply Huniq; [apply elem_of_app; right; left|exact Hpath]).
    rewrite Hok. apply lookup_insert_eq.
  - assert (Hin' : d ∈ days).
    { apply elem_of_app in Hin as [Hin|Hin]; [exact Hin|].
      apply list_elem_of_singleton in Hin. congruence. }
    assert (IH' : filesAfter repo days fs !! day_path repo d = Some (day_report d)).
    { apply IH; [exact Hin'|exact Hok|].
      intros d' Hd'. apply Huniq. apply elem_of_app. left. exact Hd'. }
    destruct (day_writeError x); [exact IH'|].
    rewrite lookup_insert_ne by exact Hpath. exact IH'.
Qed.

(** A path at which every write failed holds what it held. *)
Lemma filesAfter_failed repo (days : list DayOutcome) (fs : gmap string string) p :
  (forall d, d ∈ days -> day_path repo d = p -> day_writeError d <> None) ->
  filesAfter repo days fs !! p = fs !! p.
Proof.
  induction days as [|x days IH] using rev_ind; intros Hfail; [reflexivity|].
  rewrite filesAfter_snoc.
  assert (IH' : filesAfter repo days fs !! p = fs !! p).
  { apply IH. intros d Hd. apply Hfail. apply elem_of_app. left. exact Hd. }
  destruct (day_writeError x) eqn:Herr; [exact IH'|].
  rewrite lookup_insert_ne; [exact IH'|].
  intros Hp. apply (Hfail x); [apply elem_of_app; right; left|exact Hp|exact Herr].
Qed.

Lemma concat_day_commits (days : list DayOutcome) (entries : Buckets) :
  map day_commits days = entries.*2 -> concat (map day_commits days) = concat (entries.*2).
Proof. intros ->. reflexivity. Qed.

Lemma length_concat_results (days : list DayOutcome) :
  Forall (fun d => length (day_results d) = length (day_commits d)) days ->
  length (concat (map day_results days)) = length (concat (map day_commits days)).
Proof.
  induction 1 as [|d days Hd _ IH]; [reflexivity|].
  simpl. rewrite !length_app, Hd, IH. reflexivity.
Qed.

End ReportFacts.

Section IsolationFacts.
Context {W : Type} `{Host W}.

(** The days of a batch are its buckets. *)
Lemma batchOutcomes_buckets repo (entries : Buckets) (w : W) :
  map (fun d => (day_date d, day_commits d)) (batchOutcomes repo entries w).1 = entries.
Proof.
  revert w. induction entries as [|[date commits] entries IH]; intros w; [reflexivity|].
  cbn [batchOutcomes].
  destruct (outcomes repo commits w) as [rs w1].
  destruct (fs_write_error (path_join repo (reportFileName date)) (assemble date commits rs) w1)
    as [err w2].
  specialize (IH w2). destruct (batchOutcomes repo entries w2) as [ds w3].
  simpl in *. rewrite IH. reflexivity.
Qed.

(** Each result of a day is the summary of the commit at its place, in the
    world the run had reached. *)
Lemma outcomes_each repo commits (w : W) j c r :
  commits !! j = Some c -> (outcomes repo commits w).1 !! j = Some r ->
  exists w', r = (outcome repo c w').1.
Proof.
  revert w j. induction commits as [|c0 cs IH]; intros w j Hc Hr; [discriminate|].
  cbn [outcomes] in Hr.
  destruct (outcome repo c0 w) as [r0 w1] eqn:E0. specialize (IH w1).
  destruct (outcomes repo cs w1) as [rs w2]. destruct j as [|j]; simpl in *.
  - injection Hc as <-. injection Hr as <-. exists w. rewrite E0. reflexivity.
  - apply (IH j Hc Hr).
Qed.

Lemma batchOutcomes_each repo (entries : Buckets) (w : W) :
  Forall (fun d => forall j c r,
            day_commits d !! j = Some c -> day_results d !! j = Some r ->
            exists w', r = (outcome repo c w').1)
         (batchOutcomes repo entries w).1.
Proof.
  revert w. induction entries as [|[date commits] entries IH]; intros w; [constructor|].
  cbn [batchOutcomes].
  pose proof (outcomes_each repo commits w) as Heach.
  destruct (outcomes repo commits w) as [rs w1].
  destruct (fs_write_error (path_join repo (reportFileName date)) (assemble date commits rs) w1)
    as [err w2].
  specialize (IH w2). destruct (batchOutcomes repo entries w2) as [ds w3].
  simpl in *. constructor; [exact Heach|exact IH].
Qed.

(** The result of a summary, by what the collaborators answer. *)
Lemma outcome_closed repo commit (w : W) :
  (outcome repo commit w).1
  = match git_show repo (showArgs commit) w with
    | (Throw e, _) => Throw e
    | (Ok showResult, w') =>
        if absent (OPENAI_API_KEY host_env)
        then Throw {| message := "환경변수 OPENAI_API_KEY가 설정되어 있지 않습니다." |}
        else
          match chat_completions_create
                  (chatRequest (VString (summaryPrompt showResult)) noOptions) w' with
          | (Throw e, _) => Throw e
          | (Ok completion, _) =>
              match completionText completion with
              | Some text =>
                  if String.eqb text ""
                  then Throw {| message := "모델이 유효한 응답을 반환하지 않았습니다." |}
                  else Ok text
              | None => Throw {| message := "모델이 유효한 응답을 반환하지 않았습니다." |}
              end
          end
    end.
Proof.
  unfold outcome, summarize, mbind, M_bind, call. cbn [world startOf].
  destruct (git_show repo (showArgs commit) w) as [[showResult|e] w']; [|reflexivity].
  destruct (absent (OPENAI_API_KEY host_env)) eqn:Hk.
  - rewrite generateMessage_no_key by (try exact Hk; reflexivity). reflexivity.
  - rewrite generateMessage_sent by (try exact Hk; reflexivity). cbn [world].
    destruct (chat_completions_create _ w') as [[completion|e] w2]; [|reflexivity].
    destruct (completionText completion) as [text|]; [|reflexivity].
    destruct (String.eqb text ""); reflexivity.
Qed.

End IsolationFacts.

(** C1 (amended).  In a run over a fetched list of N commits whose dates
    [new Date] reads as time values, a commit whose summary fails gets an
    error entry in the report of its day and the error goes no further.  A
    summary fails when git show throws, when the API key is missing, when
    the service throws and when the completion holds no text; it succeeds
    with the text of the completion otherwise.  The run ends normally;
    every bucket gets its report, whose entry at the place of a commit is
    the numbered heading with the abbreviated hash followed, for a failed
    summary, by the mark "(오류 발생)" and the message of the error, and for
    a summary that succeeded by the subject line, the summary text and a
    separator.  The reports hold N entries, one per fetched commit, k of
    them error entries, k being the number of summaries that failed. *)
Theorem failures_are_isolated {W : Type} `{Host W}
    (answers : Answers) (st : St W) found w1 :
  checkRange (Date_new host_dateParse (startDate answers))
             (Date_new host_dateParse (endDate answers)) = RangeOk ->
  git_log (gitPath answers) (logOptions answers) (world st)
  = (Ok {| all := Some found |}, w1) ->
  Forall (fun c => is_Some (Date_new host_dateParse (date c))) found ->
  exists buckets st',
    groupByDate found = Ok buckets /\
    main answers st = (Ok tt, st') /\
    let repo := gitPath answers in
    let days := (batchOutcomes repo buckets w1).1 in
    map (fun d => (day_date d, day_commits d)) days = buckets /\
    concat (map day_commits days) ≡ₚ found /\
    writesOf (trace st')
    = (writesOf (trace st)
       ++ map (fun d => (path_join repo ("commit-report-" ++ day_date d ++ ".md"),
                         day_report d)) days)%list /\
    Forall (fun d =>
              day_report d
              = ("# " ++ day_date d ++ " 커밋 리포트" ++ LF ++ LF)
                ++ ("총 " ++ numberToString (length (day_commits d)) ++ "개의 커밋" ++ LF ++ LF)
                ++ joinAll (day_entries d) /\
              length (day_entries d) = length (day_commits d) /\
              length (day_results d) = length (day_commits d) /\
              forall j c r,
                day_commits d !! j = Some c -> day_results d !! j = Some r ->
                (exists w, r = (outcome repo c w).1) /\
                day_entries d !! j
                = Some match r with
                       | Ok text =>
                           "## 커밋 " ++ numberToString (j + 1) ++ ": "
                           ++ substring 0 7 (hash c) ++ LF
                           ++ "**메시지**: " ++ subject c ++ LF ++ LF
                           ++ "### AI 요약" ++ LF ++ text ++ LF ++ LF
                           ++ "---" ++ LF ++ LF
                       | Throw e =>
                           "## 커밋 " ++ numberToString (j + 1) ++ ": "
                           ++ substring 0 7 (hash c) ++ " (오류 발생)" ++ LF
                           ++ "**오류**: " ++ message e ++ LF ++ LF
                       end) days /\
    length (concat (map day_entries days)) = length found /\
    length (concat (map day_results days)) = length found /\
    Forall2 (fun r entry =>
               match r with
               | Ok text =>
                   exists j c,
                     entry = "## 커밋 " ++ numberToString (j + 1) ++ ": "
                             ++ substring 0 7 (hash c) ++ LF
                             ++ "**메시지**: " ++ subject c ++ LF ++ LF
                             ++ "### AI 요약" ++ LF ++ text ++ LF ++ LF
                             ++ "---" ++ LF ++ LF
               | Throw e =>
                   exists j c,
                     entry = "## 커밋 " ++ numberToString (j + 1) ++ ": "
                             ++ substring 0 7 (hash c) ++ " (오류 발생)" ++ LF
                             ++ "**오류**: " ++ message e ++ LF ++ LF
               end)
            (concat (map day_results days)) (concat (map day_entries days)) /\
    (forall c w,
       (outcome repo c w).1
       = match git_show repo (showArgs c) w with
         | (Throw e, _) => Throw e
         | (Ok showResult, w') =>
             if absent (OPENAI_API_KEY host_env)
             then Throw {| message := "환경변수 OPENAI_API_KEY가 설정되어 있지 않습니다." |}
             else
               match chat_completions_create
                       (chatRequest (VString (summaryPrompt showResult)) noOptions) w' with
               | (Throw e, _) => Throw e
               | (Ok completion, _) =>
                   match completionText completion with
                   | Some text =>
                       if String.eqb text ""
                       then Throw {| message := "모델이 유효한 응답을 반환하지 않았습니다." |}
                       else Ok text
                   | None => Throw {| message := "모델이 유효한 응답을 반환하지 않았습니다." |}
                   end
               end
         end).
Proof.
  intros Hrange Hlog Hvalid.
  destruct found as [|c0 found0].
  { destruct (main_nothing answers st _ w1 Hrange Hlog (or_intror eq_refl)) as [lines Hrun].
    exists []. eexists. split; [reflexivity|]. split; [exact Hrun|]. simpl.
    rewrite !writesOf_app, writesOf_logs. simpl. rewrite !app_nil_r.
    repeat split; try constructor. intros c w. apply outcome_closed. }
  set (found := c0 :: found0) in *.
  destruct (keys_exist found Hvalid) as [keys Hkeys].
  destruct (groupLoop_partition found keys [] Hkeys) as (buckets & Hgroup & Hperm & _).
  simpl in Hperm.
  destruct (main_fetched answers st found w1 buckets Hrange Hlog ltac:(discriminate) Hgroup)
    as (evs & Hrun & Hw & _).
  destruct (batchOutcomes_days (gitPath answers) buckets w1) as (_ & Hcommits & Hlens).
  pose proof (batchOutcomes_each (gitPath answers) buckets w1) as Heach.
  pose proof (batchOutcomes_buckets (gitPath answers) buckets w1) as Hdays.
  set (days := (batchOutcomes (gitPath answers) buckets w1).1) in *.
  assert (Hentries : Forall (fun d => length (day_entries d) = length (day_commits d)) days).
  { eapply Forall_impl; [exact Hlens|]. intros d Hd. apply entriesFrom_length. exact Hd. }
  assert (Hall : concat (map day_commits days) ≡ₚ found).
  { rewrite (concat_day_commits days buckets Hcommits). exact Hperm. }
  assert (Hn : length (concat (map day_results days)) = length found).
  { rewrite (length_concat_results days Hlens), Hall. reflexivity. }
  assert (Hne : length (concat (map day_entries days)) = length found).
  { rewrite <- (Permutation_length Hall). clear -Hentries.
    induction Hentries as [|d ds Hd _ IH]; [reflexivity|].
    simpl. rewrite !length_app, Hd, IH. reflexivity. }
  exists buckets. eexists. split; [exact Hgroup|]. split; [exact Hrun|].
  cbn zeta. fold days.
  split; [exact Hdays|]. split; [exact Hall|].
  split; [cbn [trace]; rewrite writesOf_app, Hw; reflexivity|].
  split; [|split; [exact Hne|split; [exact Hn|split; [|intros c w; apply outcome_closed]]]].
  2:{ clear -Hlens. induction Hlens as [|d ds Hd _ IH]; [constructor|].
      cbn [map concat]. apply Forall2_app; [|exact IH].
      apply (entriesFrom_forms 0 (day_commits d) (day_results d) Hd). }
  rewrite Forall_forall in Hlens, Heach. apply Forall_forall. intros d Hd.
  split; [unfold day_report, assemble, reportHeader; rewrite !append_assoc_string;
          reflexivity|].
  split; [apply entriesFrom_length, Hlens, Hd|]. split; [apply Hlens, Hd|].
  intros j c r Hc Hr. split; [apply (Heach d Hd j c r Hc Hr)|].
  unfold day_entries. rewrite (entriesFrom_lookup 0 _ _ j c r Hc Hr).
  destruct r; reflexivity.
Qed.

(** Witness of C1: the sample run.  Of the five commits, [git show] fails
    for the second; the report of 1 January 2024 has its error entry
    between the entries of two summaries. *)
Lemma failures_are_isolated_witness :
  exists buckets st',
    @groupByDate nat (Sample.host 0 Sample.commits) Sample.commits = Ok buckets /\
    @main nat (Sample.host 0 Sample.commits) Sample.answers Sample.start = (Ok tt, st') /\
    let days := (@batchOutcomes nat (Sample.host 0 Sample.commits) "/repo" buckets 1%nat).1 in
    length (concat (map day_entries days)) = 5%nat /\
    map day_results days
    = [[Ok "summary #2";
        Throw {| message := "fatal: bad object badc0ffee0ddf00dbadc0ffee0ddf00dbadc0ffe" |};
        Ok "summary #5"];
       [Ok "summary #8"]; [Ok "summary #11"]].
Proof.
  destruct (@failures_are_isolated nat (Sample.host 0 Sample.commits)
              Sample.answers Sample.start Sample.commits 1%nat eq_refl eq_refl)
    as (buckets & st' & Hgroup & Hrun & _ & _ & _ & _ & Hn & _).
  - repeat constructor; (eexists; vm_compute; reflexivity).
  - exists buckets, st'. split; [exact Hgroup|]. split; [exact Hrun|].
    split; [exact Hn|].
    assert (Hb : Ok buckets
                 = @groupByDate nat (Sample.host 0 Sample.commits) Sample.commits)
      by (symmetry; exact Hgroup).
    vm_compute in Hb. injection Hb as ->. vm_compute. reflexivity.
Defined.

(** C1, as stated, fails for a fetched list that holds a commit whose date
    no [Date] can hold: the grouping throws before any summary is asked
    for, the outer handler prints the error, and the run ends with no
    report at all, where two commits were fetched and no summary failed. *)
Lemma failures_are_isolated_counterexample :
  let found := [Sample.commit1; Faulty.tooLate] in
  let run := @main nat (Sample.host 0 found) Sample.answers Sample.start in
  Date_new Sample.dateParse (date Faulty.tooLate) = None /\
  @git_log nat (Sample.host 0 found) "/repo" (@logOptions Sample.answers) 0%nat
  = (Ok {| all := Some found |}, 1%nat) /\
  run.1 = Ok tt /\
  writesOf (trace run.2) = [] /\
  chatCalls (trace run.2) = [] /\
  last (trace run.2)
  = Some (ConsoleError "Git 로그를 불러오는 중 오류가 발생했습니다:"
            (Some {| message := "Invalid time value" |})).
Proof. vm_compute. repeat split. Qed.

(** C2 (amended).  The body written for a day is a function of the bucket
    and of the results of its commits: a title line naming the date, a
    count line, then one entry per commit in bucket order.  The entry of a
    summarised commit is a numbered heading with the first seven characters
    of the hash, the subject line, the summary under its own heading and a
    horizontal separator; the entry of a failed commit is a numbered heading
    with the abbreviated hash marked "(오류 발생)" and the error message, and
    has neither the subject line nor a separator.  Processing the day never
    throws. *)
Theorem report_body_format {W : Type} `{Host W} (repo date : string)
    (commits : list Commit) (st : St W) :
  let results := (outcomes repo commits (world st)).1 in
  exists st',
    processDate repo (date, commits) st = (Ok tt, st') /\
    writesOf (trace st')
    = (writesOf (trace st)
       ++ [(path_join repo (reportFileName date), assemble date commits results)])%list /\
    length results = length commits /\
    assemble date commits results
    = ("# " ++ date ++ " 커밋 리포트" ++ LF ++ LF)
      ++ ("총 " ++ numberToString (length commits) ++ "개의 커밋" ++ LF ++ LF)
      ++ joinAll (entriesFrom 0 commits results) /\
    (forall j c r,
       commits !! j = Some c -> results !! j = Some r ->
       entriesFrom 0 commits results !! j = Some (entryOf j c r)) /\
    (forall j c text,
       entryOf j c (Ok text)
       = "## 커밋 " ++ numberToString (j + 1) ++ ": " ++ substring 0 7 (hash c) ++ LF
         ++ "**메시지**: " ++ subject c ++ LF ++ LF
         ++ "### AI 요약" ++ LF ++ text ++ LF ++ LF
         ++ "---" ++ LF ++ LF) /\
    (forall j c e,
       entryOf j c (Throw e)
       = "## 커밋 " ++ numberToString (j + 1) ++ ": " ++ substring 0 7 (hash c)
         ++ " (오류 발생)" ++ LF
         ++ "**오류**: " ++ message e ++ LF ++ LF) /\
    (forall c, (7 <= String.length (hash c))%nat ->
               String.length (substring 0 7 (hash c)) = 7%nat).
Proof.
  intros results.
  destruct (processDate_run repo date commits st) as (evs & Hrun & Hw & _).
  eexists. split; [exact Hrun|]. simpl. fold results in Hw |- *.
  split; [rewrite writesOf_app, Hw; reflexivity|].
  split; [apply outcomes_length|].
  split; [unfold assemble, reportHeader; rewrite !append_assoc_string; reflexivity|].
  split; [intros j c r Hc Hr; apply (entriesFrom_lookup 0 commits results j c r Hc Hr)|].
  split; [reflexivity|]. split; [reflexivity|].
  intros c. generalize (hash c). intros h Hlen.
  do 7 (destruct h as [|? h]; [simpl in Hlen; lia|]). destruct h; reflexivity.
Qed.

(** C2, as stated, fails for a commit whose summary failed: on the sample
    host the day 2024-01-01 with the one commit [badc0ff] gets a body whose
    entry is marked as an error and which holds neither the subject line of
    the commit nor a horizontal separator. *)
Lemma report_body_counterexample :
  let report :=
    assemble "2024-01-01" [Sample.commit2]
      [Throw {| message := "fatal: bad object badc0ffee0ddf00dbadc0ffee0ddf00dbadc0ffe" |}] in
  writesOf (trace (@processDate nat (Sample.host 0 []) "/repo"
                     ("2024-01-01", [Sample.commit2]) Sample.start).2)
  = [("/repo/commit-report-2024-01-01.md", report)] /\
  includes "(오류 발생)" report = true /\
  includes (subject Sample.commit2) report = false /\
  includes "---" report = false.
Proof. vm_compute. repeat split. Qed.

(** C7.  Every bucket gets one write, at the path joined from the
    repository path and [commit-report-<date>.md], in bucket order and
    whatever the other writes do; a write that succeeds replaces the content
    of its path, a write that fails leaves the files alone, is printed for
    its date and stops nothing: the run ends normally. *)
Theorem writes_are_isolated {W : Type} `{Host W}
    (answers : Answers) (st : St W) found w1 (buckets : Buckets) :
  checkRange (Date_new host_dateParse (startDate answers))
             (Date_new host_dateParse (endDate answers)) = RangeOk ->
  git_log (gitPath answers) (logOptions answers) (world st)
  = (Ok {| all := Some found |}, w1) ->
  found <> [] ->
  groupByDate found = Ok buckets ->
  exists st',
    main answers st = (Ok tt, st') /\
    let repo := gitPath answers in
    let days := (batchOutcomes repo buckets w1).1 in
    writesOf (trace st')
    = (writesOf (trace st) ++ map (fun d => (day_path repo d, day_report d)) days)%list /\
    map (day_path repo) days
    = map (fun b => path_join repo ("commit-report-" ++ b.1 ++ ".md")) buckets /\
    files st' = filesAfter repo days (files st) /\
    (forall d, d ∈ days -> day_writeError d = None ->
       (forall d', d' ∈ days -> day_path repo d' = day_path repo d -> d' = d) ->
       files st' !! day_path repo d = Some (day_report d)) /\
    (forall p, (forall d, d ∈ days -> day_path repo d = p -> day_writeError d <> None) ->
       files st' !! p = files st !! p) /\
    consoleErrors (trace st')
    = (consoleErrors (trace st) ++ concat (map dayErrors days))%list /\
    Forall (fun d =>
              dayErrors d
              = (commitErrors (day_commits d) (day_results d)
                 ++ match day_writeError d with
                    | None => []
                    | Some e => [((day_date d ++ " 리포트 저장 중 오류:")%string, Some e)]
                    end)%list) days.
Proof.
  intros Hrange Hlog Hne Hgroup.
  destruct (main_fetched answers st found w1 buckets Hrange Hlog Hne Hgroup)
    as (evs & Hrun & Hw & He).
  eexists. split; [exact Hrun|]. simpl.
  split; [rewrite writesOf_app, Hw; reflexivity|].
  split; [apply batchOutcomes_paths|].
  split; [reflexivity|].
  split; [intros d Hin Hok Huniq; apply filesAfter_written; assumption|].
  split; [intros p Hfail; apply filesAfter_failed; assumption|].
  split; [rewrite consoleErrors_app, He; reflexivity|].
  apply Forall_forall. intros d _. reflexivity.
Qed.

(** Witness of C7: in the sample run the write for 2023-12-31 fails and the
    two other reports are written. *)
Lemma writes_are_isolated_witness :
  exists st',
    @main nat (Sample.host 0 Sample.commits) Sample.answers Sample.start = (Ok tt, st') /\
    dom (files st')
    = {["/repo/commit-report-2024-01-01.md"; "/repo/commit-report-2024-01-05.md"]}.
Proof.
  destruct (@writes_are_isolated nat (Sample.host 0 Sample.commits)
              Sample.answers Sample.start Sample.commits 1%nat
              (match @groupByDate nat (Sample.host 0 Sample.commits) Sample.commits with
               | Ok b => b
               | Throw _ => []
               end)
              eq_refl eq_refl ltac:(discriminate) eq_refl)
    as (st' & Hrun & _ & _ & Hfiles & _).
  exists st'. split; [exact Hrun|]. rewrite Hfiles. vm_compute. reflexivity.
Defined.

(** * Further properties of the scripts *)

(** ** The window check on every host *)

Section WindowFacts.
Import ES.
Context {W : Type} `{Host W}.

Lemma previousDay_dayNumber c :
  calendarDate c ->
  calendarDate (previousDay c) /\ dayNumber (previousDay c) = dayNumber c - 1.
Proof.
  intros Hc. pose proof Hc as [Hm Hd]. unfold previousDay.
  destruct (Z.ltb_spec 1 (day c)) as [H1|H1].
  - assert (Hp : calendarDate {| year := year c; month := month c; day := day c - 1 |})
      by (split; simpl; lia).
    split; [exact Hp|]. rewrite (dayNumber_eq _ Hp), (dayNumber_eq c Hc). simpl. lia.
  - destruct (Z.eqb_spec (month c) 1) as [E|E].
    + assert (Hp : calendarDate {| year := year c - 1; month := 12; day := 31 |})
        by (split; simpl; [lia|change (daysInMonth (year c - 1) 12) with 31; lia]).
      split; [exact Hp|]. rewrite (dayNumber_eq _ Hp), (dayNumber_eq c Hc). simpl.
      rewrite E. change (12 - 1) with 11. change (1 - 1) with 0.
      pose proof (DayFromYear_succ (year c - 1)) as Hs.
      replace (year c - 1 + 1) with (year c) in Hs by lia.
      rewrite Hs, <- daysBeforeMonth_12.
      pose proof (daysBeforeMonth_next (year c - 1) 12 ltac:(lia)) as Hn.
      change (12 - 1) with 11 in Hn. change (daysInMonth (year c - 1) 12) with 31 in Hn.
      change (daysBeforeMonth (isLeapYear (year c)) 0) with 0. lia.
    + pose proof (daysInMonth_bounds (year c) (month c - 1)) as Hb.
      assert (Hp : calendarDate {| year := year c; month := month c - 1;
                                   day := daysInMonth (year c) (month c - 1) |})
        by (split; simpl; lia).
      split; [exact Hp|]. rewrite (dayNumber_eq _ Hp), (dayNumber_eq c Hc). simpl.
      pose proof (daysBeforeMonth_next (year c) (month c - 1) ltac:(lia)) as Hn. lia.
Qed.

Lemma DayFromYear_range_wide y : -1 <= y <= 10000 -> -719894 <= DayFromYear y <= 2932897.
Proof. intros Hy. unfold DayFromYear. Z.div_mod_to_equations. lia. Qed.

Lemma TimeClip_days D tw :
  -719894 <= D <= 2932897 + 366 -> 0 <= tw <= msPerDay ->
  TimeClip (MakeDate D tw) = Some (MakeDate D tw).
Proof.
  intros HD Htw. unfold TimeClip, MakeDate, msPerDay in *.
  destruct (Z.gtb_spec (Z.abs (D * 86400000 + tw)) 8640000000000000); [lia|reflexivity].
Qed.

(** [setMonth(getMonth() + 2)] on UTC midnight of a date, on a host whose
    local time at that instant is behind UTC ([off1] in [-24h, 0)): the
    local date is the day before, the new local time is the rolled-over date
    of that day at the same time of day, read with the offset [off2] that is
    in force then. *)
Lemma twoMonthsLater_west s :
  let off1 := host_LocalTZA (midnightUTC s) true in
  let capDay := dayNumber (plusMonthsRollover (previousDay s) 2) + 1 in
  let off2 := host_LocalTZA (MakeDate (capDay - 1) (msPerDay + off1)) false in
  - msPerDay <= off1 < 0 -> - msPerDay <= off2 <= msPerDay -> validDate s ->
  setMonth host_LocalTZA (Some (midnightUTC s))
    ((fun m => m + 2) <$> getMonth host_LocalTZA (Some (midnightUTC s)))
  = Some (MakeDate capDay 0 + off1 - off2).
Proof.
  intros off1 capDay off2 H1 H2 [Hy Hc].
  destruct (previousDay_dayNumber s Hc) as [Hp Hpd].
  set (p := previousDay s) in *. pose proof Hp as [Hpm Hpday].
  assert (Hloc : LocalTime host_LocalTZA (midnightUTC s)
                 = MakeDate (MakeDay (year p) (month p - 1) (day p)) (msPerDay + off1)).
  { fold (dayNumber p). rewrite Hpd. unfold LocalTime. fold off1.
    unfold midnightUTC, MakeDate. lia. }
  destruct (fields_of_MakeDate (year p) (month p - 1) (day p) (msPerDay + off1))
    as (HY & HM & HD & HT);
    [lia|replace (month p - 1 + 1) with (month p) by lia; exact Hpday|lia|].
  destruct (plusMonthsRollover_dayNumber p 2 Hp) as [Hc' Hday].
  pose proof (plusMonthsRollover_year p 2 ltac:(lia) Hp) as Hy'.
  assert (Hpy : year s - 1 <= year p <= year s).
  { unfold p, previousDay. destruct (1 <? day s); [simpl; lia|].
    destruct (month s =? 1); simpl; lia. }
  unfold getMonth, setMonth. cbn [mbind option_bind fmap option_fmap option_map].
  rewrite Hloc, HY, HM, HD, HT, Hday.
  replace (dayNumber (plusMonthsRollover p 2)) with (capDay - 1) by (unfold capDay; lia).
  replace (UTC host_LocalTZA (MakeDate (capDay - 1) (msPerDay + off1)))
    with (MakeDate capDay 0 + off1 - off2)
    by (unfold UTC; fold off2; unfold MakeDate; lia).
  apply TimeClip_small.
  pose proof (dayNumber_in_year _ Hc') as Hin. rewrite DayFromYear_succ in Hin.
  pose proof (DayFromYear_range_wide (year (plusMonthsRollover p 2)) ltac:(lia)).
  pose proof (DaysInYear_bounds (year (plusMonthsRollover p 2))).
  unfold MakeDate, msPerDay in *. unfold capDay. lia.
Qed.

End WindowFacts.

(** X2.  On every host, a window that is accepted stays accepted when its
    end is moved back, as far as the start. *)
Theorem accepted_window_shrinks {W : Type} `{Host W} (startDate endDate endDate' : Z) :
  checkRange (Some startDate) (Some endDate) = RangeOk ->
  startDate <= endDate' <= endDate ->
  checkRange (Some startDate) (Some endDate') = RangeOk.
Proof.
  unfold checkRange, ES.gt. intros Hok Hle.
  destruct (Z.gtb_spec startDate endDate); [discriminate|].
  destruct (Z.gtb_spec startDate endDate'); [lia|].
  destruct (ES.setMonth _ _ _) as [cap|]; [|reflexivity].
  destruct (Z.gtb_spec endDate cap); [discriminate|].
  destruct (Z.gtb_spec endDate' cap); [lia|reflexivity].
Qed.

Lemma accepted_window_shrinks_witness :
  @checkRange nat (Sample.host 0 [])
    (Date_new Sample.dateParse "2024-01-10") (Date_new Sample.dateParse "2024-02-01")
  = RangeOk.
Proof.
  apply (@accepted_window_shrinks nat (Sample.host 0 [])
           1704844800000 1709251200000 1706745600000 eq_refl).
  lia.
Defined.

Ltac solve_west :=
  intros t isUTC; cbn; unfold Sample.newYork, Sample.seasonal, ES.msPerDay, ES.msPerHour;
  repeat match goal with |- context [if ?b then _ else _] => destruct b end; lia.

(** X3.  On a host whose local time is behind UTC (offset in [-24h, 0)),
    [setMonth] works on the local day before the start: the cap falls on
    the day after the rolled-over date two months from that day.  For
    calendar dates with end not before start, an end after that day is
    refused with RangeTooLarge and an end before it is accepted; an end on
    that day is accepted when the host's offset from UTC at the cap is not
    larger than its offset at the start, and refused when it is larger, as
    where summer time begins in between. *)
Theorem range_cap_west_of_utc {W : Type} `{Host W} (s e : CalDate) :
  (forall t isUTC, - ES.msPerDay <= host_LocalTZA t isUTC < 0) ->
  validDate s -> validDate e -> ~ cal_lt e s ->
  let verdict :=
    checkRange (Date_new host_dateParse (isoDate s)) (Date_new host_dateParse (isoDate e)) in
  let capDay := dayNumber (plusMonthsRollover (previousDay s) 2) + 1 in
  let atStart := host_LocalTZA (midnightUTC s) true in
  let atCap := host_LocalTZA (ES.MakeDate (capDay - 1) (ES.msPerDay + atStart)) false in
  (dayNumber e > capDay -> verdict = RangeTooLarge) /\
  (dayNumber e < capDay -> verdict = RangeOk) /\
  (dayNumber e = capDay -> verdict = if atStart <? atCap then RangeTooLarge else RangeOk).
Proof.
  intros Htz Hs He Hord verdict capDay atStart atCap.
  pose proof Hs as [_ Hcs]. pose proof He as [_ Hce].
  rewrite (dayNumber_lt_iff e s Hce Hcs) in Hord.
  pose proof (Htz (midnightUTC s) true) as H1. fold atStart in H1.
  pose proof (Htz (ES.MakeDate (capDay - 1) (ES.msPerDay + atStart)) false) as H2.
  fold atCap in H2.
  assert (Hv : verdict
               = if dayNumber e * 86400000 >? capDay * 86400000 + atStart - atCap
                 then RangeTooLarge else RangeOk).
  { unfold verdict. rewrite !Date_new_isoDate by assumption. unfold checkRange.
    rewrite (twoMonthsLater_west s);
      [|exact H1|change (- ES.msPerDay <= atCap <= ES.msPerDay); lia|exact Hs].
    fold capDay atStart atCap. rewrite gt_midnights.
    destruct (Z.gtb_spec (dayNumber s) (dayNumber e)); [lia|].
    unfold ES.gt, midnightUTC, ES.MakeDate, ES.msPerDay.
    replace (dayNumber e * 86400000 + 0) with (dayNumber e * 86400000) by lia.
    replace (capDay * 86400000 + 0 + atStart - atCap)
      with (capDay * 86400000 + atStart - atCap) by lia.
    reflexivity. }
  unfold ES.msPerDay in H1, H2. rewrite Hv. repeat split; intros Hcmp.
  - match goal with |- context [?a >? ?b] => destruct (Z.gtb_spec a b) end;
      [reflexivity|lia].
  - match goal with |- context [?a >? ?b] => destruct (Z.gtb_spec a b) end;
      [lia|reflexivity].
  - destruct (Z.ltb_spec atStart atCap);
      match goal with |- context [?a >? ?b] => destruct (Z.gtb_spec a b) end;
      try reflexivity; lia.
Qed.

(** In New York the window 2024-02-01 to 2024-04-01 is refused: the start
    is 31 January 19:00 local time, two months on 31 March 19:00, by then
    summer time, which is 31 March 23:00 UTC. *)
Lemma range_cap_west_of_utc_witness :
  @checkRange nat (Sample.hostAt Sample.newYork [])
    (Date_new Sample.dateParse "2024-02-01") (Date_new Sample.dateParse "2024-04-01")
  = RangeTooLarge.
Proof.
  exact (proj2 (proj2 (@range_cap_west_of_utc nat (Sample.hostAt Sample.newYork [])
                         {| year := 2024; month := 2; day := 1 |}
                         {| year := 2024; month := 4; day := 1 |}
                         ltac:(solve_west)
                         ltac:(solve_validDate) ltac:(solve_validDate)
                         ltac:(unfold cal_lt; simpl; lia)))
           eq_refl).
Defined.

(** ** Runs that abort after the window was accepted *)

Section AbortFacts.
Context {W : Type} `{Host W}.

Lemma groupByDate_invalid (commits : list Commit) :
  Exists (fun commit => Date_new host_dateParse (date commit) = None) commits ->
  groupByDate commits = Throw {| message := "Invalid time value" |}.
Proof. apply groupLoop_invalid. Qed.

(** Every date is a time value or not. *)
Lemma dates_valid_or_not (commits : list Commit) :
  Forall (fun c => is_Some (Date_new host_dateParse (date c))) commits \/
  Exists (fun c => Date_new host_dateParse (date c) = None) commits.
Proof.
  induction commits as [|c cs [IH|IH]].
  - left. constructor.
  - destruct (Date_new host_dateParse (date c)) as [t|] eqn:Ht.
    + left. constructor; [exists t; exact Ht|exact IH].
    + right. left. exact Ht.
  - right. right. exact IH.
Qed.

(** An accepted window is followed by the listing, and the run ends
    normally whatever the collaborators answer. *)
Lemma main_accepted answers (st : St W) :
  checkRange (Date_new host_dateParse (startDate answers))
             (Date_new host_dateParse (endDate answers)) = RangeOk ->
  exists lines rest st',
    main answers st = (Ok tt, st') /\
    trace st'
    = (trace st ++ map ConsoleLog lines
       ++ GitLog (gitPath answers) (logOptions answers) :: rest)%list.
Proof.
  intros Hrange.
  destruct (echoAnswers_run answers st) as [lines Hecho].
  exists (lines ++ [(LF ++ "==== 기간 내 커밋 조회 중... ====")%string])%list.
  unfold main, try_catch, mbind, M_bind. rewrite Hecho, Hrange.
  unfold console_log, call. rewrite emit_run.
  change (world (printed (printed st _) _)) with (world st).
  destruct (git_log (gitPath answers) (logOptions answers) (world st)) as [[res|e] w1].
  - destruct (all res) as [[|c found]|].
    + rewrite emit_run. eexists _, _. split; [reflexivity|].
      unfold printed, advance. simpl. rewrite map_app, <- !app_assoc. reflexivity.
    + rewrite emit_run. unfold liftR.
      destruct (groupByDate (c :: found)) as [buckets|e].
      * match goal with
        | |- context [forEachDate (gitPath answers) buckets ?s] =>
            destruct (forEachDate_run (gitPath answers) buckets s) as (evs & Hloop & _)
        end.
        rewrite Hloop. rewrite !emit_run. eexists _, _. split; [reflexivity|].
        unfold printed, advance. simpl. rewrite map_app, <- !app_assoc. reflexivity.
      * unfold console_error. rewrite emit_run. eexists _, _. split; [reflexivity|].
        unfold printed, advance. simpl. rewrite map_app, <- !app_assoc. reflexivity.
    + rewrite emit_run. eexists _, _. split; [reflexivity|].
      unfold printed, advance. simpl. rewrite map_app, <- !app_assoc. reflexivity.
  - unfold console_error. rewrite emit_run. eexists _, _. split; [reflexivity|].
    unfold printed, advance. simpl. rewrite map_app, <- !app_assoc. reflexivity.
Qed.

End AbortFacts.

(** X4.  When the window is accepted and [git log] throws, the run catches
    the error, prints it under the message of the outer handler and ends
    normally: nothing is summarised and nothing is written. *)
Theorem fetch_failure_ends_the_run {W : Type} `{Host W}
    (answers : Answers) (st : St W) e w1 :
  checkRange (Date_new host_dateParse (startDate answers))
             (Date_new host_dateParse (endDate answers)) = RangeOk ->
  git_log (gitPath answers) (logOptions answers) (world st) = (Throw e, w1) ->
  exists lines,
    main answers st
    = (Ok tt,
       {| world := w1; files := files st;
          trace := (trace st ++ map ConsoleLog lines
                    ++ [GitLog (gitPath answers) (logOptions answers);
                        ConsoleError "Git 로그를 불러오는 중 오류가 발생했습니다:"
                          (Some e)])%list |}).
Proof.
  intros Hrange Hlog.
  destruct (echoAnswers_run answers st) as [lines Hecho].
  exists (lines ++ [(LF ++ "==== 기간 내 커밋 조회 중... ====")%string])%list.
  unfold main, try_catch, mbind, M_bind. rewrite Hecho, Hrange.
  unfold console_log, call. rewrite emit_run.
  change (world (printed (printed st _) _)) with (world st). rewrite Hlog.
  unfold console_error. rewrite emit_run. unfold printed, advance. simpl.
  rewrite map_app, <- !app_assoc. reflexivity.
Qed.

Lemma fetch_failure_ends_the_run_witness :
  exists st',
    @main nat Faulty.noRepository Sample.answers Sample.start = (Ok tt, st') /\
    files st' = ∅.
Proof.
  destruct (@fetch_failure_ends_the_run nat Faulty.noRepository Sample.answers Sample.start
              {| message := "fatal: not a git repository" |} 1%nat eq_refl eq_refl)
    as [lines Hrun].
  eexists. split; [exact Hrun|reflexivity].
Defined.

(** X5.  One fetched commit whose date is no time value aborts the whole
    run: grouping throws the RangeError of [toISOString], the outer handler
    prints it, and no commit is summarised and no report written, whatever
    the other commits are. *)
Theorem invalid_commit_date_ends_the_run {W : Type} `{Host W}
    (answers : Answers) (st : St W) found w1 :
  checkRange (Date_new host_dateParse (startDate answers))
             (Date_new host_dateParse (endDate answers)) = RangeOk ->
  git_log (gitPath answers) (logOptions answers) (world st)
  = (Ok {| all := Some found |}, w1) ->
  Exists (fun c => Date_new host_dateParse (date c) = None) found ->
  exists lines,
    main answers st
    = (Ok tt,
       {| world := w1; files := files st;
          trace := (trace st ++ map ConsoleLog lines
                    ++ [GitLog (gitPath answers) (logOptions answers);
                        ConsoleLog ("총 " ++ numberToString (length found)
                                    ++ "개의 커밋을 찾았습니다.");
                        ConsoleError "Git 로그를 불러오는 중 오류가 발생했습니다:"
                          (Some {| message := "Invalid time value" |})])%list |}).
Proof.
  intros Hrange Hlog Hbad.
  pose proof (groupByDate_invalid found Hbad) as Hgroup.
  destruct (echoAnswers_run answers st) as [lines Hecho].
  exists (lines ++ [(LF ++ "==== 기간 내 커밋 조회 중... ====")%string])%list.
  unfold main, try_catch, mbind, M_bind. rewrite Hecho, Hrange.
  unfold console_log, call. rewrite emit_run.
  change (world (printed (printed st _) _)) with (world st). rewrite Hlog.
  destruct found as [|c found]; [inversion Hbad|]. cbn [all].
  rewrite emit_run. unfold liftR. rewrite Hgroup.
  unfold console_error. rewrite emit_run. unfold printed, advance. simpl.
  rewrite map_app, <- !app_assoc. reflexivity.
Qed.

Lemma invalid_commit_date_ends_the_run_witness :
  exists st',
    @main nat (Sample.host 0 [Sample.commit1; Faulty.undated]) Sample.answers Sample.start
    = (Ok tt, st') /\
    writesOf (trace st') = [] /\ chatCalls (trace st') = [].
Proof.
  destruct (@invalid_commit_date_ends_the_run nat
              (Sample.host 0 [Sample.commit1; Faulty.undated]) Sample.answers Sample.start
              [Sample.commit1; Faulty.undated] 1%nat eq_refl eq_refl)
    as [lines Hrun].
  - right. left. reflexivity.
  - eexists. split; [exact Hrun|]. simpl.
    rewrite writesOf_app, chatCalls_app, writesOf_logs, chatCalls_logs. split; reflexivity.
Defined.

(** X6.  On a host whose local time is UTC or ahead of it, with or without
    daylight saving, a window whose end lies after the start plus two
    months stops the run before anything is fetched: the echo of the
    answers and the error are printed, the world and the files stay as they
    were. *)
Theorem too_large_window_ends_the_run {W : Type} `{Host W} (s e : CalDate)
    (answers : Answers) (st : St W) :
  (forall t isUTC, 0 <= host_LocalTZA t isUTC < ES.msPerDay) ->
  validDate s -> validDate e ->
  cal_lt (plusMonthsRollover s 2) e ->
  startDate answers = isoDate s -> endDate answers = isoDate e ->
  exists lines,
    main answers st
    = (Ok tt,
       {| world := world st; files := files st;
          trace := (trace st ++ map ConsoleLog lines
                    ++ [ConsoleError
                          "조회 기간은 최대 두 달을 넘을 수 없습니다. 토큰 사용량이 너무 많아질 수 있습니다."
                          None])%list |}).
Proof.
  intros Htz Hs He Hlt Hsa Hea.
  pose proof Hs as [_ Hcs]. pose proof He as [_ Hce].
  destruct (plusMonthsRollover_dayNumber s 2 Hcs) as [Hcp _].
  pose proof (dayNumber_lt s _ Hcs Hcp (plusMonthsRollover_later s 2 ltac:(lia) Hcs)) as Hsp.
  pose proof (dayNumber_lt _ e Hcp Hce Hlt) as Hpe.
  assert (Hv : checkRange (Date_new host_dateParse (isoDate s))
                 (Date_new host_dateParse (isoDate e)) = RangeTooLarge).
  { pose proof (Htz (midnightUTC s) true) as H1.
    pose proof (Htz (ES.MakeDate (dayNumber (plusMonthsRollover s 2))
                       (host_LocalTZA (midnightUTC s) true)) false) as H2.
    rewrite !Date_new_isoDate by assumption.
    rewrite checkRange_midnights; [|exact H1|unfold ES.msPerDay in *; lia|exact Hs].
    unfold midnightUTC, ES.MakeDate, ES.msPerDay in *.
    destruct (Z.gtb_spec (dayNumber s) (dayNumber e)); [lia|].
    match goal with |- context [?a >? ?b] => destruct (Z.gtb_spec a b) end;
      [reflexivity|lia]. }
  destruct (echoAnswers_run answers st) as [lines Hecho].
  exists lines. unfold main, try_catch, mbind, M_bind.
  rewrite Hecho, Hsa, Hea, Hv. unfold console_error. rewrite emit_run.
  unfold printed, advance. simpl. rewrite <- app_assoc. reflexivity.
Qed.

Lemma too_large_window_ends_the_run_witness :
  exists st',
    @main nat (Sample.host 32400000 Sample.commits)
      {| gitPath := "/repo"; startDate := "2024-01-31"; endDate := "2024-04-01";
         authorAnswer := "Kim" |} Sample.start
    = (Ok tt, st') /\
    world st' = 0%nat.
Proof.
  destruct (@too_large_window_ends_the_run nat (Sample.host 32400000 Sample.commits)
              {| year := 2024; month := 1; day := 31 |}
              {| year := 2024; month := 4; day := 1 |}
              {| gitPath := "/repo"; startDate := "2024-01-31"; endDate := "2024-04-01";
                 authorAnswer := "Kim" |} Sample.start
              ltac:(intros t isUTC; simpl; unfold ES.msPerDay; lia)
              ltac:(solve_validDate) ltac:(solve_validDate)
              ltac:(vm_compute; right; split; [reflexivity|left; reflexivity])
              eq_refl eq_refl)
    as [lines Hrun].
  eexists. split; [exact Hrun|reflexivity].
Defined.

Section ScriptFacts.
Context {W : Type} `{Host W}.


(** Once the client and the git object are made, the script is the [try]
    statement of [main]. *)
Lemma batchScript_made answers (st : St W) :
  OpenAI_error (OPENAI_API_KEY host_env) = None ->
  simpleGit_error (gitPath answers) (world st) = None ->
  batchScript answers st = main answers st.
Proof.
  intros Hclient Hgit. unfold batchScript, newOpenAI, simpleGit, mbind, M_bind.
  rewrite Hclient. unfold mret, M_ret. rewrite Hgit.
  destruct (main answers st) as [[[]|e] st']; reflexivity.
Qed.

End ScriptFacts.



(** X1.  The window check never refuses a date that is no time value: when
    the start or the end is NaN both comparisons are false, and the run goes
    on to list the commits with the answers as they were typed. *)
Theorem invalid_dates_pass_the_checks {W : Type} `{Host W}
    (answers : Answers) (st : St W) :
  Date_new host_dateParse (startDate answers) = None \/
  Date_new host_dateParse (endDate answers) = None ->
  checkRange (Date_new host_dateParse (startDate answers))
             (Date_new host_dateParse (endDate answers)) = RangeOk /\
  exists lines rest st',
    main answers st = (Ok tt, st') /\
    trace st'
    = (trace st ++ map ConsoleLog lines
       ++ GitLog (gitPath answers)
            {| since := startDate answers; until := endDate answers;
               author := author (logOptions answers) |} :: rest)%list.
Proof.
  intros Hnan.
  assert (Hv : checkRange (Date_new host_dateParse (startDate answers))
                 (Date_new host_dateParse (endDate answers)) = RangeOk).
  { unfold checkRange.
    destruct Hnan as [-> | ->];
      destruct (Date_new host_dateParse _); cbn [ES.gt]; reflexivity. }
  split; [exact Hv|]. apply (main_accepted answers st Hv).
Qed.

(** A start typed with a leading blank is left to the host's parser; the
    sample parser makes nothing of it and the run lists the commits. *)
Lemma invalid_dates_pass_the_checks_witness :
  @checkRange nat (Sample.host 0 [])
    (Date_new Sample.dateParse " 2024-01-01") (Date_new Sample.dateParse "2023-01-01")
  = RangeOk.
Proof.
  apply (proj1 (@invalid_dates_pass_the_checks nat (Sample.host 0 [])
                  {| gitPath := "/repo"; startDate := " 2024-01-01"; endDate := "2023-01-01";
                     authorAnswer := "" |} Sample.start (or_introl eq_refl))).
Defined.

(** ** Requests to the completion service *)

Section ChatFacts.
Context {W : Type} `{Host W}.

(** The requests [generateMessage] sends: one, or none when it throws before
    the call. *)
Lemma generateMessage_chat prompt options (st : St W) :
  chatCalls (trace (generateMessage prompt options st).2)
  = (chatCalls (trace st)
     ++ if falsy prompt || negb (isString prompt) || absent (OPENAI_API_KEY host_env)
        then [] else [chatRequest prompt options])%list.
Proof.
  destruct (falsy prompt) eqn:Hf.
  { rewrite generateMessage_bad_prompt by (left; exact Hf). simpl. apply eq_sym, app_nil_r. }
  destruct (isString prompt) eqn:Hs.
  2:{ rewrite generateMessage_bad_prompt by (right; exact Hs). simpl.
      apply eq_sym, app_nil_r. }
  destruct (absent (OPENAI_API_KEY host_env)) eqn:Hk.
  { rewrite generateMessage_no_key by assumption. simpl. apply eq_sym, app_nil_r. }
  rewrite generateMessage_sent by assumption. simpl.
  destruct (chat_completions_create (chatRequest prompt options) (world st)) as [[c|e] w].
  - destruct (completionText c) as [t|]; [destruct (String.eqb t "")|];
      simpl; apply chatCalls_app.
  - simpl. apply chatCalls_app.
Qed.

Lemma summaryPrompt_truthy showResult : falsy (VString (summaryPrompt showResult)) = false.
Proof. reflexivity. Qed.

(** The requests of one summary: none when [git show] throws or the key is
    missing, else the one that carries the fixed instruction and the text of
    [git show]. *)
Lemma summarize_chat repo commit (st : St W) :
  chatCalls (trace (summarize repo commit st).2)
  = (chatCalls (trace st)
     ++ match (git_show repo (showArgs commit) (world st)).1 with
        | Ok showResult =>
            if absent (OPENAI_API_KEY host_env) then []
            else [chatRequest (VString (summaryPrompt showResult)) noOptions]
        | Throw _ => []
        end)%list.
Proof.
  unfold summarize, mbind, M_bind, call.
  destruct (git_show repo (showArgs commit) (world st)) as [[showResult|e] w1]; simpl.
  - rewrite generateMessage_chat, summaryPrompt_truthy. cbn [trace isString negb orb].
    rewrite chatCalls_app. simpl chatCalls at 2. rewrite app_nil_r. reflexivity.
  - rewrite chatCalls_app. simpl. reflexivity.
Qed.

(** Without a key every summary fails. *)
Lemma outcome_no_key repo commit (w : W) :
  absent (OPENAI_API_KEY host_env) = true -> isThrow (outcome repo commit w).1 = true.
Proof.
  intros Hk. unfold outcome, summarize, mbind, M_bind, call. simpl.
  destruct (git_show repo (showArgs commit) w) as [[showResult|e] w1]; [|reflexivity].
  rewrite generateMessage_no_key by (try exact Hk; reflexivity). reflexivity.
Qed.

Lemma outcomes_no_key repo commits (w : W) :
  absent (OPENAI_API_KEY host_env) = true ->
  Forall (fun r => isThrow r = true) (outcomes repo commits w).1.
Proof.
  intros Hk. revert w. induction commits as [|c cs IH]; intros w; simpl; [constructor|].
  pose proof (outcome_no_key repo c w Hk) as Hc.
  destruct (outcome repo c w) as [r w1]. specialize (IH w1).
  destruct (outcomes repo cs w1) as [rs w2]. simpl in *. constructor; assumption.
Qed.

Lemma batchOutcomes_no_key repo (entries : Buckets) (w : W) :
  absent (OPENAI_API_KEY host_env) = true ->
  Forall (fun d => Forall (fun r => isThrow r = true) (day_results d))
         (batchOutcomes repo entries w).1.
Proof.
  intros Hk. revert w. induction entries as [|[date commits] entries IH]; intros w;
    [constructor|].
  cbn [batchOutcomes]. pose proof (outcomes_no_key repo commits w Hk) as Hc.
  destruct (outcomes repo commits w) as [rs w1].
  destruct (fs_write_error (path_join repo (reportFileName date)) (assemble date commits rs) w1)
    as [err w2].
  specialize (IH w2). destruct (batchOutcomes repo entries w2) as [ds w3].
  simpl in *. constructor; assumption.
Qed.

(** The loop over the commits of a day sends at most one request per commit,
    and none without a key. *)
Lemma commitLoop_chat repo commits i report (st : St W) :
  exists calls,
    chatCalls (trace (commitLoop repo i commits report st).2)
    = (chatCalls (trace st) ++ calls)%list /\
    (length calls <= length commits)%nat /\
    (absent (OPENAI_API_KEY host_env) = true -> calls = []).
Proof.
  revert i report st. induction commits as [|c cs IH]; intros i report st.
  - exists []. simpl. rewrite app_nil_r. auto.
  - cbn [commitLoop]. unfold mbind, M_bind, try_catch, console_log. rewrite emit_run.
    set (st1 := printed st _).
    pose proof (summarize_chat repo c st1) as Hchat.
    assert (Hst1 : chatCalls (trace st1) = chatCalls (trace st)).
    { unfold st1, printed, advance. simpl. rewrite chatCalls_app. simpl. apply app_nil_r. }
    rewrite Hst1 in Hchat. change (world st1) with (world st) in Hchat.
    set (one := match (git_show repo (showArgs c) (world st)).1 with
                | Ok showResult =>
                    if absent (OPENAI_API_KEY host_env) then []
                    else [chatRequest (VString (summaryPrompt showResult)) noOptions]
                | Throw _ => []
                end) in *.
    assert (Hone : (length one <= 1)%nat /\
                   (absent (OPENAI_API_KEY host_env) = true -> one = [])).
    { unfold one. destruct (git_show repo (showArgs c) (world st)).1;
        [destruct (absent (OPENAI_API_KEY host_env))|]; simpl; split; auto; discriminate. }
    destruct (summarize repo c st1) as [[text|e] st2]; simpl in Hchat.
    + destruct (IH (S i) (report ++ okEntry i c text) st2) as (calls & Hrest & Hlen & Hkey).
      unfold mret, M_ret. exists (one ++ calls)%list. rewrite Hrest, Hchat, <- app_assoc.
      split; [reflexivity|]. split; [rewrite length_app; simpl; lia|].
      intros Hk. rewrite (proj2 Hone Hk), (Hkey Hk). reflexivity.
    + unfold console_error. rewrite emit_run. unfold mret, M_ret.
      destruct (IH (S i) (report ++ errorEntry i c e)
                  (printed st2 [ConsoleError ("커밋 " ++ hash c ++ " 처리 중 오류:") (Some e)]))
        as (calls & Hrest & Hlen & Hkey).
      exists (one ++ calls)%list. rewrite Hrest.
      unfold printed, advance. simpl. rewrite chatCalls_app, Hchat. simpl.
      rewrite app_nil_r, <- app_assoc.
      split; [reflexivity|]. split; [rewrite length_app; simpl; lia|].
      intros Hk. rewrite (proj2 Hone Hk), (Hkey Hk). reflexivity.
Qed.

Lemma forEachDate_chat repo (entries : Buckets) (st : St W) :
  exists calls,
    chatCalls (trace (forEachDate repo entries st).2)
    = (chatCalls (trace st) ++ calls)%list /\
    (length calls <= totalCommits entries)%nat /\
    (absent (OPENAI_API_KEY host_env) = true -> calls = []).
Proof.
  revert st. induction entries as [|[date commits] entries IH]; intros st.
  - exists []. simpl. rewrite app_nil_r. split; [reflexivity|]. split; [lia|auto].
  - cbn [forEachDate]. unfold mbind, M_bind.
    destruct (processDate_run repo date commits st) as (evs & Hday & _).
    assert (Hchat : exists calls,
               chatCalls (trace (processDate repo (date, commits) st).2)
               = (chatCalls (trace st) ++ calls)%list /\
               (length calls <= length commits)%nat /\
               (absent (OPENAI_API_KEY host_env) = true -> calls = [])).
    { clear Hday. unfold processDate, mbind, M_bind, console_log. rewrite emit_run.
      set (st1 := printed st _).
      assert (Hst1 : chatCalls (trace st1) = chatCalls (trace st)).
      { unfold st1, printed, advance. simpl. rewrite chatCalls_app. simpl. apply app_nil_r. }
      destruct (commitLoop_chat repo commits 0 (reportHeader date (length commits)) st1)
        as (calls & Hloop & Hlen & Hkey).
      destruct (commitLoop_run repo commits 0 (reportHeader date (length commits)) st1)
        as (evs1 & Hrun & _).
      rewrite Hrun in Hloop |- *. cbn [snd] in Hloop. rewrite Hst1 in Hloop.
      remember (advance st1 (outcomes repo commits (world st1)).2 evs1) as st2 eqn:Est2.
      exists calls. split; [|split; assumption].
      unfold try_catch, mbind, M_bind, writeFileSync.
      destruct (fs_write_error _ _ (world st2)) as [[e|] w];
        unfold console_log, console_error; rewrite emit_run;
        unfold printed, advance; cbn [snd trace];
        rewrite !chatCalls_app; cbn [chatCalls]; rewrite !app_nil_r; exact Hloop. }
    destruct Hchat as (calls1 & Hc1 & Hl1 & Hk1).
    rewrite Hday in Hc1 |- *. simpl in Hc1.
    match goal with
    | |- context [forEachDate repo entries ?s] =>
        destruct (IH s) as (calls2 & Hc2 & Hl2 & Hk2)
    end.
    simpl in Hc2. exists (calls1 ++ calls2)%list.
    rewrite Hc2, Hc1, <- app_assoc. split; [reflexivity|].
    split.
    + assert (Htotal : totalCommits ((date, commits) :: entries)
                       = (length commits + totalCommits entries)%nat)
        by (unfold totalCommits; simpl; rewrite length_app; reflexivity).
      rewrite length_app, Htotal. lia.
    + intros Hk. rewrite (Hk1 Hk), (Hk2 Hk). reflexivity.
Qed.

(** The run after the listing returned commits that group into [buckets]:
    the loop over the dates from the state reached, then two lines. *)
Lemma main_fetched_state answers (st : St W) found w1 (buckets : Buckets) :
  checkRange (Date_new host_dateParse (startDate answers))
             (Date_new host_dateParse (endDate answers)) = RangeOk ->
  git_log (gitPath answers) (logOptions answers) (world st)
  = (Ok {| all := Some found |}, w1) ->
  found <> [] ->
  groupByDate found = Ok buckets ->
  exists evs0,
    chatCalls evs0 = [] /\ writesOf evs0 = [] /\
    main answers st
    = (Ok tt,
       printed (forEachDate (gitPath answers) buckets (advance st w1 evs0)).2
         [ConsoleLog (LF ++ "==== 모든 처리 완료 ====");
          ConsoleLog "각 날짜별로 마크다운 파일이 생성되었습니다."]).
Proof.
  intros Hrange Hlog Hne Hgroup.
  destruct (echoAnswers_run answers st) as [lines Hecho].
  exists (map ConsoleLog lines
          ++ [ConsoleLog (LF ++ "==== 기간 내 커밋 조회 중... ====");
              GitLog (gitPath answers) (logOptions answers);
              ConsoleLog ("총 " ++ numberToString (length found)
                          ++ "개의 커밋을 찾았습니다.")])%list.
  split; [rewrite chatCalls_app, chatCalls_logs; reflexivity|].
  split; [rewrite writesOf_app, writesOf_logs; reflexivity|].
  unfold main, try_catch, mbind, M_bind. rewrite Hecho, Hrange.
  unfold console_log, call. rewrite emit_run.
  change (world (printed (printed st _) _)) with (world st). rewrite Hlog.
  destruct found as [|c found]; [congruence|]. cbn [all].
  rewrite emit_run. unfold liftR. rewrite Hgroup.
  match goal with
  | |- context [forEachDate (gitPath answers) buckets ?s] =>
      replace s with (advance st w1
        (map ConsoleLog lines
         ++ [ConsoleLog (LF ++ "==== 기간 내 커밋 조회 중... ====");
             GitLog (gitPath answers) (logOptions answers);
             ConsoleLog ("총 " ++ numberToString (length (c :: found))
                         ++ "개의 커밋을 찾았습니다.")])%list)
        by (unfold printed, advance; simpl; rewrite <- !app_assoc; reflexivity)
  end.
  match goal with
  | |- context [forEachDate (gitPath answers) buckets ?s] =>
      destruct (forEachDate_run (gitPath answers) buckets s) as (evs & Hloop & _)
  end.
  rewrite Hloop. rewrite !emit_run, printed_app. reflexivity.
Qed.

End ChatFacts.

(** X8.  With an API key that [generateMessage] takes for missing while the
    client was made with it at load, which is the case of an empty key, the
    batch script still ends normally and tries to write the report of every
    day, but every entry is an error entry, and no request is sent to the
    completion service.  (With the key unset the client is not made: the
    script ends at load, see X7.) *)
Theorem missing_key_fails_every_summary {W : Type} `{Host W}
    (answers : Answers) (st : St W) found w1 (buckets : Buckets) :
  absent (OPENAI_API_KEY host_env) = true ->
  OpenAI_error (OPENAI_API_KEY host_env) = None ->
  simpleGit_error (gitPath answers) (world st) = None ->
  checkRange (Date_new host_dateParse (startDate answers))
             (Date_new host_dateParse (endDate answers)) = RangeOk ->
  git_log (gitPath answers) (logOptions answers) (world st)
  = (Ok {| all := Some found |}, w1) ->
  found <> [] ->
  groupByDate found = Ok buckets ->
  exists st',
    batchScript answers st = (Ok tt, st') /\
    chatCalls (trace st') = chatCalls (trace st) /\
    let days := (batchOutcomes (gitPath answers) buckets w1).1 in
    writesOf (trace st')
    = (writesOf (trace st)
       ++ map (fun d => (day_path (gitPath answers) d, day_report d)) days)%list /\
    length days = length buckets /\
    Forall (fun d => Forall (fun r => isThrow r = true) (day_results d)) days.
Proof.
  intros Hk Hclient Hgit Hrange Hlog Hne Hgroup.
  rewrite (batchScript_made answers st Hclient Hgit).
  destruct (main_fetched answers st found w1 buckets Hrange Hlog Hne Hgroup)
    as (evs & Hrun & Hw & _).
  destruct (main_fetched_state answers st found w1 buckets Hrange Hlog Hne Hgroup)
    as (evs0 & Hc0 & _ & Hstate).
  destruct (forEachDate_chat (gitPath answers) buckets (advance st w1 evs0))
    as (calls & Hchat & _ & Hnone).
  destruct (batchOutcomes_days (gitPath answers) buckets w1) as (Hdates & _ & _).
  assert (Hstart : chatCalls (trace (advance st w1 evs0)) = chatCalls (trace st)).
  { cbn [advance trace]. rewrite chatCalls_app, Hc0. apply app_nil_r. }
  rewrite Hstart, (Hnone Hk), app_nil_r in Hchat.
  remember (forEachDate (gitPath answers) buckets (advance st w1 evs0)).2 as st2.
  pose proof Hstate as Hst. rewrite Hrun in Hst. apply (f_equal snd) in Hst. cbn [snd] in Hst.
  eexists. split; [exact Hstate|]. split; [|split; [|split]].
  - unfold printed. cbn [advance trace]. rewrite chatCalls_app, Hchat. apply app_nil_r.
  - rewrite <- Hst. cbn [trace]. rewrite writesOf_app, Hw. reflexivity.
  - rewrite <- (length_map day_date), Hdates. apply length_fmap.
  - apply batchOutcomes_no_key. exact Hk.
Qed.

(** The sample run with the key set to the empty string. *)
Lemma missing_key_fails_every_summary_witness :
  exists st',
    @batchScript nat (Faulty.emptyKey Sample.commits) Sample.answers Sample.start
    = (Ok tt, st') /\
    chatCalls (trace st') = [] /\
    length (writesOf (trace st')) = 3%nat.
Proof.
  destruct (@missing_key_fails_every_summary nat (Faulty.emptyKey Sample.commits)
              Sample.answers Sample.start Sample.commits 1%nat
              (match @groupByDate nat (Faulty.emptyKey Sample.commits) Sample.commits with
               | Ok b => b
               | Throw _ => []
               end)
              eq_refl eq_refl eq_refl eq_refl eq_refl ltac:(discriminate) eq_refl)
    as (st' & Hrun & Hchat & Hw & _).
  exists st'. split; [exact Hrun|]. split; [exact Hchat|].
  rewrite Hw. reflexivity.
Defined.

(** X9.  A batch run sends at most one request to the completion service
    per fetched commit. *)
Theorem one_request_per_commit_at_most {W : Type} `{Host W}
    (answers : Answers) (st : St W) found w1 (buckets : Buckets) :
  checkRange (Date_new host_dateParse (startDate answers))
             (Date_new host_dateParse (endDate answers)) = RangeOk ->
  git_log (gitPath answers) (logOptions answers) (world st)
  = (Ok {| all := Some found |}, w1) ->
  found <> [] ->
  groupByDate found = Ok buckets ->
  exists st' calls,
    main answers st = (Ok tt, st') /\
    chatCalls (trace st') = (chatCalls (trace st) ++ calls)%list /\
    (length calls <= length found)%nat.
Proof.
  intros Hrange Hlog Hne Hgroup.
  destruct (main_fetched_state answers st found w1 buckets Hrange Hlog Hne Hgroup)
    as (evs0 & Hc0 & _ & Hstate).
  destruct (forEachDate_chat (gitPath answers) buckets (advance st w1 evs0))
    as (calls & Hchat & Hlen & _).
  assert (Htotal : totalCommits buckets = length found).
  { destruct (dates_valid_or_not found) as [Hvalid|Hbad].
    - destruct (keys_exist found Hvalid) as [keys Hkeys].
      destruct (groupLoop_partition found keys [] Hkeys) as (bs & Hrun & Hperm & _).
      unfold groupByDate in Hgroup. rewrite Hrun in Hgroup. injection Hgroup as <-.
      unfold totalCommits. rewrite Hperm. reflexivity.
    - rewrite (groupByDate_invalid found Hbad) in Hgroup. discriminate. }
  assert (Hstart : chatCalls (trace (advance st w1 evs0)) = chatCalls (trace st)).
  { cbn [advance trace]. rewrite chatCalls_app, Hc0. apply app_nil_r. }
  rewrite Hstart in Hchat.
  remember (forEachDate (gitPath answers) buckets (advance st w1 evs0)).2 as st2.
  eexists _, calls. split; [exact Hstate|]. split; [|lia].
  unfold printed. cbn [advance trace]. rewrite chatCalls_app, Hchat. apply app_nil_r.
Qed.

Lemma one_request_per_commit_at_most_witness :
  exists st' calls,
    @main nat (Sample.host 0 Sample.commits) Sample.answers Sample.start = (Ok tt, st') /\
    chatCalls (trace st') = calls /\ (length calls <= 5)%nat.
Proof.
  destruct (@one_request_per_commit_at_most nat (Sample.host 0 Sample.commits)
              Sample.answers Sample.start Sample.commits 1%nat
              (match @groupByDate nat (Sample.host 0 Sample.commits) Sample.commits with
               | Ok b => b
               | Throw _ => []
               end)
              eq_refl eq_refl ltac:(discriminate) eq_refl)
    as (st' & calls & Hrun & Hchat & Hlen).
  exists st', calls. repeat split; assumption.
Defined.

(** X10.  A summary fails for one of four reasons only: [git show] threw
    (and then no request was sent), the API key is missing (no request
    either), the completion service threw, or its answer held no text.  The
    prompt check of [generateMessage] never fires, the prompt being the fixed
    instruction followed by the text of [git show]. *)
Theorem summary_error_sources {W : Type} `{Host W}
    (repo : string) (commit : Commit) (st : St W) e st' :
  summarize repo commit st = (Throw e, st') ->
  (exists w, git_show repo (showArgs commit) (world st) = (Throw e, w) /\
             chatCalls (trace st') = chatCalls (trace st)) \/
  (exists showResult w,
     git_show repo (showArgs commit) (world st) = (Ok showResult, w) /\
     let request := chatRequest (VString (summaryPrompt showResult)) noOptions in
     req_messages request
     = [("system", defaultSystem); ("user", summaryPrompt showResult)] /\
     ((absent (OPENAI_API_KEY host_env) = true /\
       e = {| message := "환경변수 OPENAI_API_KEY가 설정되어 있지 않습니다." |} /\
       chatCalls (trace st') = chatCalls (trace st)) \/
      (absent (OPENAI_API_KEY host_env) = false /\
       chatCalls (trace st') = (chatCalls (trace st) ++ [request])%list /\
       ((exists w2, chat_completions_create request w = (Throw e, w2)) \/
        e = {| message := "모델이 유효한 응답을 반환하지 않았습니다." |})))).
Proof.
  intros Hrun. pose proof (summarize_chat repo commit st) as Hchat.
  rewrite Hrun in Hchat. cbn [snd] in Hchat.
  unfold summarize, mbind, M_bind, call in Hrun.
  destruct (git_show repo (showArgs commit) (world st)) as [[showResult|e0] w1] eqn:Hshow.
  - right. exists showResult, w1. split; [reflexivity|]. split; [reflexivity|].
    cbn [fst] in Hchat.
    destruct (absent (OPENAI_API_KEY host_env)) eqn:Hk.
    + left. rewrite generateMessage_no_key in Hrun by (try exact Hk; reflexivity).
      injection Hrun as <- _. rewrite app_nil_r in Hchat. auto.
    + right. split; [reflexivity|]. split; [exact Hchat|].
      rewrite generateMessage_sent in Hrun by (try exact Hk; reflexivity).
      cbn [world] in Hrun.
      destruct (chat_completions_create _ w1) as [[c|e1] w2].
      * right. destruct (completionText c) as [t|]; [destruct (String.eqb t "")|];
          congruence.
      * left. exists w2. congruence.
  - left. exists w1. injection Hrun as <- _. cbn [fst] in Hchat.
    rewrite app_nil_r in Hchat. auto.
Qed.

Lemma summary_error_sources_witness :
  exists w,
    @git_show nat (Sample.host 0 []) "/repo" (showArgs Sample.commit2) 0%nat
    = (Throw {| message := "fatal: bad object badc0ffee0ddf00dbadc0ffee0ddf00dbadc0ffe" |}, w).
Proof.
  destruct (@summary_error_sources nat (Sample.host 0 []) "/repo" Sample.commit2
              Sample.start _ _ eq_refl) as [(w & Hshow & _)|(s & w & Hshow & _)].
  - exists w. exact Hshow.
  - discriminate Hshow.
Defined.

(** ** One day, one report; the shape of a date key *)

Section OneDayFacts.
Context {W : Type} `{Host W}.

Lemma groupLoop_same_key (commits : list Commit) k (acc : list Commit) :
  Forall (fun c => commitDateOf c = Ok k) commits ->
  groupLoop commits [(k, acc)] = Ok [(k, (acc ++ commits)%list)].
Proof.
  intros Hk. revert acc. induction Hk as [|c cs Hc _ IH]; intros acc.
  - simpl. rewrite app_nil_r. reflexivity.
  - simpl. rewrite Hc. simpl. rewrite String.eqb_refl. simpl. rewrite String.eqb_refl.
    rewrite IH, <- app_assoc. reflexivity.
Qed.

Lemma groupByDate_same_key (commits : list Commit) k :
  commits <> [] ->
  Forall (fun c => commitDateOf c = Ok k) commits ->
  groupByDate commits = Ok [(k, commits)].
Proof.
  intros Hne Hk. destruct Hk as [|c cs Hc Hcs]; [congruence|].
  unfold groupByDate. simpl. rewrite Hc. simpl. rewrite String.eqb_refl.
  apply (groupLoop_same_key cs k [c] Hcs).
Qed.

Lemma allChars_app p (a b : string) : allChars p (a ++ b) = allChars p a && allChars p b.
Proof.
  induction a as [|c a IH]; [reflexivity|].
  rewrite append_cons_string. cbn [allChars]. rewrite IH. apply andb_assoc.
Qed.

Lemma beforeFirst_isoYear y : beforeFirst "T" (isoYear y) = isoYear y.
Proof.
  unfold isoYear. destruct ((0 <=? y) && (y <=? 9999)); [apply beforeFirst_digits|].
  rewrite beforeFirst_app by (destruct (y <? 0); reflexivity).
  rewrite beforeFirst_digits. reflexivity.
Qed.

End OneDayFacts.

(** X11.  When all fetched commits fall on one UTC day, the run produces
    exactly one report, named from that day, holding all the commits in the
    order of the listing. *)
Theorem commits_of_one_day_share_one_report {W : Type} `{Host W}
    (answers : Answers) (st : St W) found w1 key :
  checkRange (Date_new host_dateParse (startDate answers))
             (Date_new host_dateParse (endDate answers)) = RangeOk ->
  git_log (gitPath answers) (logOptions answers) (world st)
  = (Ok {| all := Some found |}, w1) ->
  found <> [] ->
  Forall (fun c => commitDateOf c = Ok key) found ->
  exists st',
    main answers st = (Ok tt, st') /\
    writesOf (trace st')
    = (writesOf (trace st)
       ++ [(path_join (gitPath answers) ("commit-report-" ++ key ++ ".md"),
            assemble key found (outcomes (gitPath answers) found w1).1)])%list.
Proof.
  intros Hrange Hlog Hne Hkey.
  pose proof (groupByDate_same_key found key Hne Hkey) as Hgroup.
  destruct (main_fetched answers st found w1 _ Hrange Hlog Hne Hgroup)
    as (evs & Hrun & Hw & _).
  eexists. split; [exact Hrun|]. cbn [trace]. rewrite writesOf_app, Hw. f_equal.
  cbn [batchOutcomes]. destruct (outcomes (gitPath answers) found w1) as [rs w2].
  destruct (fs_write_error _ _ w2) as [err w3]. reflexivity.
Qed.

Lemma commits_of_one_day_share_one_report_witness :
  exists st',
    @main nat (Sample.host 0 [Sample.commit1; Sample.commit2]) Sample.answers Sample.start
    = (Ok tt, st') /\
    (writesOf (trace st')).*1 = ["/repo/commit-report-2024-01-01.md"].
Proof.
  destruct (@commits_of_one_day_share_one_report nat
              (Sample.host 0 [Sample.commit1; Sample.commit2]) Sample.answers Sample.start
              [Sample.commit1; Sample.commit2] 1%nat "2024-01-01"
              eq_refl eq_refl ltac:(discriminate) ltac:(repeat constructor))
    as (st' & Hrun & Hw).
  exists st'. split; [exact Hrun|]. rewrite Hw. reflexivity.
Defined.

(** X12.  Whatever the year, a date key is the year text, a hyphen, the
    two-digit month, a hyphen and the two-digit day of the instant in UTC;
    it is never a string of digits, so that the keys of [commitsByDate] are
    never array indices and [Object.entries] keeps them in creation order. *)
Theorem date_key_shape {W : Type} `{Host W} (commit : Commit) key :
  commitDateOf commit = Ok key ->
  exists t,
    Date_new host_dateParse (date commit) = Some t /\
    key = isoYear (ES.YearFromTime t) ++ "-" ++ digits 2 (ES.MonthFromTime t + 1)
          ++ "-" ++ digits 2 (ES.DateFromTime t) /\
    allChars isDigit key = false.
Proof.
  intros Hkey. unfold commitDateOf in Hkey.
  destruct (Date_new host_dateParse (date commit)) as [t|]; [|discriminate].
  exists t. split; [reflexivity|].
  assert (Hshape : key = isoYear (ES.YearFromTime t) ++ "-"
                         ++ digits 2 (ES.MonthFromTime t + 1) ++ "-"
                         ++ digits 2 (ES.DateFromTime t)).
  { cbn [toISOString mbind Result_bind mret Result_ret] in Hkey. injection Hkey as <-.
    rewrite <- (beforeFirst_date _ _ _
                  (digits 2 (ES.HourFromTime t) ++ ":" ++ digits 2 (ES.MinFromTime t) ++ ":"
                   ++ digits 2 (ES.SecFromTime t) ++ "." ++ digits 3 (ES.msFromTime t) ++ "Z")
                  (beforeFirst_isoYear _) (beforeFirst_digits _ _) (beforeFirst_digits _ _)).
    rewrite !append_assoc_string. reflexivity. }
  split; [exact Hshape|]. rewrite Hshape, allChars_app, allChars_app.
  change (allChars isDigit "-") with false. rewrite andb_false_l. apply andb_false_r.
Qed.

Lemma date_key_shape_witness :
  exists t, Date_new Sample.dateParse (date Sample.commit3) = Some t.
Proof.
  destruct (@date_key_shape nat (Sample.host 0 []) Sample.commit3 "2023-12-31" eq_refl)
    as (t & Ht & _).
  exists t. exact Ht.
Defined.

(** X19.  Keys, buckets and order.  Grouping a fetched list whose dates
    are all time values puts every commit under its key, the text before
    the [T] of the ISO text of its instant in UTC.  For a commit whose UTC
    year has four digits (0000 to 9999) that key is the first ten
    characters of the ISO text and is its UTC calendar date [YYYY-MM-DD],
    whatever the years of the other commits.  Every bucket holds exactly
    the commits of its key, in the order of the fetched list. *)
Theorem bucket_keys_and_order {W : Type} `{Host W} (commits : list Commit) :
  Forall (fun c => is_Some (Date_new host_dateParse (date c))) commits ->
  exists buckets,
    groupByDate commits = Ok buckets /\
    (forall c, c ∈ commits ->
       exists t iso,
         Date_new host_dateParse (date c) = Some t /\
         toISOString (Some t) = Ok iso /\
         commitDateOf c = Ok (beforeFirst "T" iso) /\
         (0 <= ES.YearFromTime t <= 9999 -> beforeFirst "T" iso = substring 0 10 iso) /\
         exists v, (beforeFirst "T" iso, v) ∈ buckets /\ c ∈ v) /\
    (forall c cal tw,
       validDate cal -> 0 <= tw < ES.msPerDay ->
       Date_new host_dateParse (date c) = Some (ES.MakeDate (dayNumber cal) tw) ->
       commitDateOf c = Ok (isoDate cal)) /\
    (forall k v, (k, v) ∈ buckets -> v = commitsOn k commits).
Proof.
  intros Hsome.
  destruct (keys_exist commits Hsome) as [keys Hkeys].
  pose proof (groupByDate_closed commits keys Hkeys) as Hrun.
  eexists. split; [exact Hrun|]. repeat split.
  - intros c Hin. rewrite Forall_forall in Hsome.
    destruct (Hsome c Hin) as [t Ht].
    destruct (commitDateOf_valid c t Ht) as (iso & Hiso & Hkey).
    exists t, iso. split; [exact Ht|]. split; [exact Hiso|]. split; [exact Hkey|].
    split.
    + intros Hy. destruct (commitDateOf_first10 c t Ht Hy) as (iso' & Hiso' & Hkey').
      rewrite Ht, Hiso in Hiso'. injection Hiso' as <-. congruence.
    + destruct (keys_cover commits keys c Hkeys Hin) as (k & Hk & Hks).
      assert (k = beforeFirst "T" iso) as <- by congruence.
      exists (commitsOn k commits). split.
      * apply list_elem_of_In, in_map_iff. exists k. split; [reflexivity|].
        apply list_elem_of_In, firstOccurrences_elem. exact Hks.
      * apply list_elem_of_filter. split; [exact Hk|exact Hin].
  - intros c cal tw. apply commitDateOf_calendar.
  - intros k v Hin. apply list_elem_of_In, in_map_iff in Hin as (k0 & [= <- <-] & _).
    reflexivity.
Qed.

(** A commit of 2024 next to one of the year 10000. *)
Lemma bucket_keys_and_order_witness :
  exists buckets,
    @groupByDate nat (Sample.host 0 []) [Sample.commit1; Faulty.later1] = Ok buckets /\
    buckets.*1 = ["2024-01-01"; "+010000-01-01"].
Proof.
  destruct (@bucket_keys_and_order nat (Sample.host 0 []) [Sample.commit1; Faulty.later1])
    as (buckets & Hrun & _).
  - repeat constructor; (eexists; vm_compute; reflexivity).
  - exists buckets. split; [exact Hrun|].
    pose proof Hrun as Hb. vm_compute in Hb. injection Hb as <-. reflexivity.
Defined.

(** ** The single-commit script *)

Section ShowFacts.
Context {W : Type} `{Host W}.

(** The script up to the answer of [git show]. *)
Lemma showMain_shown answers (st : St W) :
  let repo := show_gitPath answers in
  let shown :=
    advance st (git_show repo (showOneArgs answers) (world st)).2
      [ConsoleLog (LF ++ "==== 입력한 정보 ====");
       ConsoleLog ("경로: " ++ repo);
       ConsoleLog ("커밋 해시: " ++ commitHash answers);
       ConsoleLog (LF ++ "==== 커밋 상세 ====");
       GitShow repo (showOneArgs answers)] in
  showMain answers st
  = match (git_show repo (showOneArgs answers) (world st)).1 with
    | Throw e =>
        (Ok tt,
         printed shown [ConsoleError "Git 로그를 불러오는 중 오류가 발생했습니다:" (Some e)])
    | Ok showResult =>
        let asked := printed shown [ConsoleLog showResult] in
        match generateMessage (VString (explainPrompt showResult)) noOptions asked with
        | (Throw e, st2) =>
            (Ok tt,
             printed st2 [ConsoleError "Git 로그를 불러오는 중 오류가 발생했습니다:" (Some e)])
        | (Ok result, st2) =>
            let outPath := path_join repo (showFileName answers) in
            let data := showResult ++ LF ++ LF ++ result in
            let st3 := printed st2 [ConsoleLog result] in
            match fs_write_error outPath data (world st3) with
            | (None, w) =>
                (Ok tt,
                 {| world := w; files := <[outPath := data]> (files st3);
                    trace := (trace st3
                              ++ [FsWrite outPath data;
                                  ConsoleLog (LF ++ "[저장 완료] git show 결과가 파일로 저장되었습니다: "
                                              ++ outPath)])%list |})
            | (Some e, w) =>
                (Ok tt,
                 {| world := w; files := files st3;
                    trace := (trace st3
                              ++ [FsWrite outPath data;
                                  ConsoleError "git show 결과 파일 저장 중 오류가 발생했습니다:"
                                    (Some e)])%list |})
            end
        end
    end.
Proof.
  intros repo shown. unfold showMain, try_catch, mbind, M_bind, console_log, call.
  rewrite !emit_run, !printed_app. cbn [app]. fold repo.
  change (world (printed st _)) with (world st).
  destruct (git_show repo (showOneArgs answers) (world st)) as [[showResult|e] w1] eqn:Hshow.
  - cbn [fst snd] in *.
    replace {| world := w1; files := files (printed st _); trace := _ |} with shown
      by (unfold shown, printed, advance; cbn [snd files trace world];
          rewrite <- app_assoc; reflexivity).
    rewrite emit_run.
    destruct (generateMessage (VString (explainPrompt showResult)) noOptions
                (printed shown [ConsoleLog showResult])) as [[result|e] st2].
    + rewrite emit_run. unfold writeFileSync.
      destruct (fs_write_error _ _ (world (printed st2 [ConsoleLog result]))) as [[e|] w].
      * unfold console_error. rewrite emit_run. unfold printed, advance. cbn.
        rewrite <- !app_assoc. reflexivity.
      * rewrite emit_run. unfold printed, advance. cbn. rewrite <- !app_assoc. reflexivity.
    + unfold console_error. rewrite emit_run. reflexivity.
  - cbn [fst snd] in *. unfold console_error. rewrite emit_run.
    unfold shown, printed, advance. cbn. rewrite <- !app_assoc. reflexivity.
Qed.

(** What a request for the explanation adds to a state: no write, no error
    line, no file. *)
Lemma explain_frame showResult (st : St W) :
  let run := generateMessage (VString (explainPrompt showResult)) noOptions st in
  files run.2 = files st /\
  writesOf (trace run.2) = writesOf (trace st) /\
  consoleErrors (trace run.2) = consoleErrors (trace st) /\
  run.1 = (generateMessage (VString (explainPrompt showResult)) noOptions
             (startOf (world st))).1.
Proof.
  intros run. unfold run.
  destruct (generateMessage_frame (VString (explainPrompt showResult)) noOptions st)
    as (evs & -> & Hw & He).
  unfold advance. cbn [fst snd files trace].
  rewrite writesOf_app, consoleErrors_app, Hw, He, !app_nil_r. auto.
Qed.

End ShowFacts.

(** X13.  The single-commit script when [git show] or the request for the
    explanation throws: the outer handler prints the error after the
    message it has for a failed log, the script ends normally, and no file
    is written or even attempted.  When it is [git show] that throws, no
    request is sent to the service. *)
Theorem show_failure_writes_nothing {W : Type} `{Host W}
    (answers : ShowAnswers) (st : St W) (e : JsError) :
  let repo := show_gitPath answers in
  let shown := git_show repo (showOneArgs answers) (world st) in
  (shown.1 = Throw e \/
   exists showResult,
     shown.1 = Ok showResult /\
     (generateMessage (VString (explainPrompt showResult)) noOptions (startOf shown.2)).1
     = Throw e) ->
  exists st',
    showMain answers st = (Ok tt, st') /\
    files st' = files st /\
    writesOf (trace st') = writesOf (trace st) /\
    last (trace st')
    = Some (ConsoleError "Git 로그를 불러오는 중 오류가 발생했습니다:" (Some e)) /\
    consoleErrors (trace st')
    = (consoleErrors (trace st)
       ++ [("Git 로그를 불러오는 중 오류가 발생했습니다:", Some e)])%list /\
    (shown.1 = Throw e -> chatCalls (trace st') = chatCalls (trace st)).
Proof.
  intros repo shown Hfail. rewrite showMain_shown. fold repo. fold shown.
  destruct Hfail as [Hshow | (showResult & Hshow & Hgen)].
  - rewrite Hshow. eexists. split; [reflexivity|].
    unfold printed, advance. cbn [files trace snd].
    rewrite !writesOf_app, !consoleErrors_app, !chatCalls_app. cbn.
    rewrite !app_nil_r, last_snoc. auto.
  - rewrite Hshow. cbv zeta.
    set (asked := printed _ [ConsoleLog showResult]).
    destruct (explain_frame showResult asked) as (Hf & Hw & He & Hr).
    change (world asked) with shown.2 in Hr. rewrite Hgen in Hr.
    destruct (generateMessage (VString (explainPrompt showResult)) noOptions asked)
      as [r st2]. cbn [fst snd] in *. subst r.
    eexists. split; [reflexivity|].
    unfold printed at 1 2 3 4. unfold advance at 1 2 3 4. cbn [files trace snd].
    rewrite writesOf_app, consoleErrors_app, Hf, Hw, He, last_snoc.
    unfold asked, printed, advance. cbn [files trace snd].
    rewrite !writesOf_app, !consoleErrors_app. cbn. rewrite !app_nil_r.
    repeat split; try reflexivity.
    intros Habs. discriminate Habs.
Qed.

(** [git show] throws on a host without a repository: one error line, no
    file, no request. *)
Lemma show_failure_writes_nothing_witness :
  let answers := {| show_gitPath := "/repo"; commitHash := "a1b2c3d" |} in
  exists st',
    @showMain nat Faulty.noRepository answers Sample.start = (Ok tt, st') /\
    files st' = files Sample.start /\
    writesOf (trace st') = [] /\
    chatCalls (trace st') = [].
Proof.
  intros answers.
  destruct (@show_failure_writes_nothing nat Faulty.noRepository answers Sample.start
              {| message := "fatal: not a git repository" |})
    as (st' & Hrun & Hf & Hw & _ & _ & Hc); [left; reflexivity|].
  exists st'. repeat split; [exact Hrun|exact Hf|exact Hw|apply Hc; reflexivity].
Defined.

(** X14.  The single-commit script when both [git show] and the request for
    the explanation succeed: one write is attempted, of the text of
    [git show], an empty line and the explanation (which is not empty), to
    the file [commit-show-<hash>.txt] in the repository, where [<hash>] is
    the answer trimmed, while [git show] was given the answer as typed.  A
    write that returns leaves that text at the path; a write that throws is
    printed with the message for a failed save, and nothing is said here of
    what the path then holds.  In both cases the script ends normally. *)
Theorem show_success_writes_one_file {W : Type} `{Host W}
    (answers : ShowAnswers) (st : St W) (showResult text : string) :
  let repo := show_gitPath answers in
  let shown := git_show repo (showOneArgs answers) (world st) in
  let outPath := path_join repo ("commit-show-" ++ trim (commitHash answers) ++ ".txt") in
  let data := showResult ++ LF ++ LF ++ text in
  shown.1 = Ok showResult ->
  (generateMessage (VString (explainPrompt showResult)) noOptions (startOf shown.2)).1
  = Ok text ->
  exists st',
    showMain answers st = (Ok tt, st') /\
    text <> "" /\
    writesOf (trace st') = (writesOf (trace st) ++ [(outPath, data)])%list /\
    In (GitShow repo ["--quiet"; "--pretty=fuller"; "--patch"; "--stat"; commitHash answers])
       (trace st') /\
    ((files st' = <[outPath := data]> (files st) /\
      consoleErrors (trace st') = consoleErrors (trace st))
     \/
     (exists fileErr,
        consoleErrors (trace st')
        = (consoleErrors (trace st)
           ++ [("git show 결과 파일 저장 중 오류가 발생했습니다:", Some fileErr)])%list)).
Proof.
  intros repo shown outPath data Hshow Hgen. rewrite showMain_shown. fold repo. fold shown.
  rewrite Hshow. cbv zeta.
  set (asked := printed _ [ConsoleLog showResult]).
  destruct (explain_frame showResult asked) as (Hf & Hw & He & Hr).
  change (world asked) with shown.2 in Hr. rewrite Hgen in Hr.
  assert (Hin : In (GitShow repo (showOneArgs answers)) (trace asked)).
  { unfold asked, printed, advance. cbn [trace]. rewrite !in_app_iff. left. right.
    cbn. auto 10. }
  assert (Hkeep : forall ev, In ev (trace asked) ->
            In ev (trace (generateMessage (VString (explainPrompt showResult)) noOptions
                            asked).2)).
  { intros ev Hev.
    destruct (generateMessage_frame (VString (explainPrompt showResult)) noOptions asked)
      as (evs & -> & _ & _).
    unfold advance. cbn [snd trace]. rewrite in_app_iff. left. exact Hev. }
  specialize (Hkeep _ Hin).
  destruct (generateMessage (VString (explainPrompt showResult)) noOptions asked)
    as [r st2] eqn:Hrun. cbn [fst snd] in *. subst r.
  destruct (generateMessage_ok_inv _ _ _ _ _ Hrun) as (_ & _ & _ & _ & Hne & _).
  assert (Hasked : files asked = files st /\ writesOf (trace asked) = writesOf (trace st)
                   /\ consoleErrors (trace asked) = consoleErrors (trace st)).
  { unfold asked, printed, advance. cbn [files trace snd].
    rewrite !writesOf_app, !consoleErrors_app. cbn. rewrite !app_nil_r. auto. }
  destruct Hasked as (Hf0 & Hw0 & He0).
  unfold showFileName. fold outPath. fold data.
  destruct (fs_write_error outPath data (world (printed st2 [ConsoleLog text])))
    as [[fileErr|] w].
  - eexists. split; [reflexivity|]. split; [exact Hne|].
    unfold printed, advance. cbn [files trace snd].
    rewrite !writesOf_app, !consoleErrors_app, Hw, Hw0, He, He0, Hf, Hf0. cbn.
    rewrite !app_nil_r. split; [reflexivity|].
    split; [rewrite !in_app_iff; left; left; exact Hkeep|].
    right. exists fileErr. auto.
  - eexists. split; [reflexivity|]. split; [exact Hne|].
    unfold printed, advance. cbn [files trace snd].
    rewrite !writesOf_app, !consoleErrors_app, Hw, Hw0, He, He0, Hf, Hf0. cbn.
    rewrite !app_nil_r. split; [reflexivity|].
    split; [rewrite !in_app_iff; left; left; exact Hkeep|].
    left. auto.
Qed.

(** The script on the sample host, with the hash typed with a space after
    it: the file name has the hash without the space. *)
Lemma show_success_writes_one_file_witness :
  let answers := {| show_gitPath := "/repo"; commitHash := "a1b2c3d " |} in
  exists st' showResult text,
    @showMain nat (Sample.host 0 []) answers Sample.start = (Ok tt, st') /\
    writesOf (trace st')
    = [("/repo/commit-show-a1b2c3d.txt", showResult ++ LF ++ LF ++ text)].
Proof.
  intros answers.
  pose (shown := @git_show nat (Sample.host 0 []) "/repo" (showOneArgs answers)
                   (world Sample.start)).
  pose (showResult := match shown.1 with Ok s => s | Throw _ => "" end).
  pose (text := match (@generateMessage nat (Sample.host 0 [])
                         (VString (explainPrompt showResult)) noOptions
                         (startOf shown.2)).1 with
                | Ok s => s | Throw _ => "" end).
  destruct (@show_success_writes_one_file nat (Sample.host 0 []) answers Sample.start
              showResult text)
    as (st' & Hrun & _ & Hw & _); [reflexivity|reflexivity|].
  exists st', showResult, text. split; [exact Hrun|exact Hw].
Defined.

Section ShowScriptFacts.
Context {W : Type} `{Host W}.


End ShowScriptFacts.



(** ** The validators of the answers *)

Section ValidatorFacts.
Import ES.

Lemma digitValue_isDigit c : isDigit c = true -> exists v, digitValue c = Some v /\ 0 <= v <= 9.
Proof.
  unfold isDigit, digitValue. cbv zeta. intros Hd. rewrite Hd.
  apply andb_true_iff in Hd as [Hlo Hhi].
  apply Nat.leb_le in Hlo. apply Nat.leb_le in Hhi.
  eexists. split; [reflexivity|]. lia.
Qed.

Lemma digitValue_not_digit c : isDigit c = false -> digitValue c = None.
Proof. unfold isDigit, digitValue. cbv zeta. intros ->. reflexivity. Qed.

Lemma number2_isDigit a b :
  number2 a b
  = if isDigit a && isDigit b
    then Some (10 * (Z.of_nat (nat_of_ascii a) - 48) + (Z.of_nat (nat_of_ascii b) - 48))
    else None.
Proof.
  unfold number2, digitValue, isDigit. cbv zeta.
  destruct ((48 <=? nat_of_ascii a)%nat && (nat_of_ascii a <=? 57)%nat); [|reflexivity].
  destruct ((48 <=? nat_of_ascii b)%nat && (nat_of_ascii b <=? 57)%nat); reflexivity.
Qed.

Lemma number2_range a b v : number2 a b = Some v -> 0 <= v <= 99.
Proof.
  rewrite number2_isDigit. destruct (isDigit a) eqn:Ha; [|discriminate].
  destruct (isDigit b) eqn:Hb; [|discriminate]. cbn [andb]. intros [= <-].
  unfold isDigit in Ha, Hb. cbv zeta in Ha, Hb.
  apply andb_true_iff in Ha as [Ha1 Ha2]. apply andb_true_iff in Hb as [Hb1 Hb2].
  apply Nat.leb_le in Ha1, Ha2, Hb1, Hb2. lia.
Qed.

(** The pattern of the prompt lets through exactly the texts that the
    date-only form of the Date Time String Format reads. *)
Lemma datePattern_parseISODate s :
  datePattern s = match parseISODate s with Some _ => true | None => false end.
Proof.
  do 10 (destruct s as [|? s]; [reflexivity|]). destruct s; [|reflexivity].
  unfold datePattern, parseISODate. rewrite !number2_isDigit.
  repeat match goal with
         | |- context [isDigit ?c] => destruct (isDigit c)
         | |- context [Ascii.eqb ?c "-"] => destruct (Ascii.eqb c "-")
         end; reflexivity.
Qed.

Lemma parseISODate_fields s y m d :
  parseISODate s = Some (y, m, d) ->
  String.length s = 10%nat /\ 0 <= y <= 9999 /\ 0 <= m <= 99 /\ 0 <= d <= 99 /\
  match s with String c _ => isDigit c = true | "" => False end.
Proof.
  do 10 (destruct s as [|? s]; [discriminate|]). destruct s; [|discriminate].
  unfold parseISODate.
  destruct (Ascii.eqb _ "-" && Ascii.eqb _ "-"); [|discriminate].
  destruct (number2 a a0) as [hi|] eqn:Hhi; [|discriminate].
  destruct (number2 a1 a2) as [lo|] eqn:Hlo; [|discriminate].
  destruct (number2 a4 a5) as [mm|] eqn:Hm; [|discriminate].
  destruct (number2 a7 a8) as [dd|] eqn:Hd; [|discriminate].
  cbn [mbind option_bind]. intros [= <- <- <-].
  apply number2_range in Hlo, Hm, Hd. pose proof (number2_range _ _ _ Hhi) as Hr.
  split; [reflexivity|]. repeat split; try lia.
  rewrite number2_isDigit in Hhi. destruct (isDigit a); [reflexivity|discriminate].
Qed.

Lemma MakeDay_range y m d :
  0 <= y <= 9999 -> 1 <= m <= 12 -> 1 <= d <= 31 ->
  -719894 <= MakeDay y (m - 1) d <= 2932897 + 366.
Proof.
  intros Hy Hm Hd. unfold MakeDay. cbv zeta.
  replace (y + (m - 1) / 12) with y by (Z.div_mod_to_equations; lia).
  replace ((m - 1) mod 12) with (m - 1) by (Z.div_mod_to_equations; lia).
  pose proof (DayFromYear_range y ltac:(lia)) as Hr.
  pose proof (daysBeforeMonth_nonneg (isLeapYear y) (m - 1)) as Hn.
  pose proof (daysBeforeMonth_mono (isLeapYear y) (m - 1) 11 ltac:(lia)) as Hmono.
  assert (H11 : daysBeforeMonth (isLeapYear y) 11 <= 335) by (destruct (isLeapYear y); cbn; lia).
  assert (Hy' : DayFromYear y <= DayFromYear 9999) by (apply DayFromYear_mono; lia).
  change (DayFromYear 9999) with 2932532 in Hy'. lia.
Qed.

(** [new Date(s)] for a text of the date-only form never asks the host's
    parser, and is NaN only for a month or a day out of bounds. *)
Lemma Date_new_fields legacy s y m d :
  parseISODate s = Some (y, m, d) ->
  Date_new legacy s
  = if (1 <=? m) && (m <=? 12) && (1 <=? d) && (d <=? 31)
    then Some (MakeDate (MakeDay y (m - 1) d) 0) else None.
Proof.
  intros Hp. unfold Date_new. rewrite Hp.
  destruct (parseISODate_fields s y m d Hp) as (_ & Hy & _).
  destruct (Z.leb_spec 1 m); [|reflexivity]. destruct (Z.leb_spec m 12); [|reflexivity].
  destruct (Z.leb_spec 1 d); [|reflexivity]. destruct (Z.leb_spec d 31); [|reflexivity].
  cbn [andb]. apply TimeClip_days; [apply MakeDay_range; lia|unfold msPerDay; lia].
Qed.

Lemma isWhiteSpace_digitChar d : 0 <= d <= 9 -> isWhiteSpace (digitChar d) = false.
Proof.
  intros Hd.
  assert (Hc : d = 0 \/ d = 1 \/ d = 2 \/ d = 3 \/ d = 4 \/ d = 5 \/ d = 6 \/ d = 7
               \/ d = 8 \/ d = 9) by lia.
  repeat (destruct Hc as [->|Hc]; [reflexivity|]). subst. reflexivity.
Qed.

Lemma digitChar_ascii d : 0 <= d <= 9 -> (nat_of_ascii (digitChar d) < 128)%nat.
Proof.
  intros Hd.
  assert (Hc : d = 0 \/ d = 1 \/ d = 2 \/ d = 3 \/ d = 4 \/ d = 5 \/ d = 6 \/ d = 7
               \/ d = 8 \/ d = 9) by lia.
  repeat (destruct Hc as [->|Hc]; [vm_compute; lia|]). subst. vm_compute. lia.
Qed.

Lemma length_isoDate c : String.length (isoDate c) = 10%nat.
Proof. unfold isoDate. rewrite !length_append_string, !length_digits. reflexivity. Qed.

(** The text of a date has no white space to trim. *)
Lemma trim_isoDate c : validDate c -> trim (isoDate c) = isoDate c.
Proof.
  intros [Hy [Hm Hd]]. unfold trim.
  assert (Hfirst : startsClean (isoDate c)).
  { unfold isoDate. cbv [digits String.append].
    apply skipWhite_ascii; [apply isWhiteSpace_digitChar|apply digitChar_ascii];
      Z.div_mod_to_equations; lia. }
  rewrite (trimStart_of_clean _ Hfirst).
  unfold isoDate. change (digits 2 (day c))
    with (digits 1 (day c / 10) ++ String (digitChar (day c mod 10)) "").
  rewrite <- !append_assoc_string.
  apply trimEnd_app_clean; [apply isWhiteSpace_digitChar|apply digitChar_ascii];
    Z.div_mod_to_equations; lia.
Qed.

End ValidatorFacts.

(** X16.  The validators of the commit hash and of the two dates judge the
    answer with the white space around it removed: padding an answer with
    blanks, tabs or line ends never changes the verdict. *)
Theorem validators_ignore_padding (legacy : string -> ES.TimeValue)
    (example a input b : string) :
  blank a -> blank b ->
  validateCommitHash (a ++ input ++ b) = validateCommitHash input /\
  validateDate legacy example (a ++ input ++ b) = validateDate legacy example input.
Proof.
  intros Ha Hb. unfold validateCommitHash, validateDate.
  rewrite (trim_padding a input b (allChars_white a Ha) (allChars_white b Hb)).
  split; reflexivity.
Qed.

Lemma validators_ignore_padding_witness :
  blank "  " /\ blank LF /\
  validateCommitHash ("  " ++ "a1b2c3d" ++ LF) = validateCommitHash "a1b2c3d" /\
  validateDate Sample.dateParse "2024-01-01" ("  " ++ "a1b2c3d" ++ LF)
  = validateDate Sample.dateParse "2024-01-01" "a1b2c3d".
Proof.
  exact (conj eq_refl (conj eq_refl
           (validators_ignore_padding Sample.dateParse "2024-01-01" "  " "a1b2c3d" LF
              eq_refl eq_refl))).
Defined.

(** X17.  The verdict of the date validators, by the fields of the trimmed
    answer: the format hint when it is not four digits, a hyphen, two
    digits, a hyphen and two digits; the other hint when the month is not
    01 to 12 or the day not 01 to 31; accepted otherwise, so also a day
    that its month does not have.  The host's own date parser is never
    asked. *)
Theorem validateDate_by_fields (legacy : string -> ES.TimeValue) (example input : string) :
  validateDate legacy example input
  = match parseISODate (trim input) with
    | None => Invalid ("YYYY-MM-DD 형식으로 입력하세요 (예: " ++ example ++ ").")
    | Some (y, m, d) =>
        if (1 <=? m) && (m <=? 12) && (1 <=? d) && (d <=? 31) then Valid
        else Invalid "유효한 날짜를 입력하세요."
    end.
Proof.
  unfold validateDate. rewrite datePattern_parseISODate.
  destruct (parseISODate (trim input)) as [[[y m] d]|] eqn:Hp; [|reflexivity].
  cbn [negb]. rewrite (Date_new_fields legacy _ y m d Hp).
  destruct ((1 <=? m) && (m <=? 12) && (1 <=? d) && (d <=? 31)); reflexivity.
Qed.

(** X18.  A date typed with white space around it is accepted by its
    validator, which trims, while the script builds its Date from the
    answer as typed: that text is not of the date-only form, and what the
    Date is depends on the host's own parser. *)
Theorem padded_date_reaches_host_parser (legacy : string -> ES.TimeValue)
    (example a b : string) (c : CalDate) :
  blank a -> blank b -> (a ++ b)%string <> "" -> validDate c ->
  validateDate legacy example (a ++ isoDate c ++ b) = Valid /\
  Date_new legacy (a ++ isoDate c ++ b) = legacy (a ++ isoDate c ++ b).
Proof.
  intros Ha Hb Hne Hc. split.
  - unfold validateDate.
    rewrite (trim_padding a (isoDate c) b (allChars_white a Ha) (allChars_white b Hb)).
    rewrite (trim_isoDate c Hc), datePattern_parseISODate.
    destruct Hc as [Hy Hc]. pose proof Hc as [Hm Hd].
    pose proof (daysInMonth_bounds (year c) (month c)) as Hb31.
    rewrite (Date_new_isoDate legacy c (conj Hy Hc)).
    rewrite parseISODate_isoDate by lia. reflexivity.
  - unfold Date_new.
    destruct (parseISODate (a ++ isoDate c ++ b)) as [[[y m] d]|] eqn:Hp; [|reflexivity].
    exfalso. apply Hne.
    destruct (parseISODate_fields _ y m d Hp) as (Hlen & _).
    rewrite !length_append_string, length_isoDate in Hlen.
    destruct a; [|simpl in Hlen; lia]. destruct b; [reflexivity|simpl in Hlen; lia].
Qed.

(** A start date typed with a space before it. *)
Lemma padded_date_reaches_host_parser_witness :
  let c := {| year := 2024; month := 1; day := 1 |} in
  blank " " /\ blank "" /\ validDate c /\
  validateDate Sample.dateParse "2024-01-01" (" " ++ isoDate c ++ "") = Valid /\
  Date_new Sample.dateParse (" " ++ isoDate c ++ "")
  = Sample.dateParse (" " ++ isoDate c ++ "").
Proof.
  intros c.
  assert (Hc : validDate c) by (unfold validDate, calendarDate; cbn; lia).
  exact (conj eq_refl (conj eq_refl (conj Hc
           (padded_date_reaches_host_parser Sample.dateParse "2024-01-01" " " "" c
              eq_refl eq_refl ltac:(discriminate) Hc)))).
Defined.
